(** * The canvas of topology.js: pointer interaction, selection geometry
      and render scheduling

    A shallow embedding of [packages/core/src/canvas/canvas.ts].  The class
    [Canvas] becomes a record that is threaded through its methods; a method
    that can raise a [TypeError] (a property read on [undefined]) returns
    [option], with [None] for the raise.

    JavaScript numbers are idealised as real numbers; [NaN] and the
    infinities are outside the model, except for the [Infinity] argument of
    [render], which is a constructor of its own. *)

From Stdlib Require Import Reals Lra Ascii String.
From stdpp Require Import base option list gmap strings.

#[global] Instance Rlt_decision : RelDecision Rlt := Rlt_dec.
#[global] Instance Rgt_decision : RelDecision Rgt := Rgt_dec.
#[global] Instance Rle_decision : RelDecision Rle := Rle_dec.
#[global] Instance Req_decision : EqDecision R := Req_dec_T.

(** ** Truthiness of optional values, as [if (v)] and [!v] read them *)

Module JS.
(** A string is truthy when it is set and not empty. *)
Definition truthy_str (s : option string) : bool :=
match s with
| Some s => negb (String.eqb s EmptyString)
| None => false
end.

(** A number is truthy when it is set and not zero. *)
Definition truthy_num (r : option R) : bool :=
match r with
| Some r => bool_decide (r <> 0%R)
| None => false
end.

Definition is_some {A} (o : option A) : bool :=
match o with Some _ => true | None => false end.
End JS.

(** ** Enumerations

    Their declarations live in [../point], [../pen] and [../data]; the code
    of the canvas fixes which member is the falsy one. *)

(** Modelled from the spec: the enum [PrevNextType] of [../point].  [Mirror]
    is the default and the falsy member: [onkey] replaces an unset type by
    [Mirror] before stepping it modulo 3. *)
Inductive PrevNextType := Mirror | Bilateral | Free.

(** [!anchor.prevNextType]: unset, or the member numbered 0. *)
Definition prevNextType_falsy (t : option PrevNextType) : bool :=
  match t with
  | None | Some Mirror => true
  | Some _ => false
  end.

(** [PenType]: a pen whose [type] is unset or [Node] is a node. *)
Inductive PenType := Node | Line.

(** [LockState], ordered [LockNone < DisableMove < Disable]. *)
Inductive LockState := LockNone | DisableMove | Disable.

Definition locked_truthy (l : option LockState) : bool :=
  match l with
  | None | Some LockNone => false
  | Some _ => true
  end.

Definition locked_disable (l : option LockState) : bool :=
  match l with Some Disable => true | _ => false end.

(** [HotkeyType]; an unset [hotkeyType] and [HotkeyType.None] are both
    written [HotkeyNone]: the canvas only tests [!hotkeyType] and equality
    with a named member. *)
Inductive HotkeyType :=
  HotkeyNone | HotkeyTranslate | HotkeySelect | HotkeyResize | HotkeyAddAnchor.

Definition hotkey_eqb (a b : HotkeyType) : bool :=
  match a, b with
  | HotkeyNone, HotkeyNone | HotkeyTranslate, HotkeyTranslate
  | HotkeySelect, HotkeySelect | HotkeyResize, HotkeyResize
  | HotkeyAddAnchor, HotkeyAddAnchor => true
  | _, _ => false
  end.

(** [HoverType]; [HoverNone] is the falsy member. *)
Inductive HoverType :=
  | HoverNone
  | HoverNodeAnchor | HoverLineAnchor | HoverLineAnchorPrev
  | HoverLineAnchorNext | HoverLine | HoverNode | HoverResize | HoverRotate.

Definition hover_truthy (h : HoverType) : bool :=
  match h with HoverNone => false | _ => true end.

(** ** Points *)

Unset Elimination Schemes.

Module Point.
(** [Point] of [../point]: coordinates, the identities that bind an anchor
  to pens, and the two bezier handles of an anchor. *)
Inductive t : Type := mk {
x : R;
y : R;
id : option string;
penId : option string;
connectTo : option string;
anchorId : option string;
prevNextType : option PrevNextType;
prev : option t;
next : option t }.

(** The literal [{ x, y }]. *)
Definition at_ (px py : R) : t :=
mk px py None None None None None None None.

Definition set_x (v : R) (p : t) : t :=
mk v (y p) (id p) (penId p) (connectTo p) (anchorId p)
   (prevNextType p) (prev p) (next p).
Definition set_y (v : R) (p : t) : t :=
mk (x p) v (id p) (penId p) (connectTo p) (anchorId p)
   (prevNextType p) (prev p) (next p).
Definition set_connectTo (v : option string) (p : t) : t :=
mk (x p) (y p) (id p) (penId p) v (anchorId p)
   (prevNextType p) (prev p) (next p).
Definition set_prev (v : option t) (p : t) : t :=
mk (x p) (y p) (id p) (penId p) (connectTo p) (anchorId p)
   (prevNextType p) v (next p).
Definition set_next (v : option t) (p : t) : t :=
mk (x p) (y p) (id p) (penId p) (connectTo p) (anchorId p)
   (prevNextType p) (prev p) v.

(** [pt.x = e.x; pt.y = e.y]: the object keeps its other fields. *)
Definition move_to (e : t) (p : t) : t := set_y (y e) (set_x (x e) p).
End Point.

Set Elimination Schemes.

(** ** Rectangles *)

Module Rect.
(** [Rect] of [../rect].  [center] is optional in the source; every
  rectangle the canvas reads has passed through [calcCenter] or a
  collaborator that fills it, so the model always carries one. *)
Record t : Type := mk {
x : R;
y : R;
ex : R;
ey : R;
width : R;
height : R;
center : Point.t;
rotate : option R }.

Definition set_x (v : R) (r : t) : t :=
mk v (y r) (ex r) (ey r) (width r) (height r) (center r) (rotate r).
Definition set_y (v : R) (r : t) : t :=
mk (x r) v (ex r) (ey r) (width r) (height r) (center r) (rotate r).
Definition set_ex (v : R) (r : t) : t :=
mk (x r) (y r) v (ey r) (width r) (height r) (center r) (rotate r).
Definition set_ey (v : R) (r : t) : t :=
mk (x r) (y r) (ex r) v (width r) (height r) (center r) (rotate r).
Definition set_width (v : R) (r : t) : t :=
mk (x r) (y r) (ex r) (ey r) v (height r) (center r) (rotate r).
Definition set_height (v : R) (r : t) : t :=
mk (x r) (y r) (ex r) (ey r) (width r) v (center r) (rotate r).
Definition set_center (v : Point.t) (r : t) : t :=
mk (x r) (y r) (ex r) (ey r) (width r) (height r) v (rotate r).
Definition set_rotate (v : option R) (r : t) : t :=
mk (x r) (y r) (ex r) (ey r) (width r) (height r) (center r) v.
End Rect.

(** ** Geometry primitives of [../point] and [../rect] *)

Module Geometry.
Local Open Scope R_scope.

(** Degrees to radians, [(angle * Math.PI) / 180]. *)
Definition radians (angle : R) : R := angle * PI / 180.

(** Modelled from the spec: [rotatePoint] of [../point], whose body is
  not at hand ("point rotate-around-center", "rotate every point about
  the rect's center by [activeRect.rotate] degrees").  The point keeps
  its other fields.  An unset angle is no rotation, which is how the
  guard [if (this.activeRect.rotate)] of [getHover] reads it. *)
Definition rotatePoint (pt : Point.t) (angle : option R) (center : Point.t)
: Point.t :=
match angle with
| None => pt
| Some angle =>
    let a := radians angle in
    let dx := Point.x pt - Point.x center in
    let dy := Point.y pt - Point.y center in
    Point.set_y (dx * sin a + dy * cos a + Point.y center)
      (Point.set_x (dx * cos a - dy * sin a + Point.x center) pt)
end.

(** Modelled from the spec: [calcCenter] of [../rect] ("recomputes
  ActiveRect center"): the centre of the box [x, y, width, height]. *)
Definition calcCenter (r : Rect.t) : Rect.t :=
Rect.set_center
  (Point.at_ (Rect.x r + Rect.width r / 2) (Rect.y r + Rect.height r / 2))
  r.

(** Modelled from the spec: [rectToPoints] of [../rect] ("take the 4 rect
  corners (via rect→points)", "rotate every point about the rect's
  center").  The winding is the one the resize indices 0..3 of
  [resizePens] name: top-left, top-right, bottom-right, bottom-left. *)
Definition rectToPoints (r : Rect.t) : list Point.t :=
map (fun pt => rotatePoint pt (Rect.rotate r) (Rect.center r))
  [ Point.at_ (Rect.x r) (Rect.y r);
    Point.at_ (Rect.ex r) (Rect.y r);
    Point.at_ (Rect.ex r) (Rect.ey r);
    Point.at_ (Rect.x r) (Rect.ey r) ].

(** Modelled from the spec: [translateRect] of [../rect] ("applies it to
  every ... member of the selection and to the ActiveRect"): the box
  moves by [(dx, dy)], its size and rotation stay. *)
Definition translateRect (r : Rect.t) (dx dy : R) : Rect.t :=
Rect.mk (Rect.x r + dx) (Rect.y r + dy) (Rect.ex r + dx) (Rect.ey r + dy)
  (Rect.width r) (Rect.height r)
  (Point.set_y (Point.y (Rect.center r) + dy)
     (Point.set_x (Point.x (Rect.center r) + dx) (Rect.center r)))
  (Rect.rotate r).

(** Squared distance between two points. *)
Definition dist2 (p q : Point.t) : R :=
(Point.x p - Point.x q) * (Point.x p - Point.x q)
+ (Point.y p - Point.y q) * (Point.y p - Point.y q).
End Geometry.

(** ** Pens *)

(** The anchor objects of a pen, named by where the pen holds them:
    [calculative.worldFrom], [calculative.worldTo] or
    [calculative.worldAnchors[k]]. *)
Inductive Slot := SlotFrom | SlotTo | SlotAnchor (k : nat).

Module Calc.
(** [pen.calculative]: the transient state of a pen. *)
Record t : Type := mk {
worldRect : Rect.t;
worldFrom : option Point.t;
worldTo : option Point.t;
worldAnchors : option (list Point.t);
active : bool;  (* true or unset *)
hover : bool;  (* true or unset *)
dirty : bool;  (* true or unset *)
activeAnchor : option Slot }.

Definition set_worldRect (v : Rect.t) (r : t) : t :=
mk v (worldFrom r) (worldTo r) (worldAnchors r) (active r) (hover r)
   (dirty r) (activeAnchor r).
Definition set_worldFrom (v : option Point.t) (r : t) : t :=
mk (worldRect r) v (worldTo r) (worldAnchors r) (active r) (hover r)
   (dirty r) (activeAnchor r).
Definition set_worldTo (v : option Point.t) (r : t) : t :=
mk (worldRect r) (worldFrom r) v (worldAnchors r) (active r) (hover r)
   (dirty r) (activeAnchor r).
Definition set_worldAnchors (v : option (list Point.t)) (r : t) : t :=
mk (worldRect r) (worldFrom r) (worldTo r) v (active r) (hover r)
   (dirty r) (activeAnchor r).
Definition set_active (v : bool) (r : t) : t :=
mk (worldRect r) (worldFrom r) (worldTo r) (worldAnchors r) v (hover r)
   (dirty r) (activeAnchor r).
Definition set_hover (v : bool) (r : t) : t :=
mk (worldRect r) (worldFrom r) (worldTo r) (worldAnchors r) (active r) v
   (dirty r) (activeAnchor r).
Definition set_dirty (v : bool) (r : t) : t :=
mk (worldRect r) (worldFrom r) (worldTo r) (worldAnchors r) (active r)
   (hover r) v (activeAnchor r).
Definition set_activeAnchor (v : option Slot) (r : t) : t :=
mk (worldRect r) (worldFrom r) (worldTo r) (worldAnchors r) (active r)
   (hover r) (dirty r) v.
End Calc.

Module Pen.
(** [TopologyPen] of [../pen], with the fields the canvas reads or writes. *)
Record t : Type := mk {
id : option string;
name : string;
x : R;
y : R;
width : R;
height : R;
rotate : option R;
type : option PenType;
parentId : option string;
locked : option LockState;
visible : option bool;
from : option Point.t;
to : option Point.t;
anchors : option (list Point.t);
calculative : Calc.t }.

Definition set_x (v : R) (r : t) : t :=
mk (id r) (name r) v (y r) (width r) (height r) (rotate r) (type r)
   (parentId r) (locked r) (visible r) (from r) (to r) (anchors r)
   (calculative r).
Definition set_y (v : R) (r : t) : t :=
mk (id r) (name r) (x r) v (width r) (height r) (rotate r) (type r)
   (parentId r) (locked r) (visible r) (from r) (to r) (anchors r)
   (calculative r).
Definition set_width (v : R) (r : t) : t :=
mk (id r) (name r) (x r) (y r) v (height r) (rotate r) (type r)
   (parentId r) (locked r) (visible r) (from r) (to r) (anchors r)
   (calculative r).
Definition set_height (v : R) (r : t) : t :=
mk (id r) (name r) (x r) (y r) (width r) v (rotate r) (type r)
   (parentId r) (locked r) (visible r) (from r) (to r) (anchors r)
   (calculative r).
Definition set_rotate (v : option R) (r : t) : t :=
mk (id r) (name r) (x r) (y r) (width r) (height r) v (type r)
   (parentId r) (locked r) (visible r) (from r) (to r) (anchors r)
   (calculative r).
Definition set_from (v : option Point.t) (r : t) : t :=
mk (id r) (name r) (x r) (y r) (width r) (height r) (rotate r) (type r)
   (parentId r) (locked r) (visible r) v (to r) (anchors r)
   (calculative r).
Definition set_to (v : option Point.t) (r : t) : t :=
mk (id r) (name r) (x r) (y r) (width r) (height r) (rotate r) (type r)
   (parentId r) (locked r) (visible r) (from r) v (anchors r)
   (calculative r).
Definition set_anchors (v : option (list Point.t)) (r : t) : t :=
mk (id r) (name r) (x r) (y r) (width r) (height r) (rotate r) (type r)
   (parentId r) (locked r) (visible r) (from r) (to r) v (calculative r).
Definition set_calculative (v : Calc.t) (r : t) : t :=
mk (id r) (name r) (x r) (y r) (width r) (height r) (rotate r) (type r)
   (parentId r) (locked r) (visible r) (from r) (to r) (anchors r) v.
End Pen.

(** ** The store and the canvas *)

(** [EditType] of [../store]; [Add] is the only member the canvas writes. *)
Inductive EditType := Add.

(** A record of [store.histories]; [data] is the pen, named by its position
    in [store.data.pens]. *)
Record History := mkHistory { history_type : EditType; history_data : nat }.

(** What [store.emitter.emit] is given besides the event name. *)
Inductive Payload :=
  | OfPens (pens : list nat)
  | OfPen (pen : nat)
  | OfNumber (n : R).

Record Event := mkEvent { event_name : string; event_payload : Payload }.

(** What [render] asks of the browser. *)
Inductive Effect :=
  | Redraw (now : R)       (* both buffers repainted at time [now] *)
  | RequestFrame.          (* requestAnimationFrame(this.render) *)

(** [this.activeRect] is either the very object [calculative.worldRect] of
    a pen (after [calcActiveRect] on a single selection) or a rectangle of
    its own. *)
Inductive RectRef :=
  | RectOfPen (i : nat)
  | RectOwn (r : Rect.t).

(** The pointer sample the handlers receive. *)
Record MouseEvent := mkMouseEvent {
  ev_x : R;
  ev_y : R;
  ev_ctrlKey : bool;
  ev_shiftKey : bool;
  ev_altKey : bool }.

Module Store.
(** [TopologyStore] of [../store]; [store.data] and [store.options] are
  flattened into it. *)
Record t : Type := mk {
pens : list Pen.t;  (* store.data.pens, in z-order *)
data_x : R;
data_y : R;
data_scale : R;
data_center : option Point.t;
data_locked : option LockState;
pens_by_id : gmap string nat;  (* store.pens *)
active : list nat;
hover : option nat;
lastHover : option nat;
anchor : option (nat * Slot);
pointAt : option Point.t;
pointAtIndex : option nat;
minScale : R;  (* options *)
maxScale : R;  (* options *)
interval : R;  (* options *)
disableRotate : bool;  (* options *)
disableAnchor : bool;  (* options *)
hoverCursor : option string;  (* options *)
histories : list History;
emitted : list Event;  (* emitter, newest first *)
animate_size : nat }.  (* store.animate.size *)

Definition set_pens (v : list Pen.t) (r : t) : t :=
mk v (data_x r) (data_y r) (data_scale r) (data_center r)
   (data_locked r) (pens_by_id r) (active r) (hover r) (lastHover r)
   (anchor r) (pointAt r) (pointAtIndex r) (minScale r) (maxScale r)
   (interval r) (disableRotate r) (disableAnchor r) (hoverCursor r)
   (histories r) (emitted r) (animate_size r).
Definition set_data_scale (v : R) (r : t) : t :=
mk (pens r) (data_x r) (data_y r) v (data_center r) (data_locked r)
   (pens_by_id r) (active r) (hover r) (lastHover r) (anchor r)
   (pointAt r) (pointAtIndex r) (minScale r) (maxScale r) (interval r)
   (disableRotate r) (disableAnchor r) (hoverCursor r) (histories r)
   (emitted r) (animate_size r).
Definition set_data_center (v : option Point.t) (r : t) : t :=
mk (pens r) (data_x r) (data_y r) (data_scale r) v (data_locked r)
   (pens_by_id r) (active r) (hover r) (lastHover r) (anchor r)
   (pointAt r) (pointAtIndex r) (minScale r) (maxScale r) (interval r)
   (disableRotate r) (disableAnchor r) (hoverCursor r) (histories r)
   (emitted r) (animate_size r).
Definition set_pens_by_id (v : gmap string nat) (r : t) : t :=
mk (pens r) (data_x r) (data_y r) (data_scale r) (data_center r)
   (data_locked r) v (active r) (hover r) (lastHover r) (anchor r)
   (pointAt r) (pointAtIndex r) (minScale r) (maxScale r) (interval r)
   (disableRotate r) (disableAnchor r) (hoverCursor r) (histories r)
   (emitted r) (animate_size r).
Definition set_active (v : list nat) (r : t) : t :=
mk (pens r) (data_x r) (data_y r) (data_scale r) (data_center r)
   (data_locked r) (pens_by_id r) v (hover r) (lastHover r) (anchor r)
   (pointAt r) (pointAtIndex r) (minScale r) (maxScale r) (interval r)
   (disableRotate r) (disableAnchor r) (hoverCursor r) (histories r)
   (emitted r) (animate_size r).
Definition set_hover (v : option nat) (r : t) : t :=
mk (pens r) (data_x r) (data_y r) (data_scale r) (data_center r)
   (data_locked r) (pens_by_id r) (active r) v (lastHover r) (anchor r)
   (pointAt r) (pointAtIndex r) (minScale r) (maxScale r) (interval r)
   (disableRotate r) (disableAnchor r) (hoverCursor r) (histories r)
   (emitted r) (animate_size r).
Definition set_lastHover (v : option nat) (r : t) : t :=
mk (pens r) (data_x r) (data_y r) (data_scale r) (data_center r)
   (data_locked r) (pens_by_id r) (active r) (hover r) v (anchor r)
   (pointAt r) (pointAtIndex r) (minScale r) (maxScale r) (interval r)
   (disableRotate r) (disableAnchor r) (hoverCursor r) (histories r)
   (emitted r) (animate_size r).
Definition set_anchor (v : option (nat * Slot)) (r : t) : t :=
mk (pens r) (data_x r) (data_y r) (data_scale r) (data_center r)
   (data_locked r) (pens_by_id r) (active r) (hover r) (lastHover r) v
   (pointAt r) (pointAtIndex r) (minScale r) (maxScale r) (interval r)
   (disableRotate r) (disableAnchor r) (hoverCursor r) (histories r)
   (emitted r) (animate_size r).
Definition set_pointAt (v : option Point.t) (r : t) : t :=
mk (pens r) (data_x r) (data_y r) (data_scale r) (data_center r)
   (data_locked r) (pens_by_id r) (active r) (hover r) (lastHover r)
   (anchor r) v (pointAtIndex r) (minScale r) (maxScale r) (interval r)
   (disableRotate r) (disableAnchor r) (hoverCursor r) (histories r)
   (emitted r) (animate_size r).
Definition set_pointAtIndex (v : option nat) (r : t) : t :=
mk (pens r) (data_x r) (data_y r) (data_scale r) (data_center r)
   (data_locked r) (pens_by_id r) (active r) (hover r) (lastHover r)
   (anchor r) (pointAt r) v (minScale r) (maxScale r) (interval r)
   (disableRotate r) (disableAnchor r) (hoverCursor r) (histories r)
   (emitted r) (animate_size r).
Definition set_histories (v : list History) (r : t) : t :=
mk (pens r) (data_x r) (data_y r) (data_scale r) (data_center r)
   (data_locked r) (pens_by_id r) (active r) (hover r) (lastHover r)
   (anchor r) (pointAt r) (pointAtIndex r) (minScale r) (maxScale r)
   (interval r) (disableRotate r) (disableAnchor r) (hoverCursor r) v
   (emitted r) (animate_size r).
Definition set_emitted (v : list Event) (r : t) : t :=
mk (pens r) (data_x r) (data_y r) (data_scale r) (data_center r)
   (data_locked r) (pens_by_id r) (active r) (hover r) (lastHover r)
   (anchor r) (pointAt r) (pointAtIndex r) (minScale r) (maxScale r)
   (interval r) (disableRotate r) (disableAnchor r) (hoverCursor r)
   (histories r) v (animate_size r).
End Store.

Module Canvas.
(** The mutable fields of [class Canvas]. *)
Record t : Type := mk {
store : Store.t;
activeRect : option RectRef;
lastRotate : R;
sizeCPs : option (list Point.t);
activeInitPos : list Point.t;
hoverType : HoverType;
resizeIndex : nat;
mouseDown : option MouseEvent;
hotkeyType : HotkeyType;
lastOffsetX : R;
lastOffsetY : R;
drawingLineName : option string;
drawingLine : option Pen.t;
prevAnchor : option Point.t;
nextAnchor : option Point.t;
dirty : bool;
lastRender : R;
pointSize : R;
beforeAddPen : option (Pen.t -> bool);
cursor : option string;  (* externalElements.style.cursor *)
effects : list Effect }.  (* newest first *)

Definition set_store (v : Store.t) (r : t) : t :=
mk v (activeRect r) (lastRotate r) (sizeCPs r) (activeInitPos r)
   (hoverType r) (resizeIndex r) (mouseDown r) (hotkeyType r)
   (lastOffsetX r) (lastOffsetY r) (drawingLineName r) (drawingLine r)
   (prevAnchor r) (nextAnchor r) (dirty r) (lastRender r) (pointSize r)
   (beforeAddPen r) (cursor r) (effects r).
Definition set_activeRect (v : option RectRef) (r : t) : t :=
mk (store r) v (lastRotate r) (sizeCPs r) (activeInitPos r)
   (hoverType r) (resizeIndex r) (mouseDown r) (hotkeyType r)
   (lastOffsetX r) (lastOffsetY r) (drawingLineName r) (drawingLine r)
   (prevAnchor r) (nextAnchor r) (dirty r) (lastRender r) (pointSize r)
   (beforeAddPen r) (cursor r) (effects r).
Definition set_lastRotate (v : R) (r : t) : t :=
mk (store r) (activeRect r) v (sizeCPs r) (activeInitPos r)
   (hoverType r) (resizeIndex r) (mouseDown r) (hotkeyType r)
   (lastOffsetX r) (lastOffsetY r) (drawingLineName r) (drawingLine r)
   (prevAnchor r) (nextAnchor r) (dirty r) (lastRender r) (pointSize r)
   (beforeAddPen r) (cursor r) (effects r).
Definition set_sizeCPs (v : option (list Point.t)) (r : t) : t :=
mk (store r) (activeRect r) (lastRotate r) v (activeInitPos r)
   (hoverType r) (resizeIndex r) (mouseDown r) (hotkeyType r)
   (lastOffsetX r) (lastOffsetY r) (drawingLineName r) (drawingLine r)
   (prevAnchor r) (nextAnchor r) (dirty r) (lastRender r) (pointSize r)
   (beforeAddPen r) (cursor r) (effects r).
Definition set_activeInitPos (v : list Point.t) (r : t) : t :=
mk (store r) (activeRect r) (lastRotate r) (sizeCPs r) v (hoverType r)
   (resizeIndex r) (mouseDown r) (hotkeyType r) (lastOffsetX r)
   (lastOffsetY r) (drawingLineName r) (drawingLine r) (prevAnchor r)
   (nextAnchor r) (dirty r) (lastRender r) (pointSize r)
   (beforeAddPen r) (cursor r) (effects r).
Definition set_hoverType (v : HoverType) (r : t) : t :=
mk (store r) (activeRect r) (lastRotate r) (sizeCPs r) (activeInitPos r)
   v (resizeIndex r) (mouseDown r) (hotkeyType r) (lastOffsetX r)
   (lastOffsetY r) (drawingLineName r) (drawingLine r) (prevAnchor r)
   (nextAnchor r) (dirty r) (lastRender r) (pointSize r)
   (beforeAddPen r) (cursor r) (effects r).
Definition set_resizeIndex (v : nat) (r : t) : t :=
mk (store r) (activeRect r) (lastRotate r) (sizeCPs r) (activeInitPos r)
   (hoverType r) v (mouseDown r) (hotkeyType r) (lastOffsetX r)
   (lastOffsetY r) (drawingLineName r) (drawingLine r) (prevAnchor r)
   (nextAnchor r) (dirty r) (lastRender r) (pointSize r)
   (beforeAddPen r) (cursor r) (effects r).
Definition set_lastOffsetX (v : R) (r : t) : t :=
mk (store r) (activeRect r) (lastRotate r) (sizeCPs r) (activeInitPos r)
   (hoverType r) (resizeIndex r) (mouseDown r) (hotkeyType r) v
   (lastOffsetY r) (drawingLineName r) (drawingLine r) (prevAnchor r)
   (nextAnchor r) (dirty r) (lastRender r) (pointSize r)
   (beforeAddPen r) (cursor r) (effects r).
Definition set_lastOffsetY (v : R) (r : t) : t :=
mk (store r) (activeRect r) (lastRotate r) (sizeCPs r) (activeInitPos r)
   (hoverType r) (resizeIndex r) (mouseDown r) (hotkeyType r)
   (lastOffsetX r) v (drawingLineName r) (drawingLine r) (prevAnchor r)
   (nextAnchor r) (dirty r) (lastRender r) (pointSize r)
   (beforeAddPen r) (cursor r) (effects r).
Definition set_drawingLine (v : option Pen.t) (r : t) : t :=
mk (store r) (activeRect r) (lastRotate r) (sizeCPs r) (activeInitPos r)
   (hoverType r) (resizeIndex r) (mouseDown r) (hotkeyType r)
   (lastOffsetX r) (lastOffsetY r) (drawingLineName r) v (prevAnchor r)
   (nextAnchor r) (dirty r) (lastRender r) (pointSize r)
   (beforeAddPen r) (cursor r) (effects r).
Definition set_prevAnchor (v : option Point.t) (r : t) : t :=
mk (store r) (activeRect r) (lastRotate r) (sizeCPs r) (activeInitPos r)
   (hoverType r) (resizeIndex r) (mouseDown r) (hotkeyType r)
   (lastOffsetX r) (lastOffsetY r) (drawingLineName r) (drawingLine r) v
   (nextAnchor r) (dirty r) (lastRender r) (pointSize r)
   (beforeAddPen r) (cursor r) (effects r).
Definition set_nextAnchor (v : option Point.t) (r : t) : t :=
mk (store r) (activeRect r) (lastRotate r) (sizeCPs r) (activeInitPos r)
   (hoverType r) (resizeIndex r) (mouseDown r) (hotkeyType r)
   (lastOffsetX r) (lastOffsetY r) (drawingLineName r) (drawingLine r)
   (prevAnchor r) v (dirty r) (lastRender r) (pointSize r)
   (beforeAddPen r) (cursor r) (effects r).
Definition set_dirty (v : bool) (r : t) : t :=
mk (store r) (activeRect r) (lastRotate r) (sizeCPs r) (activeInitPos r)
   (hoverType r) (resizeIndex r) (mouseDown r) (hotkeyType r)
   (lastOffsetX r) (lastOffsetY r) (drawingLineName r) (drawingLine r)
   (prevAnchor r) (nextAnchor r) v (lastRender r) (pointSize r)
   (beforeAddPen r) (cursor r) (effects r).
Definition set_lastRender (v : R) (r : t) : t :=
mk (store r) (activeRect r) (lastRotate r) (sizeCPs r) (activeInitPos r)
   (hoverType r) (resizeIndex r) (mouseDown r) (hotkeyType r)
   (lastOffsetX r) (lastOffsetY r) (drawingLineName r) (drawingLine r)
   (prevAnchor r) (nextAnchor r) (dirty r) v (pointSize r)
   (beforeAddPen r) (cursor r) (effects r).
Definition set_cursor (v : option string) (r : t) : t :=
mk (store r) (activeRect r) (lastRotate r) (sizeCPs r) (activeInitPos r)
   (hoverType r) (resizeIndex r) (mouseDown r) (hotkeyType r)
   (lastOffsetX r) (lastOffsetY r) (drawingLineName r) (drawingLine r)
   (prevAnchor r) (nextAnchor r) (dirty r) (lastRender r) (pointSize r)
   (beforeAddPen r) v (effects r).
Definition set_effects (v : list Effect) (r : t) : t :=
mk (store r) (activeRect r) (lastRotate r) (sizeCPs r) (activeInitPos r)
   (hoverType r) (resizeIndex r) (mouseDown r) (hotkeyType r)
   (lastOffsetX r) (lastOffsetY r) (drawingLineName r) (drawingLine r)
   (prevAnchor r) (nextAnchor r) (dirty r) (lastRender r) (pointSize r)
   (beforeAddPen r) (cursor r) v.
End Canvas.

#[global] Instance Slot_eq_dec : EqDecision Slot.
Proof. solve_decision. Defined.

(** ** Collaborators

    Functions the canvas imports from [../point], [../rect], [../pen],
    [../data] and [../common-diagram] and of which only the call is known.
    Every definition below is parameterised by them, so what is proved holds
    whatever they compute. *)
Class Helpers := {
  (** [hitPoint(pt, target, radius)]: is [pt] within [radius] of [target]. *)
  hitPoint : Point.t -> Point.t -> R -> bool;
  (** [pointInRect(pt, rect)]; the canvas may hand it an unset rect. *)
  pointInRect : Point.t -> option Rect.t -> bool;
  (** [pointInLine(pt, pen)]: the segment index [i] and the nearest [point]
      on the line, when [pt] is near it. *)
  pointInLine : Point.t -> Pen.t -> option (nat * Point.t);
  (** [calcRotate(pt, center)]: the angle of [pt] about [center], degrees. *)
  calcRotate : Point.t -> Point.t -> R;
  (** [getRect(pens)]: the union of the world rects, as a fresh rect. *)
  getRect : list Pen.t -> Rect.t;
  (** [getLineRect(pen)]: the bounding box of a line, as a fresh rect. *)
  getLineRect : Pen.t -> Rect.t;
  (** [calcRelativePoint(pt, worldRect)]: [pt] relative to the rect. *)
  calcRelativePoint : Point.t -> Rect.t -> Point.t;
  (** [calcWorldRects(store.pens, pen)]: the rect it stores, fresh, in
      [pen.calculative.worldRect]; the first argument looks a pen up by id. *)
  calcWorldRects : (string -> option Pen.t) -> Pen.t -> Rect.t;
  (** [calcWorldAnchors(pen)]: what it stores in
      [pen.calculative.worldAnchors]. *)
  calcWorldAnchors : Pen.t -> option (list Point.t);
  (** [scalePen(pen, s, center)]: the pen after scaling. *)
  scalePen : Pen.t -> R -> Point.t -> Pen.t;
  (** [translateLine(pen, x, y)]: the line after the move. *)
  translateLine : Pen.t -> R -> R -> Pen.t;
  (** [this[name]]: the line-drawing function registered under [name], as
      the drawing line it leaves, given the optional pointer sample. *)
  drawLineFn : string -> option (Pen.t -> option Point.t -> Pen.t);
  (** The cursor tables [defaultCursors] and [rotatedCursors]. *)
  defaultCursors : list string;
  rotatedCursors : list string }.

(** ** Reading and writing through references *)

Module Pen_ops.
(** The anchor object a pen holds in a slot. *)
Definition anchorAt (p : Pen.t) (s : Slot) : option Point.t :=
match s with
| SlotFrom => Calc.worldFrom (Pen.calculative p)
| SlotTo => Calc.worldTo (Pen.calculative p)
| SlotAnchor k => l ← Calc.worldAnchors (Pen.calculative p); l !! k
end.

Definition alterCalc (f : Calc.t -> Calc.t) (p : Pen.t) : Pen.t :=
Pen.set_calculative (f (Pen.calculative p)) p.

(** A write into the anchor object of a slot. *)
Definition alterAnchor (f : Point.t -> Point.t) (s : Slot) (p : Pen.t)
: Pen.t :=
match s with
| SlotFrom =>
    alterCalc (fun c => Calc.set_worldFrom (f <$> Calc.worldFrom c) c) p
| SlotTo =>
    alterCalc (fun c => Calc.set_worldTo (f <$> Calc.worldTo c) c) p
| SlotAnchor k =>
    alterCalc
      (fun c => Calc.set_worldAnchors (alter f k <$> Calc.worldAnchors c) c)
      p
end.

(** [pen.type] is truthy. *)
Definition isLine (p : Pen.t) : bool :=
match Pen.type p with Some Line => true | _ => false end.

(** [pen.from.connectTo || pen.to.connectTo]; a line without [from] or
  [to] raises. *)
Definition connected (p : Pen.t) : option bool :=
f ← Pen.from p;
if JS.truthy_str (Point.connectTo f) then Some true
else t ← Pen.to p; Some (JS.truthy_str (Point.connectTo t)).

(** [translateRect(pen, x, y)] on a pen: its logical position moves. *)
Definition translateRect (p : Pen.t) (dx dy : R) : Pen.t :=
Pen.set_y (Pen.y p + dy) (Pen.set_x (Pen.x p + dx) p).
End Pen_ops.

Definition pensOf (c : Canvas.t) : list Pen.t := Store.pens (Canvas.store c).

Definition alterStore (f : Store.t -> Store.t) (c : Canvas.t) : Canvas.t :=
  Canvas.set_store (f (Canvas.store c)) c.

(** A write into the pen object at position [i] of [store.data.pens]. *)
Definition alterPen (f : Pen.t -> Pen.t) (i : nat) (c : Canvas.t) : Canvas.t :=
  alterStore (fun s => Store.set_pens (alter f i (Store.pens s)) s) c.

(** [store.emitter.emit(name, payload)]. *)
Definition emit (name : string) (payload : Payload) (c : Canvas.t) : Canvas.t :=
  alterStore (fun s => Store.set_emitted (mkEvent name payload :: Store.emitted s) s) c.

(** The rect object [this.activeRect] refers to. *)
Definition getActiveRect (c : Canvas.t) : option Rect.t :=
  match Canvas.activeRect c with
  | None => None
  | Some (RectOwn r) => Some r
  | Some (RectOfPen i) =>
      p ← pensOf c !! i; Some (Calc.worldRect (Pen.calculative p))
  end.

(** A write into the rect object [this.activeRect] refers to; a pen whose
    world rect is that object sees it. *)
Definition modActiveRect (f : Rect.t -> Rect.t) (c : Canvas.t) : Canvas.t :=
  match Canvas.activeRect c with
  | None => c
  | Some (RectOwn r) => Canvas.set_activeRect (Some (RectOwn (f r))) c
  | Some (RectOfPen i) =>
      alterPen
        (Pen_ops.alterCalc (fun k => Calc.set_worldRect (f (Calc.worldRect k)) k))
        i c
  end.

(** Pen [i] is about to be given a fresh world rect: if [this.activeRect]
    was its old one, the canvas keeps the old object. *)
Definition detachActiveRect (i : nat) (c : Canvas.t) : Canvas.t :=
  match Canvas.activeRect c with
  | Some (RectOfPen j) =>
      if bool_decide (i = j)
      then Canvas.set_activeRect (RectOwn <$> getActiveRect c) c
      else c
  | _ => c
  end.

(** [store.pens[id]]. *)
Definition penById (c : Canvas.t) (id : string) : option Pen.t :=
  i ← Store.pens_by_id (Canvas.store c) !! id; pensOf c !! i.

(** ** Arithmetic of the cursor tables *)

Module JSMath.
(** Truncation towards zero, which [%] uses. *)
Definition trunc (x : R) : Z :=
if bool_decide (0 <= x)%R then Int_part x else (- Int_part (- x))%Z.

(** [a % b] on numbers. *)
Definition rem (a b : R) : R := (a - b * IZR (trunc (a / b)))%R.

(** [Math.round]. *)
Definition round (x : R) : Z := Int_part (x + / 2)%R.
End JSMath.

(** The cursor of the rotate handle, [url('rotate.cur'), auto], with double quotes. *)
Definition rotateCursor : string :=
  let q := String "034"%char EmptyString in
  ("url(" +:+ q +:+ "rotate.cur" +:+ q +:+ "), auto")%string.

(** ** The methods of the canvas *)

Section Methods.
Context `{H : Helpers}.

(** *** Selection geometry *)

(** The four edge midpoints [getSizeCPs] builds, before it rotates them:
  top, right, bottom, left. *)
Definition edgeMidpoints (r : Rect.t) : list Point.t :=
[ Point.at_ (Rect.x r + Rect.width r * 0.5) (Rect.y r);
  Point.at_ (Rect.ex r) (Rect.y r + Rect.height r * 0.5);
  Point.at_ (Rect.x r + Rect.width r * 0.5) (Rect.ey r);
  Point.at_ (Rect.x r) (Rect.y r + Rect.height r * 0.5) ]%R.

(** The value [getSizeCPs] leaves in [this.sizeCPs]: [rectToPoints], then
  each midpoint pushed after [rotatePoint]. *)
Definition sizeCPsOf (r : Rect.t) : list Point.t :=
Geometry.rectToPoints r
++ map (fun pt => Geometry.rotatePoint pt (Rect.rotate r) (Rect.center r))
     (edgeMidpoints r).

(** [getSizeCPs()]; an unset [activeRect] raises. *)
Definition getSizeCPs (c : Canvas.t) : option Canvas.t :=
r ← getActiveRect c;
Some (Canvas.set_sizeCPs (Some (sizeCPsOf r)) c).

(** [calcActiveRect()]. *)
Definition calcActiveRect (c : Canvas.t) : option Canvas.t :=
c1 ← match Store.active (Canvas.store c) with
     | [i] =>
         p ← pensOf c !! i;
         Some (modActiveRect
                 (fun r => Geometry.calcCenter (Rect.set_rotate (Pen.rotate p) r))
                 (Canvas.set_activeRect (Some (RectOfPen i)) c))
     | l =>
         ps ← mapM (fun i => pensOf c !! i) l;
         Some (Canvas.set_activeRect
                 (Some (RectOwn (Rect.set_rotate (Some 0%R) (getRect ps)))) c)
     end;
getSizeCPs (Canvas.set_lastRotate 0%R c1).

(** *** Render scheduler *)

(** The argument of [render]: none, the [Infinity] sentinel, or a time
  stamp (the one [requestAnimationFrame] passes). *)
Inductive RenderArg := NoArg | Forced | Stamp (t : R).

(** [render(now)]; [clock] is what [performance.now()] returns during the
  call.  Painting the two buffers is the effect [Redraw]. *)
Definition render (arg : RenderArg) (clock : R) (c : Canvas.t) : Canvas.t :=
let c1 := match arg with Forced => Canvas.set_dirty true c | _ => c end in
if negb (Canvas.dirty c1) then c1
else
  let now := match arg with Stamp t => t | _ => clock end in
  if bool_decide (now - Canvas.lastRender c1 < Store.interval (Canvas.store c1))%R
  then Canvas.set_effects (RequestFrame :: Canvas.effects c1) c1
  else
    let c2 := Canvas.set_lastRender now c1 in
    let c3 := Canvas.set_effects (Redraw now :: Canvas.effects c2) c2 in
    let c4 := Canvas.set_dirty false c3 in
    if bool_decide (Store.animate_size (Canvas.store c4) = 0)
    then c4
    else Canvas.set_effects (RequestFrame :: Canvas.effects c4) c4.

(** *** Selection *)

Definition clearActiveFlags (c : Canvas.t) : Canvas.t :=
foldl (fun c i => alterPen (Pen_ops.alterCalc (Calc.set_active false)) i c)
  c (Store.active (Canvas.store c)).

(** [inactive(drawing)]. *)
Definition inactive (drawing : bool) (c : Canvas.t) : Canvas.t :=
match Store.active (Canvas.store c) with
| [] => c
| act =>
    let c1 := clearActiveFlags c in
    let c2 := if drawing then c1 else emit "inactive" (OfPens act) c1 in
    let c3 := alterStore (Store.set_active []) c2 in
    Canvas.set_dirty true
      (Canvas.set_sizeCPs None (Canvas.set_activeRect None c3))
end.

(** [active(pens)]. *)
Definition active (pens : list nat) (c : Canvas.t) : option Canvas.t :=
let c1 := clearActiveFlags c in
let c2 := alterStore (Store.set_active []) c1 in
let c3 :=
  foldl (fun c i => alterPen (Pen_ops.alterCalc (Calc.set_active true)) i c)
    c2 pens in
let c4 := alterStore (fun s => Store.set_active (Store.active s ++ pens) s) c3 in
c5 ← calcActiveRect c4;
let c6 := Canvas.set_dirty true c5 in
Some (emit "active" (OfPens (Store.active (Canvas.store c6))) c6).

(** *** Derived rects of a pen

  The path cache ([store.path2dMap], [store.penPaths]) and the icon and
  text rects only feed the painting of a pen and are left out. *)

(** [dirtyPenRect(pen)] for the pen at position [i]. *)
Definition dirtyPenRect (i : nat) (c : Canvas.t) : Canvas.t :=
match pensOf c !! i with
| None => c
| Some p =>
    let rect := calcWorldRects (penById c) p in
    let c1 := detachActiveRect i c in
    let p1 := Pen_ops.alterCalc (Calc.set_worldRect rect) p in
    let p2 := Pen_ops.alterCalc (Calc.set_worldAnchors (calcWorldAnchors p1)) p1 in
    Canvas.set_dirty true (alterPen (fun _ => p2) i c1)
end.

(** [initLineRect(pen)] on a pen object; a line without [worldFrom] or
  [worldTo] raises inside [calcRelativePoint]. *)
Definition initLineRect_pen (p : Pen.t) : option Pen.t :=
let rect := getLineRect p in
let p1 := Pen.set_height (Rect.height rect)
            (Pen.set_width (Rect.width rect)
               (Pen.set_y (Rect.y rect) (Pen.set_x (Rect.x rect) p))) in
let p2 := Pen_ops.alterCalc (Calc.set_worldRect rect) p1 in
wf ← Calc.worldFrom (Pen.calculative p2);
let p3 := Pen.set_from (Some (calcRelativePoint wf rect)) p2 in
wt ← Calc.worldTo (Pen.calculative p3);
let p4 := Pen.set_to (Some (calcRelativePoint wt rect)) p3 in
let p5 :=
  match Calc.worldAnchors (Pen.calculative p4) with
  | Some l => Pen.set_anchors (Some (map (fun pt => calcRelativePoint pt rect) l)) p4
  | None => p4
  end in
Some (Pen_ops.alterCalc (Calc.set_dirty false) p5).

(** [initLineRect(pen)] for the pen at position [i]. *)
Definition initLineRect (i : nat) (c : Canvas.t) : option Canvas.t :=
p ← pensOf c !! i;
p' ← initLineRect_pen p;
Some (alterPen (fun _ => p') i (detachActiveRect i c)).

(** *** Line drawing *)

(** What [drawline(mouse)] does to the drawing-line object. *)
Definition drawline_pen (name : option string) (mouse : option Point.t)
  (p : Pen.t) : Pen.t :=
let p1 := Pen_ops.alterCalc (Calc.set_active true) p in
match name ≫= drawLineFn with
| Some f => f p1 mouse
| None => p1
end.

(** [drawline(mouse)]. *)
Definition drawline (mouse : option Point.t) (c : Canvas.t) : Canvas.t :=
match Canvas.drawingLine c with
| None => c
| Some dl =>
    Canvas.set_dirty true
      (Canvas.set_drawingLine
         (Some (drawline_pen (Canvas.drawingLineName c) mouse dl)) c)
end.

(** [worldTo && worldTo.connectTo]. *)
Definition toConnected (p : Pen.t) : bool :=
match Calc.worldTo (Pen.calculative p) with
| Some t => JS.truthy_str (Point.connectTo t)
| None => false
end.

(** The guarded block of [finishDrawline]: the last committed anchor
  becomes [worldTo], losing a [connectTo] that names the line itself.
  [Some None] is the line without a committed anchor; reading [length]
  of unset [worldAnchors] raises. *)
Definition popWorldTo (dl : Pen.t) : option (option Pen.t) :=
l ← Calc.worldAnchors (Pen.calculative dl);
match last l with
| None => Some None
| Some a =>
    let a' := if bool_decide (Point.connectTo a = Pen.id dl)
              then Point.set_connectTo None a else a in
    Some (Some (Pen_ops.alterCalc
                  (fun k => Calc.set_worldTo (Some a')
                              (Calc.set_worldAnchors (Some (removelast l)) k))
                  dl))
end.

(** [!this.beforeAddPen || this.beforeAddPen(pen)]. *)
Definition accepts (c : Canvas.t) (p : Pen.t) : bool :=
match Canvas.beforeAddPen c with
| None => true
| Some f => f p
end.

(** The head of [finishDrawline]: the line takes the rect of
  [getLineRect], the guarded block pops its last anchor, and [activeAnchor]
  follows [worldTo].  [Some None] is the line that is dropped. *)
Definition closeLine (end_ : bool) (dl : Pen.t) : option (option Pen.t) :=
let rect := getLineRect dl in
let dl1 :=
  Pen_ops.alterCalc (Calc.set_worldRect rect)
    (Pen.set_height (Rect.height rect)
       (Pen.set_width (Rect.width rect)
          (Pen.set_y (Rect.y rect) (Pen.set_x (Rect.x rect) dl)))) in
match (if negb end_ && negb (toConnected dl1)
       then popWorldTo dl1 else Some (Some dl1)) with
| None => None
| Some kept =>
    Some (Pen_ops.alterCalc
            (fun k => Calc.set_activeAnchor
                        (if JS.is_some (Calc.worldTo k) then Some SlotTo else None) k)
            <$> kept)
end.

(** The block of [finishDrawline] that stores the line [dl]; afterwards the
  drawing line is the pen at the end of [store.data.pens], and the closing
  [drawline()] writes to that pen. *)
Definition addLine (dl : Pen.t) (c : Canvas.t) : option Canvas.t :=
dl' ← initLineRect_pen dl;
let n := length (pensOf c) in
let c1 :=
  alterStore
    (fun s =>
       Store.set_pens_by_id
         (<[default "undefined" (Pen.id dl') := n]> (Store.pens_by_id s))
         (Store.set_pens (Store.pens s ++ [dl']) s))
    c in
let c2 := emit "addPen" (OfPen n) c1 in
c3 ← active [n] c2;
let c4 :=
  alterStore
    (fun s => Store.set_histories (Store.histories s ++ [mkHistory Add n]) s)
    c3 in
Some (Canvas.set_dirty true
        (alterPen (drawline_pen (Canvas.drawingLineName c4) None) n c4)).

(** [finishDrawline(end)]. *)
Definition finishDrawline (end_ : bool) (clock : R) (c : Canvas.t)
: option Canvas.t :=
match Canvas.drawingLine c with
| None =>
    Some (Canvas.set_drawingLine None (render NoArg clock (drawline None c)))
| Some dl =>
    closed ← closeLine end_ dl;
    match closed with
    | None =>
        Some (render Forced clock (Canvas.set_drawingLine None c))
    | Some dl' =>
        c1 ← (if accepts c dl' then addLine dl' c
              else Some (Canvas.set_dirty true c));
        Some (Canvas.set_drawingLine None (render NoArg clock c1))
    end
end.
(** *** Hit-test resolver *)

(** [cursors[k]], undefined outside the table. *)
Definition tableAt (cursors : list string) (k : Z) : option string :=
if bool_decide (k < 0)%Z then None else cursors !! Z.to_nat k.

(** The test [Math.abs((rotate % 90) - 45) < 25]. *)
Definition nearDiagonal (r : R) : bool :=
bool_decide (Rabs (JSMath.rem r 90 - 45) < 25)%R.

(** The cursor given to a corner handle; with [rotate] unset the index is
  [NaN] and the table yields [undefined]. *)
Definition cornerCursor (i : nat) (rotate : option R) : option string :=
r ← rotate;
if nearDiagonal r
then tableAt rotatedCursors
       (Z.rem (Z.of_nat i + JSMath.round ((r - 45) / 90)) 4)
else tableAt defaultCursors (Z.rem (Z.of_nat i + JSMath.round (r / 90)) 4).

(** The cursor given to an edge handle. *)
Definition edgeCursor (i : nat) (rotate : option R) : option string :=
r ← rotate;
if nearDiagonal r
then tableAt defaultCursors
       (Z.rem (Z.of_nat i + (JSMath.round ((r - 45) / 90) + 1)) 4)
else tableAt rotatedCursors (Z.rem (Z.of_nat i + JSMath.round (r / 90)) 4).

(** [hitPoint(pt, this.sizeCPs[i], this.pointSize)]; a missing control
  point raises. *)
Definition hitCP (pt : Point.t) (i : nat) (c : Canvas.t) : option bool :=
cps ← Canvas.sizeCPs c;
cp ← cps !! i;
Some (hitPoint pt cp (Canvas.pointSize c)).

(** The first index of [idxs] whose control point is hit: the [for] loops
  over the handles, which [break] at the first hit. *)
Fixpoint firstHit (pt : Point.t) (c : Canvas.t) (idxs : list nat)
: option (option nat) :=
match idxs with
| [] => Some None
| i :: rest =>
    match hitCP pt i c with
    | None => None
    | Some true => Some (Some i)
    | Some false => firstHit pt c rest
    end
end.

(** The position of the rotate handle. *)
Definition rotateHandle (r : Rect.t) : Point.t :=
let rotatePt := Point.at_ (Point.x (Rect.center r)) (Rect.y r - 30)%R in
if JS.truthy_num (Rect.rotate r)
then Geometry.rotatePoint rotatePt (Rect.rotate r) (Rect.center r)
else rotatePt.

(** The body of [if (!this.drawingLineName && this.activeRect &&
  !activeLine && !this.store.data.locked)]: rotate handle, corner
  handles, edge handles, each overwriting the classification of the one
  before. *)
Definition hoverHandles (pt : Point.t) (r : Rect.t) (c : Canvas.t)
: option (HoverType * Canvas.t) :=
let hk := Canvas.hotkeyType c in
let '(h0, c0) :=
  if negb (Store.disableRotate (Canvas.store c))
     && hotkey_eqb hk HotkeyNone
     && hitPoint pt (rotateHandle r) (Canvas.pointSize c)
  then (HoverRotate, Canvas.set_cursor (Some rotateCursor) c)
  else (HoverNone, c) in
'(h1, c1) ←
  (if hotkey_eqb hk HotkeyNone || hotkey_eqb hk HotkeyResize
   then
     o ← firstHit pt c0 (seq 0 4);
     match o with
     | Some i =>
         Some (HoverResize,
               Canvas.set_cursor (cornerCursor i (Rect.rotate r))
                 (Canvas.set_resizeIndex i c0))
     | None => Some (h0, c0)
     end
   else Some (h0, c0));
if hotkey_eqb hk HotkeyResize
then
  o ← firstHit pt c1 (seq 4 4);
  match o with
  | Some i =>
      Some (HoverResize,
            Canvas.set_cursor (edgeCursor i (Rect.rotate r))
              (Canvas.set_resizeIndex i c1))
  | None => Some (h1, c1)
  end
else Some (h1, c1).

(** [store.anchor = anchor; store.hover = pen; cursor = 'pointer']. *)
Definition takeAnchor (i : nat) (s : Slot) (cursor : string) (c : Canvas.t)
: Canvas.t :=
Canvas.set_cursor (Some cursor)
  (alterStore
     (fun st => Store.set_hover (Some i) (Store.set_anchor (Some (i, s)) st))
     c).

Definition hitHandle (pt : Point.t) (h : option Point.t) (c : Canvas.t) : bool :=
match h with
| Some q => hitPoint pt q (Canvas.pointSize c)
| None => false
end.

(** [inAnchor(pt, pen, anchor)] for the pen at position [i] and the anchor
  it holds in slot [s]. *)
Definition inAnchor (pt : Point.t) (i : nat) (s : Slot) (c : Canvas.t)
: HoverType * Canvas.t :=
match pensOf c !! i with
| None => (HoverNone, c)
| Some pen =>
    match Pen_ops.anchorAt pen s with
    | None => (HoverNone, c)
    | Some anchor =>
        let isline := String.eqb (Pen.name pen) "line" in
        let act := Calc.active (Pen.calculative pen) in
        if hitPoint pt anchor (Canvas.pointSize c) then
          let c1 :=
            if bool_decide (Store.anchor (Canvas.store c) = Some (i, s))
            then c else Canvas.set_dirty true c in
          if isline
          then (HoverLineAnchor, takeAnchor i s "pointer" c1)
          else (HoverNodeAnchor, takeAnchor i s "crosshair" c1)
        else if isline && act && hitHandle pt (Point.prev anchor) c then
          (HoverLineAnchorPrev, takeAnchor i s "pointer" c)
        else if isline && act && hitHandle pt (Point.next anchor) c then
          (HoverLineAnchorNext, takeAnchor i s "pointer" c)
        else (HoverNone, c)
    end
end.

(** The first slot of [ss] on which [inAnchor] is truthy. *)
Fixpoint inAnchors (pt : Point.t) (i : nat) (ss : list Slot) (c : Canvas.t)
: HoverType * Canvas.t :=
match ss with
| [] => (HoverNone, c)
| s :: rest =>
    let '(h, c1) := inAnchor pt i s c in
    if hover_truthy h then (h, c1) else inAnchors pt i rest c1
end.

(** The slots [getHover] tries on a pen, in its order. *)
Definition slotsOf (pen : Pen.t) : list Slot :=
SlotFrom :: SlotTo
:: match Calc.worldAnchors (Pen.calculative pen) with
   | Some l => map SlotAnchor (seq 0 (length l))
   | None => []
   end.

(** The cursor over the body of a pen. *)
Definition bodyCursor (pen : Pen.t) (c : Canvas.t) : option string :=
if negb (locked_truthy (Store.data_locked (Canvas.store c)))
   && negb (locked_truthy (Pen.locked pen))
then if hotkey_eqb (Canvas.hotkeyType c) HotkeyAddAnchor
     then Some "pointer" else Some "move"
else Store.hoverCursor (Canvas.store c).

(** The loop over [store.data.pens], topmost pen first; [idxs] are the
  positions still to visit. *)
Fixpoint hoverPens (pt : Point.t) (idxs : list nat) (c : Canvas.t)
: HoverType * Canvas.t :=
match idxs with
| [] => (HoverNone, c)
| i :: rest =>
    match pensOf c !! i with
    | None => hoverPens pt rest c
    | Some pen =>
        if bool_decide (Pen.visible pen = Some false)
           || locked_disable (Pen.locked pen)
        then hoverPens pt rest c
        else
          let st := Canvas.store c in
          let '(h, c1) :=
            if negb (locked_truthy (Store.data_locked st))
               && negb (Store.disableAnchor st)
               && negb (hotkey_eqb (Canvas.hotkeyType c) HotkeyResize)
            then inAnchors pt i (slotsOf pen) c
            else (HoverNone, c) in
          if hover_truthy h then (h, c1)
          else if Pen_ops.isLine pen then
            match pointInLine pt pen with
            | Some (k, q) =>
                (HoverLine,
                 alterStore
                   (fun st =>
                      Store.set_pointAtIndex (Some k)
                        (Store.set_pointAt (Some q)
                           (Store.set_hover (Some i) st)))
                   (Canvas.set_cursor (bodyCursor pen c1) c1))
            | None => hoverPens pt rest c1
            end
          else if pointInRect pt (Some (Calc.worldRect (Pen.calculative pen)))
          then
            (HoverNode,
             alterStore
               (fun st => Store.set_pointAt (Some pt) (Store.set_hover (Some i) st))
               (Canvas.set_cursor (bodyCursor pen c1) c1))
          else hoverPens pt rest c1
    end
end.

(** [store.active.length === 1 && store.active[0].type]. *)
Definition activeLine (c : Canvas.t) : option bool :=
match Store.active (Canvas.store c) with
| [i] => p ← pensOf c !! i; Some (Pen_ops.isLine p)
| _ => Some false
end.

(** The tail of [getHover]: enter and leave notifications when the hovered
  pen changed. *)
Definition hoverChanged (c : Canvas.t) : Canvas.t :=
let st := Canvas.store c in
if bool_decide (Store.lastHover st = Store.hover st) then c
else
  let c1 := Canvas.set_dirty true c in
  let c2 :=
    match Store.lastHover st with
    | Some j =>
        emit "leave" (OfPen j)
          (alterPen (Pen_ops.alterCalc (Calc.set_hover false)) j c1)
    | None => c1
    end in
  let c3 :=
    match Store.hover st with
    | Some j =>
        emit "enter" (OfPen j)
          (alterPen (Pen_ops.alterCalc (Calc.set_hover true)) j c2)
    | None => c2
    end in
  alterStore (Store.set_lastHover (Store.hover st)) c3.

(** [getHover(pt)]. *)
Definition getHover (pt : Point.t) (c : Canvas.t) : option Canvas.t :=
let c0 :=
  alterStore
    (fun st => Store.set_pointAtIndex None
                 (Store.set_pointAt None (Store.set_anchor None st)))
    c in
aline ← activeLine c0;
'(h1, c1) ←
  match getActiveRect c0 with
  | Some r =>
      if negb (JS.truthy_str (Canvas.drawingLineName c0))
         && negb aline
         && negb (locked_truthy (Store.data_locked (Canvas.store c0)))
      then hoverHandles pt r c0
      else Some (HoverNone, c0)
  | None => Some (HoverNone, c0)
  end;
let '(h2, c2) :=
  if hover_truthy h1 then (h1, c1)
  else hoverPens pt (reverse (seq 0 (length (pensOf c1)))) c1 in
let '(h3, c3) :=
  if negb (hover_truthy h2) && negb aline && pointInRect pt (getActiveRect c2)
  then (HoverNode, Canvas.set_cursor (Some "move") c2)
  else (h2, c2) in
let c4 := Canvas.set_hoverType h3 c3 in
let c5 :=
  if hover_truthy h3 then c4
  else
    alterStore (Store.set_hover None)
      (if JS.truthy_str (Canvas.drawingLineName c4)
       then Canvas.set_cursor (Some "crosshair") c4
       else if JS.is_some (Canvas.mouseDown c4) then c4
            else Canvas.set_cursor (Some "default") c4) in
Some (hoverChanged c5).

(** *** Gestures *)

(** [calibrateMouse(pt)]. *)
Definition calibrateMouse (pt : Point.t) (c : Canvas.t) : Point.t :=
Point.set_y (Point.y pt - Store.data_y (Canvas.store c))%R
  (Point.set_x (Point.x pt - Store.data_x (Canvas.store c))%R pt).

(** The [switch (this.resizeIndex)] of [resizePens]. *)
Definition resizeRect (index : nat) (offsetX offsetY : R) (r : Rect.t) : Rect.t :=
let addX r := Rect.set_x (Rect.x r + offsetX)%R r in
let addY r := Rect.set_y (Rect.y r + offsetY)%R r in
let addEx r := Rect.set_ex (Rect.ex r + offsetX)%R r in
let addEy r := Rect.set_ey (Rect.ey r + offsetY)%R r in
let addW r := Rect.set_width (Rect.width r + offsetX)%R r in
let subW r := Rect.set_width (Rect.width r - offsetX)%R r in
let addH r := Rect.set_height (Rect.height r + offsetY)%R r in
let subH r := Rect.set_height (Rect.height r - offsetY)%R r in
match index with
| 0 => subH (subW (addY (addX r)))
| 1 => subH (addW (addY (addEx r)))
| 2 => addH (addW (addEy (addEx r)))
| 3 => addH (subW (addEy (addX r)))
| 4 => subH (addY r)
| 5 => addW (addEx r)
| 6 => addH (addEy r)
| 7 => subW (addX r)
| _ => r
end.

(** The [forEach((pen, i) => ...)] of [resizePens]; [k] is the index [i]
  of the callback, [r] the resized active rect. *)
Fixpoint resizeMembers (r : Rect.t) (scaleX scaleY : R) (k : nat)
  (members : list nat) (c : Canvas.t) : option Canvas.t :=
match members with
| [] => Some c
| j :: rest =>
    match pensOf c !! j with
    | None => None
    | Some pen =>
        if JS.truthy_str (Pen.parentId pen)
        then resizeMembers r scaleX scaleY (S k) rest c
        else
          match Canvas.activeInitPos c !! k with
          | None => None
          | Some ip =>
              let pen' :=
                Pen.set_height (Pen.height pen * scaleY)%R
                  (Pen.set_width (Pen.width pen * scaleX)%R
                     (Pen.set_y (Point.y ip * Rect.height r + Rect.y r)%R
                        (Pen.set_x (Point.x ip * Rect.width r + Rect.x r)%R pen))) in
              resizeMembers r scaleX scaleY (S k) rest
                (dirtyPenRect j (alterPen (fun _ => pen') j c))
          end
    end
end.

(** [resizePens(e)].  [scaleX] and [scaleY] are quotients of reals: they
are the code's quotients while the width and the height of the active rect
before the call are not 0.  On a flat rect the code divides by 0 and gets
[Infinity] or [NaN], which the model does not have; what is stated below of
the scaled size of a pen takes a width and a height that are not 0.  The
active rect itself is computed without a division. *)
Definition resizePens (e : Point.t) (clock : R) (c : Canvas.t)
: option Canvas.t :=
md ← Canvas.mouseDown c;
r ← getActiveRect c;
let back := Ropp <$> Rect.rotate r in
let p1 := Geometry.rotatePoint (Point.at_ (ev_x md) (ev_y md)) back (Rect.center r) in
let p2 := Geometry.rotatePoint (Point.at_ (Point.x e) (Point.y e)) back (Rect.center r) in
let x := (Point.x p2 - Point.x p1)%R in
let y := (Point.y p2 - Point.y p1)%R in
let offsetX := (x - Canvas.lastOffsetX c)%R in
let offsetY := (y - Canvas.lastOffsetY c)%R in
let c1 := Canvas.set_lastOffsetY y (Canvas.set_lastOffsetX x c) in
let w := Rect.width r in
let h := Rect.height r in
let c2 :=
  modActiveRect
    (fun r => Geometry.calcCenter (resizeRect (Canvas.resizeIndex c) offsetX offsetY r))
    c1 in
r2 ← getActiveRect c2;
c3 ← resizeMembers r2 (Rect.width r2 / w)%R (Rect.height r2 / h)%R 0
       (Store.active (Canvas.store c2)) c2;
c4 ← getSizeCPs c3;
Some (render Forced clock c4).

(** The [forEach] of [translatePens]. *)
Fixpoint translateMembers (x y : R) (doing : bool) (members : list nat)
  (c : Canvas.t) : option Canvas.t :=
match members with
| [] => Some c
| j :: rest =>
    match pensOf c !! j with
    | None => None
    | Some pen =>
        match (if JS.truthy_str (Pen.parentId pen) then Some true
               else if Pen_ops.isLine pen then Pen_ops.connected pen
                    else Some false) with
        | None => None
        | Some true => translateMembers x y doing rest c
        | Some false =>
            let c1 :=
              if Pen_ops.isLine pen
              then alterPen (fun _ => translateLine pen x y) j c
              else dirtyPenRect j
                     (alterPen (fun _ => Pen_ops.translateRect pen x y) j c) in
            match (if doing then Some c1 else initLineRect j c1) with
            | None => None
            | Some c2 => translateMembers x y doing rest c2
            end
        end
    end
end.

(** The guard that opens [translatePens]: a selection that is one
  connected line. *)
Definition soleConnectedLine (c : Canvas.t) : option bool :=
match Store.active (Canvas.store c) with
| [i] =>
    p ← pensOf c !! i;
    if Pen_ops.isLine p then Pen_ops.connected p else Some false
| _ => Some false
end.

(** [translatePens(x, y, doing)]. *)
Definition translatePens (x y : R) (doing : bool) (clock : R) (c : Canvas.t)
: option Canvas.t :=
sole ← soleConnectedLine c;
if (sole : bool) then Some c
else
  _ ← getActiveRect c;
  let c1 := modActiveRect (fun r => Geometry.translateRect r x y) c in
  c2 ← translateMembers x y doing (Store.active (Canvas.store c1)) c1;
  c3 ← getSizeCPs c2;
  Some (render Forced clock c3).

(** [movePens(e)]. *)
Definition movePens (e : MouseEvent) (clock : R) (c : Canvas.t)
: option Canvas.t :=
if negb (JS.is_some (Canvas.activeRect c))
   || locked_truthy (Store.data_locked (Canvas.store c))
then Some c
else
  md ← Canvas.mouseDown c;
  let x := (ev_x e - ev_x md)%R in
  let y := (ev_y e - ev_y md)%R in
  let offsetX := if ev_ctrlKey e then 0%R else (x - Canvas.lastOffsetX c)%R in
  let offsetY := if ev_shiftKey e then 0%R else (y - Canvas.lastOffsetY c)%R in
  translatePens offsetX offsetY true clock
    (Canvas.set_lastOffsetY y (Canvas.set_lastOffsetX x c)).

(** The anchor object [store.anchor] refers to. *)
Definition anchorOf (c : Canvas.t) : option Point.t :=
'(i, s) ← Store.anchor (Canvas.store c);
pen ← pensOf c !! i;
Pen_ops.anchorAt pen s.

(** What [moveLineAnchorNext] does to the anchor object: [next] goes to
  [e], and [prev] follows as [prevNextType] says. *)
Definition dragNext (e : Point.t) (prevAnchor nextAnchor : option Point.t)
  (a : Point.t) : option Point.t :=
nx ← Point.next a;
let a1 := Point.set_next (Some (Point.move_to e nx)) a in
if prevNextType_falsy (Point.prevNextType a1) then
  pv ← Point.prev a1;
  Some (Point.set_prev
          (Some (Geometry.rotatePoint (Point.move_to e pv) (Some 180%R) a1)) a1)
else
  match Point.prevNextType a1 with
  | Some Bilateral =>
      let rotate := calcRotate e a1 in
      na ← nextAnchor;
      let nextRotate := calcRotate na a1 in
      pv ← Point.prev a1;
      pa ← prevAnchor;
      Some (Point.set_prev
              (Some (Geometry.rotatePoint (Point.move_to pa pv)
                       (Some (rotate - nextRotate)%R) a1)) a1)
  | _ => Some a1
  end.

(** [moveLineAnchorNext(e)]. *)
Definition moveLineAnchorNext (e : Point.t) (clock : R) (c : Canvas.t)
: option Canvas.t :=
if negb (JS.is_some (Canvas.activeRect c))
   || locked_truthy (Store.data_locked (Canvas.store c))
then Some c
else
  '(i, s) ← Store.anchor (Canvas.store c);
  a ← anchorOf c;
  a' ← dragNext e (Canvas.prevAnchor c) (Canvas.nextAnchor c) a;
  let c1 := alterPen (Pen_ops.alterAnchor (fun _ => a') s) i c in
  line ← head (Store.active (Canvas.store c1));
  _ ← pensOf c1 !! line;
  let c2 := alterPen (Pen_ops.alterCalc (Calc.set_dirty true)) line c1 in
  Some (render Forced clock c2).

(** The [forEach] of [scale] over [store.data.pens]. *)
Fixpoint scalePens (s : R) (center : Point.t) (idxs : list nat) (c : Canvas.t)
: option Canvas.t :=
match idxs with
| [] => Some c
| i :: rest =>
    match pensOf c !! i with
    | None => None
    | Some pen =>
        let pen' := scalePen pen s center in
        let c1 := dirtyPenRect i (alterPen (fun _ => pen') i c) in
        match (if Pen_ops.isLine pen' then initLineRect i c1 else Some c1) with
        | None => None
        | Some c2 => scalePens s center rest c2
        end
    end
end.

(** [scale(scale, center)]; [center] defaults to the origin. *)
Definition scale (scale_ : R) (center : option Point.t) (clock : R)
  (c : Canvas.t) : option Canvas.t :=
let st := Canvas.store c in
if bool_decide (scale_ < Store.minScale st)%R
   || bool_decide (scale_ > Store.maxScale st)%R
then Some c
else
  let center := calibrateMouse (default (Point.at_ 0 0) center) c in
  let c1 := Canvas.set_dirty true c in
  let s := (scale_ / Store.data_scale st)%R in
  c2 ← scalePens s center (seq 0 (length (pensOf c1))) c1;
  c3 ← calcActiveRect c2;
  let c4 :=
    alterStore
      (fun st => Store.set_data_center (Some center) (Store.set_data_scale scale_ st))
      c3 in
  Some (emit "scale" (OfNumber scale_) (render Forced clock c4)).

(** *** Pointer down *)

(** [store.active.splice(store.active.findIndex(pen => pen === hover), 1)];
  when the pen is not found the index is -1 and [splice] drops the last
  element. *)
Definition spliceOut (j : nat) (act : list nat) : list nat :=
match list_find (fun k => k = j) act with
| Some (pos, _) => delete pos act
| None => removelast act
end.

(** The branch [case HoverType.Node] of [onMouseDown], for the hovered pen
  at position [j]. *)
Definition downOnNode (e : MouseEvent) (j : nat) (c : Canvas.t)
: option Canvas.t :=
hov ← pensOf c !! j;
let isActive := Calc.active (Pen.calculative hov) in
let setFlag b c := alterPen (Pen_ops.alterCalc (Calc.set_active b)) j c in
if ev_ctrlKey e then
  if JS.truthy_str (Pen.parentId hov) then Some c
  else
    let c1 :=
      if isActive
      then emit "inactive" (OfPens [j])
             (alterStore (fun s => Store.set_active (spliceOut j (Store.active s)) s)
                (setFlag false c))
      else emit "active" (OfPens [j])
             (alterStore (fun s => Store.set_active (Store.active s ++ [j]) s)
                (setFlag true c)) in
    calcActiveRect (Canvas.set_dirty true c1)
else if ev_altKey e then
  if bool_decide (1 < length (Store.active (Canvas.store c))) || negb isActive
  then
    calcActiveRect
      (Canvas.set_dirty true
         (emit "active" (OfPens [j])
            (setFlag true
               (alterStore (Store.set_active [j]) (clearActiveFlags c)))))
  else calcActiveRect c
else
  c1 ← (if isActive then Some c else active [j] c);
  calcActiveRect c1.

(** The normalised positions [case HoverType.Resize] records.  They are
quotients of reals, the code's quotients while the width and the height of
the active rect are not 0; on a flat rect the code records [NaN] or
[Infinity], which the model does not have, and what is stated below of the
recorded values takes a width and a height that are not 0. *)
Definition initPositions (c : Canvas.t) : option (list Point.t) :=
mapM (fun j =>
        pen ← pensOf c !! j;
        r ← getActiveRect c;
        Some (Point.at_ ((Pen.x pen - Rect.x r) / Rect.width r)
                ((Pen.y pen - Rect.y r) / Rect.height r))%R)
  (Store.active (Canvas.store c)).

(** The [switch (this.hoverType)] that closes [onMouseDown], followed by
  its [this.render()]: the path taken when the AddAnchor hotkey is not
  held and no line is being drawn.  A handle that is unset is snapshot
  as unset. *)
Definition mouseDownSwitch (e : MouseEvent) (clock : R) (c : Canvas.t)
: option Canvas.t :=
c1 ←
  match Canvas.hoverType c with
  | HoverNone => Some (inactive false c)
  | HoverNode =>
      match Store.hover (Canvas.store c) with
      | Some j => downOnNode e j c
      | None => Some c
      end
  | HoverLine =>
      j ← Store.hover (Canvas.store c);
      _ ← pensOf c !! j;
      active [j] c
  | HoverLineAnchor =>
      j ← Store.hover (Canvas.store c);
      _ ← pensOf c !! j;
      active [j]
        (alterPen
           (Pen_ops.alterCalc
              (Calc.set_activeAnchor (snd <$> Store.anchor (Canvas.store c))))
           j c)
  | HoverLineAnchorPrev | HoverLineAnchorNext =>
      a ← anchorOf c;
      Some (Canvas.set_nextAnchor (Point.next a)
              (Canvas.set_prevAnchor (Point.prev a) c))
  | HoverResize =>
      ps ← initPositions c;
      Some (Canvas.set_activeInitPos ps c)
  | _ => Some c
  end;
Some (render NoArg clock c1).
End Methods.

(** ** Concrete collaborators and states

    A simple choice for each collaborator, and small canvases, on which the
    statements below are exercised. *)

Module Sample.
Local Open Scope R_scope.

(** The box [x, y, width, height] with its far corner and centre. *)
Definition box (x y w h : R) (rotate : option R) : Rect.t :=
Rect.mk x y (x + w) (y + h) w h (Point.at_ (x + w / 2) (y + h / 2)) rotate.

Definition emptyRect : Rect.t := box 0 0 0 0 None.

(** A square neighbourhood of the target. *)
Definition squareHit (pt target : Point.t) (radius : R) : bool :=
bool_decide (Rabs (Point.x pt - Point.x target) < radius)
&& bool_decide (Rabs (Point.y pt - Point.y target) < radius).

(** Containment in the unrotated box; an unset rect contains nothing. *)
Definition inBox (pt : Point.t) (r : option Rect.t) : bool :=
match r with
| None => false
| Some r =>
    bool_decide (Rect.x r <= Point.x pt) && bool_decide (Point.x pt <= Rect.ex r)
    && bool_decide (Rect.y r <= Point.y pt) && bool_decide (Point.y pt <= Rect.ey r)
end.

(** The angle of a point that lies straight above, below, left or right
  of the centre, clockwise from the top; 0 elsewhere. *)
Definition axisRotate (pt center : Point.t) : R :=
if bool_decide (Point.x pt = Point.x center)
then (if bool_decide (Point.y pt <= Point.y center) then 0 else 180)
else if bool_decide (Point.y pt = Point.y center)
     then (if bool_decide (Point.x pt < Point.x center) then 270 else 90)
     else 0.

(** The box of a pen's logical rect. *)
Definition penBox (p : Pen.t) : Rect.t :=
box (Pen.x p) (Pen.y p) (Pen.width p) (Pen.height p) (Pen.rotate p).

Definition helpers : Helpers := {|
hitPoint := squareHit;
pointInRect := inBox;
pointInLine := fun _ _ => None;
calcRotate := axisRotate;
getRect := fun _ => box 0 0 200 200 None;
getLineRect := penBox;
calcRelativePoint := fun pt r =>
  Point.set_y (Point.y pt - Rect.y r) (Point.set_x (Point.x pt - Rect.x r) pt);
calcWorldRects := fun _ p => penBox p;
calcWorldAnchors := fun p => Calc.worldAnchors (Pen.calculative p);
scalePen := fun p _ _ => p;
translateLine := fun p dx dy => Pen_ops.translateRect p dx dy;
drawLineFn := fun _ => None;
defaultCursors := ["nw-resize"; "ne-resize"; "se-resize"; "sw-resize"];
rotatedCursors := ["n-resize"; "e-resize"; "s-resize"; "w-resize"] |}.

(** A node pen filling the box [x, y, w, h]. *)
Definition node (id : string) (x y w h : R) : Pen.t :=
Pen.mk (Some id) "rectangle" x y w h (Some 0) None None None None None None None
  (Calc.mk (box x y w h (Some 0)) None None None false false false None).

(** A line pen from [a] to [b]; its [from] and [to] carry the same
  [connectTo] as the world anchors. *)
Definition line (id : string) (a b : Point.t) (mid : list Point.t) : Pen.t :=
Pen.mk (Some id) "line" (Point.x a) (Point.y a)
  (Point.x b - Point.x a) (Point.y b - Point.y a)
  None (Some Line) None None None (Some a) (Some b) None
  (Calc.mk (box (Point.x a) (Point.y a) (Point.x b - Point.x a) (Point.y b - Point.y a) None)
     (Some a) (Some b) (Some mid) false false false None).

Definition store (pens : list Pen.t) : Store.t :=
Store.mk pens 0 0 1 None None ∅ [] None None None None None
  (1 / 100) 10 30 false false None [] [] 0.

(** An idle canvas over [pens]: nothing selected, nothing hovered. *)
Definition canvas (pens : list Pen.t) : Canvas.t :=
Canvas.mk (store pens) None 0 None [] HoverNone 0 None HotkeyNone 0 0
  None None None None false 0 8 None None [].

(** An own active rect over the box [0, 0, 100, 50], rotated by 90. *)
Definition rotated : Canvas.t :=
Canvas.set_activeRect (Some (RectOwn (box 0 0 100 50 (Some 90)))) (canvas []).
End Sample.

(** ** Observations on a call of [render] *)

(** The time [render] compares with [lastRender]: its time stamp, or the
    clock when it has none. *)
Definition timeOf (arg : RenderArg) (clock : R) : R :=
  match arg with Stamp t => t | _ => clock end.

(** Fewer than [interval] milliseconds have passed since the last paint. *)
Definition throttled (now : R) (c : Canvas.t) : Prop :=
  (now - Canvas.lastRender c < Store.interval (Canvas.store c))%R.

(** The call left the painting to the next animation frame. *)
Definition deferred (c c' : Canvas.t) : Prop :=
  Canvas.effects c' = RequestFrame :: Canvas.effects c
  /\ Canvas.dirty c' = true
  /\ Canvas.lastRender c' = Canvas.lastRender c.

(** The call painted at time [now], and asked for a further frame only for
    running animations. *)
Definition redrawnAt (now : R) (c c' : Canvas.t) : Prop :=
  Canvas.dirty c' = false
  /\ Canvas.lastRender c' = now
  /\ (Canvas.effects c' = Redraw now :: Canvas.effects c
      \/ Canvas.effects c' = RequestFrame :: Redraw now :: Canvas.effects c).

Module SampleRender.
(** A clean canvas painted at time 100, with the interval of 30 ms. *)
Definition painted : Canvas.t := Canvas.set_lastRender 100 (Sample.canvas []).

(** The same canvas with something to paint. *)
Definition stale : Canvas.t := Canvas.set_dirty true painted.
End SampleRender.

Module SampleSelect.
(** A node pen tilted by 30 degrees. *)
Definition tilted : Pen.t := Pen.set_rotate (Some 30%R) (Sample.node "a" 0 0 100 50).

(** The tilted pen selected alone. *)
Definition one : Canvas.t :=
alterStore (Store.set_active [0]) (Sample.canvas [tilted]).

(** The tilted pen selected together with an upright one. *)
Definition two : Canvas.t :=
alterStore (Store.set_active [0; 1])
  (Sample.canvas [tilted; Sample.node "b" 150 0 40 40]).
End SampleSelect.

(** ** Dragging a bezier handle *)

(** The calls of [moveLineAnchorNext] of one gesture, each with its pointer
    sample and clock reading. *)
Fixpoint dragNextMoves `{Helpers} (moves : list (Point.t * R)) (c : Canvas.t)
  : option Canvas.t :=
  match moves with
  | [] => Some c
  | (e, clock) :: rest => c' ← moveLineAnchorNext e clock c; dragNextMoves rest c'
  end.

(** Two points at the same place. *)
Definition sameCoords (p q : Point.t) : Prop :=
  Point.x p = Point.x q /\ Point.y p = Point.y q.


(** What a drag needs: a selection, no lock, a hovered anchor that exists
    and a first selected pen to mark dirty. *)
Definition dragReady (c : Canvas.t) (i : nat) (s : Slot) (a : Point.t) : Prop :=
  JS.is_some (Canvas.activeRect c) = true
  /\ locked_truthy (Store.data_locked (Canvas.store c)) = false
  /\ Store.anchor (Canvas.store c) = Some (i, s)
  /\ anchorOf c = Some a
  /\ exists line, head (Store.active (Canvas.store c)) = Some line
                  /\ line < length (pensOf c).


(** The state of a bilateral drag: the anchor stays where it was, keeps its
    type and both handles, and the snapshots are those taken at pointer
    down. *)
Definition bilateralDrag (c : Canvas.t) (i : nat) (s : Slot) (a0 pv0 nx0 ac : Point.t)
  : Prop :=
  dragReady c i s ac
  /\ sameCoords ac a0
  /\ Point.prevNextType ac = Some Bilateral
  /\ is_Some (Point.prev ac) /\ is_Some (Point.next ac)
  /\ Canvas.prevAnchor c = Some pv0
  /\ Canvas.nextAnchor c = Some nx0.


Module SampleCurve.
(** An anchor at (100, 100) with its handles at (90, 100) and (110, 100). *)
Definition anchor (ty : option PrevNextType) : Point.t :=
Point.mk 100 100 (Some "f") (Some "l") None None ty
  (Some (Point.at_ 90 100)) (Some (Point.at_ 110 100)).

(** A line that starts at that anchor. *)
Definition curve (ty : option PrevNextType) : Pen.t :=
Pen_ops.alterCalc (Calc.set_active true)
  (Sample.line "l" (anchor ty) (Point.at_ 300 100) []).

(** The line selected, the pointer over the next handle of its first
  anchor. *)
Definition hovering (ty : option PrevNextType) : Canvas.t :=
Canvas.set_hoverType HoverLineAnchorNext
  (Canvas.set_activeRect (Some (RectOfPen 0))
     (alterStore
        (fun st => Store.set_anchor (Some (0, SlotFrom))
                     (Store.set_hover (Some 0) (Store.set_active [0] st)))
        (Sample.canvas [curve ty]))).

Definition down : MouseEvent := mkMouseEvent 110 100 false false false.
End SampleCurve.

(** ** Outcomes of [finishDrawline] *)

(** The line is kept: it is ended by force, or its end is connected, or it
    has a committed anchor to end on. *)
Definition committed (end_ : bool) (dl : Pen.t) : Prop :=
  end_ = true
  \/ toConnected dl = true
  \/ exists l a, Calc.worldAnchors (Pen.calculative dl) = Some (l ++ [a]).

(** The pen list, the emitted events and the history are as before. *)
Definition listsUnchanged (c c' : Canvas.t) : Prop :=
  pensOf c' = pensOf c
  /\ Store.emitted (Canvas.store c') = Store.emitted (Canvas.store c)
  /\ Store.histories (Canvas.store c') = Store.histories (Canvas.store c).

(** One pen more, one [addPen] event (and the [active] event of its
    selection), one history record for the new pen. *)
Definition oneLineAdded (c c' : Canvas.t) : Prop :=
  let n := length (pensOf c) in
  length (pensOf c') = S n
  /\ Store.emitted (Canvas.store c')
     = mkEvent "active" (OfPens [n]) :: mkEvent "addPen" (OfPen n)
       :: Store.emitted (Canvas.store c)
  /\ Store.histories (Canvas.store c')
     = Store.histories (Canvas.store c) ++ [mkHistory Add n].


Module SampleDraw.
(** A line begun at (0, 0) whose loose end follows the pointer to
    (50, 50): no anchor committed yet. *)
Definition stub : Pen.t := Sample.line "d" (Point.at_ 0 0) (Point.at_ 50 50) [].

(** The same line with one anchor committed at (20, 30). *)
Definition anchored : Pen.t :=
  Sample.line "d" (Point.at_ 0 0) (Point.at_ 50 50) [Point.at_ 20 30].

(** A canvas drawing the line [dl], with the hook [beforeAddPen] given. *)
Definition drawing (dl : Pen.t) (hook : option (Pen.t -> bool)) : Canvas.t :=
  Canvas.mk (Sample.store []) None 0 None [] HoverNone 0 None HotkeyNone 0 0
    (Some "curve") (Some dl) None None false 0 8 hook None [].
End SampleDraw.

(** ** Observations on [getHover] *)

(** The block of handles is open: there is an active rect, no line is being
    drawn, the selection is not one line, the document is not locked. *)
Definition handlesOpen (c : Canvas.t) (r : Rect.t) : Prop :=
  getActiveRect c = Some r
  /\ JS.truthy_str (Canvas.drawingLineName c) = false
  /\ activeLine c = Some false
  /\ locked_truthy (Store.data_locked (Canvas.store c)) = false.

(** The pointer is on the rotate handle, and rotating is on offer. *)
Definition onRotateHandle `{Helpers} (pt : Point.t) (r : Rect.t) (c : Canvas.t)
  : Prop :=
  Store.disableRotate (Canvas.store c) = false
  /\ Canvas.hotkeyType c = HotkeyNone
  /\ hitPoint pt (rotateHandle r) (Canvas.pointSize c) = true.

(** The pointer is on a size control point that the hotkey makes eligible:
    a corner without hotkey or with Resize, an edge midpoint with Resize. *)
Definition onSizeHandle `{Helpers} (pt : Point.t) (c : Canvas.t) : Prop :=
  exists i, hitCP pt i c = Some true
    /\ ((i < 4 /\ (Canvas.hotkeyType c = HotkeyNone \/ Canvas.hotkeyType c = HotkeyResize))
        \/ (4 <= i < 8 /\ Canvas.hotkeyType c = HotkeyResize)).

(** The kinds [inAnchor] can report. *)
Definition isAnchorKind (h : HoverType) : bool :=
  match h with
  | HoverNodeAnchor | HoverLineAnchor | HoverLineAnchorPrev | HoverLineAnchorNext => true
  | _ => false
  end.

(** The pen loop may test the anchors of a pen. *)
Definition anchorsOpen (c : Canvas.t) : bool :=
  negb (locked_truthy (Store.data_locked (Canvas.store c)))
  && negb (Store.disableAnchor (Canvas.store c))
  && negb (hotkey_eqb (Canvas.hotkeyType c) HotkeyResize).

(** The pen at position [j] stops the pen loop: it is visible, not
    disabled, and the pointer is on one of its anchors (when anchors are
    tested) or on its body. *)
Definition penTaken `{Helpers} (pt : Point.t) (c : Canvas.t) (j : nat) : bool :=
  match pensOf c !! j with
  | None => false
  | Some pen =>
      negb (bool_decide (Pen.visible pen = Some false) || locked_disable (Pen.locked pen))
      && ((anchorsOpen c && hover_truthy (fst (inAnchors pt j (slotsOf pen) c)))
          || (if Pen_ops.isLine pen then JS.is_some (pointInLine pt pen)
              else pointInRect pt (Some (Calc.worldRect (Pen.calculative pen)))))
  end.

(** The classifications of the body of a pen. *)
Definition isBodyKind (h : HoverType) : bool :=
  match h with HoverLine | HoverNode => true | _ => false end.

(** The canvas as [getHover] first leaves it: [store.anchor],
    [store.pointAt] and [store.pointAtIndex] unset. *)
Definition hoverStart (c : Canvas.t) : Canvas.t :=
  alterStore
    (fun st => Store.set_pointAtIndex None
                 (Store.set_pointAt None (Store.set_anchor None st)))
    c.

(** The end of [getHover], from the classification [h2] of the handles and
    pens on: the fallback on the active rect, [hoverType], the cursor of the
    empty canvas, and the notifications. *)
Definition hoverClose `{Helpers} (pt : Point.t) (aline : bool)
    (hc : HoverType * Canvas.t) : Canvas.t :=
  let '(h2, c2) := hc in
  let '(h3, c3) :=
    if negb (hover_truthy h2) && negb aline && pointInRect pt (getActiveRect c2)
    then (HoverNode, Canvas.set_cursor (Some "move") c2)
    else (h2, c2) in
  let c4 := Canvas.set_hoverType h3 c3 in
  let c5 :=
    if hover_truthy h3 then c4
    else
      alterStore (Store.set_hover None)
        (if JS.truthy_str (Canvas.drawingLineName c4)
         then Canvas.set_cursor (Some "crosshair") c4
         else if JS.is_some (Canvas.mouseDown c4) then c4
              else Canvas.set_cursor (Some "default") c4) in
  hoverChanged c5.

(** No handle answers for the pointer: the block of handles is closed, or
    it is open and the pointer is on no eligible handle. *)
Definition handleFree `{Helpers} (pt : Point.t) (c : Canvas.t) : Prop :=
  getActiveRect c = None
  \/ JS.truthy_str (Canvas.drawingLineName c) = true
  \/ activeLine c = Some true
  \/ locked_truthy (Store.data_locked (Canvas.store c)) = true
  \/ (exists r cps,
        getActiveRect c = Some r
        /\ Canvas.sizeCPs c = Some cps /\ 8 <= length cps
        /\ ~ onRotateHandle pt r c /\ ~ onSizeHandle pt c).

Module SampleHover.
(** The node [0, 0, 100, 50] selected alone, its eight size handles laid
out. *)
Definition selected : Canvas.t :=
Canvas.set_sizeCPs (Some (sizeCPsOf (Sample.box 0 0 100 50 (Some 0%R))))
(Canvas.set_activeRect (Some (RectOfPen 0))
 (alterStore (Store.set_active [0])
(Sample.canvas [Sample.node "a" 0 0 100 50]))).

(** Two nodes that overlap on [50, 100] x [0, 50], nothing selected. *)
Definition stacked : Canvas.t :=
Sample.canvas [Sample.node "a" 0 0 100 50; Sample.node "b" 50 0 100 50].

(** The same document, locked. *)
Definition locked : Canvas.t :=
Canvas.set_store
(Store.mk (pensOf stacked) 0 0 1 None (Some Disable) ∅ [] None None None None None
 (1 / 100) 10 30 false false None [] [] 0)
stacked.
End SampleHover.

(** ** Observations on a resize gesture *)

(** The far corner of a rect is where its origin and size put it. *)
Definition boxed (r : Rect.t) : Prop :=
  Rect.ex r = (Rect.x r + Rect.width r)%R
  /\ Rect.ey r = (Rect.y r + Rect.height r)%R.

(** A rect that is not turned: [rotate] unset or 0. *)
Definition unrotated (r : Rect.t) : Prop :=
  Rect.rotate r = None \/ Rect.rotate r = Some 0%R.

(** The calls of [resizePens] of one gesture, each with its pointer sample
    and clock reading. *)
Fixpoint resizeMoves `{Helpers} (moves : list (Point.t * R)) (c : Canvas.t)
  : option Canvas.t :=
  match moves with
  | [] => Some c
  | (e, clock) :: rest => c' ← resizePens e clock c; resizeMoves rest c'
  end.

(** What [resizePens] needs: the pointer-down sample, an active rect, the
    selected pens in the document, and a recorded position for each. *)
Definition resizeReady (c : Canvas.t) (md : MouseEvent) (r : Rect.t) : Prop :=
  Canvas.mouseDown c = Some md
  /\ getActiveRect c = Some r
  /\ Forall (fun j => j < length (pensOf c)) (Store.active (Canvas.store c))
  /\ length (Store.active (Canvas.store c)) <= length (Canvas.activeInitPos c).

(** The start of a resize gesture on handle [idx]: ready, with the offsets
    of the last move at 0, as [onMouseUp] leaves them for the next gesture. *)
Definition resizeStart (c : Canvas.t) (md : MouseEvent) (r : Rect.t) (idx : nat)
  : Prop :=
  resizeReady c md r
  /\ Canvas.resizeIndex c = idx
  /\ Canvas.lastOffsetX c = 0%R
  /\ Canvas.lastOffsetY c = 0%R.

(** What a write into pens and rects leaves alone: the gesture's own
    fields, the selection and the number of pens. *)
Definition gestureKept (c c' : Canvas.t) : Prop :=
  Canvas.mouseDown c' = Canvas.mouseDown c
  /\ Canvas.activeInitPos c' = Canvas.activeInitPos c
  /\ Canvas.resizeIndex c' = Canvas.resizeIndex c
  /\ Canvas.lastOffsetX c' = Canvas.lastOffsetX c
  /\ Canvas.lastOffsetY c' = Canvas.lastOffsetY c
  /\ Store.active (Canvas.store c') = Store.active (Canvas.store c)
  /\ length (pensOf c') = length (pensOf c).

(** The sides of the rect that handle [idx] drags: corners 0..3 are
    top-left, top-right, bottom-right, bottom-left; edges 4..7 are top,
    right, bottom, left. *)
Definition dragsLeft (idx : nat) : bool :=
  match idx with 0 | 3 | 7 => true | _ => false end.
Definition dragsRight (idx : nat) : bool :=
  match idx with 1 | 2 | 5 => true | _ => false end.
Definition dragsTop (idx : nat) : bool :=
  match idx with 0 | 1 | 4 => true | _ => false end.
Definition dragsBottom (idx : nat) : bool :=
  match idx with 2 | 3 | 6 => true | _ => false end.

(** The displacement [d] for a side that is dragged, 0 for one that is
    not. *)
Definition dragged (b : bool) (d : R) : R := if b then d else 0%R.

(** The rect [r'] is [r] with the sides of handle [idx] displaced by
    [(dx, dy)] and the other sides in place. *)
Definition sidesMoved (idx : nat) (r r' : Rect.t) (dx dy : R) : Prop :=
  Rect.x r' = (Rect.x r + dragged (dragsLeft idx) dx)%R
  /\ Rect.ex r' = (Rect.ex r + dragged (dragsRight idx) dx)%R
  /\ Rect.y r' = (Rect.y r + dragged (dragsTop idx) dy)%R
  /\ Rect.ey r' = (Rect.ey r + dragged (dragsBottom idx) dy)%R
  /\ Rect.width r'
     = (Rect.width r + dragged (dragsRight idx) dx - dragged (dragsLeft idx) dx)%R
  /\ Rect.height r'
     = (Rect.height r + dragged (dragsBottom idx) dy - dragged (dragsTop idx) dy)%R.

(** The write [this.mouseDown = v]. *)
Definition setMouseDown (v : option MouseEvent) (c : Canvas.t) : Canvas.t :=
  Canvas.mk (Canvas.store c) (Canvas.activeRect c) (Canvas.lastRotate c)
    (Canvas.sizeCPs c) (Canvas.activeInitPos c) (Canvas.hoverType c)
    (Canvas.resizeIndex c) v (Canvas.hotkeyType c) (Canvas.lastOffsetX c)
    (Canvas.lastOffsetY c) (Canvas.drawingLineName c) (Canvas.drawingLine c)
    (Canvas.prevAnchor c) (Canvas.nextAnchor c) (Canvas.dirty c)
    (Canvas.lastRender c) (Canvas.pointSize c) (Canvas.beforeAddPen c)
    (Canvas.cursor c) (Canvas.effects c).

Module SampleResize.
(** The node [0, 0, 100, 50] selected alone, the pointer pressed on its
bottom-right handle at (100, 50). *)
Definition pressed : Canvas.t :=
Canvas.set_activeInitPos [Point.at_ 0 0]
(Canvas.set_resizeIndex 2
 (setMouseDown (Some (mkMouseEvent 100 50 false false false))
SampleHover.selected)).
End SampleResize.

(** ** Observations on a translate gesture *)

(** The test of the [forEach] of [translatePens]: the pen is skipped when
    it has a parent or is a connected line; reading [connectTo] of a line
    without [from] or [to] raises. *)
Definition stays (pen : Pen.t) : option bool :=
  if JS.truthy_str (Pen.parentId pen) then Some true
  else if Pen_ops.isLine pen then Pen_ops.connected pen
       else Some false.

(** What a translate by [(x, y)] makes of a selected pen: a pen that stays
    is the same object with the same content, a free line is what
    [translateLine] makes of it, a free node has its logical rect shifted
    and keeps its size. *)
Definition translated `{Helpers} (x y : R) (pen pen' : Pen.t) : Prop :=
  match stays pen with
  | Some true => pen' = pen
  | _ =>
      if Pen_ops.isLine pen then pen' = translateLine pen x y
      else Pen.x pen' = (Pen.x pen + x)%R /\ Pen.y pen' = (Pen.y pen + y)%R
           /\ Pen.width pen' = Pen.width pen /\ Pen.height pen' = Pen.height pen
  end.

(** What [translatePens] needs of a selection whose active rect is its own
    object: no pen selected twice, every selected pen in the document, and
    every selected line with both ends. *)
Definition translateReady (c : Canvas.t) (r : Rect.t) : Prop :=
  Canvas.activeRect c = Some (RectOwn r)
  /\ NoDup (Store.active (Canvas.store c))
  /\ Forall (fun j => exists pen, pensOf c !! j = Some pen /\ is_Some (stays pen))
       (Store.active (Canvas.store c)).

Module SampleMove.
(** A line whose start is connected to the node b. *)
Definition tied : Pen.t :=
Sample.line "l" (Point.set_connectTo (Some "b") (Point.at_ 0 0)) (Point.at_ 150 20) [].

(** The tied line and the node b selected together, the pointer pressed on
the node at (160, 20). *)
Definition pair : Canvas.t :=
setMouseDown (Some (mkMouseEvent 160 20 false false false))
(Canvas.set_activeRect (Some (RectOwn (Sample.box 0 0 190 40 (Some 0%R))))
 (alterStore (Store.set_active [0; 1])
(Sample.canvas [tied; Sample.node "b" 150 0 40 40]))).

(** The tied line selected alone. *)
Definition alone : Canvas.t :=
Canvas.set_activeRect (Some (RectOfPen 0))
(alterStore (Store.set_active [0]) (Sample.canvas [tied])).
End SampleMove.

(** ** Observations on the selection *)

(** The flag [calculative.active] of the pen at position [k]. *)
Definition flagOf (c : Canvas.t) (k : nat) : option bool :=
  (fun p => Calc.active (Pen.calculative p)) <$> pensOf c !! k.

(** The selection is well formed: no pen is selected twice, every selected
    pen is in the document, and a pen carries the flag
    [calculative.active] exactly when it is selected. *)
Definition selectionOk (c : Canvas.t) : Prop :=
  NoDup (Store.active (Canvas.store c))
  /\ Forall (fun j => j < length (pensOf c)) (Store.active (Canvas.store c))
  /\ forall k, flagOf c k = Some true <-> k ∈ Store.active (Canvas.store c).

Module SampleSelection.
(** Two nodes, the first one selected and flagged. *)
Definition chosen : Canvas.t :=
Canvas.set_activeRect (Some (RectOfPen 0))
(alterStore (Store.set_active [0])
 (Sample.canvas
  [Pen_ops.alterCalc (Calc.set_active true) (Sample.node "a" 0 0 100 50);
   Sample.node "b" 150 0 40 40])).
End SampleSelection.

(** What the [switch] of [onMouseDown] reads exists: the hovered pen when
    the pointer is on a pen, the hovered anchor when it is on a handle of
    an anchor, the active rect when it is on a size handle. *)
Definition downReady (c : Canvas.t) : Prop :=
  match Canvas.hoverType c with
  | HoverNode =>
      forall j, Store.hover (Canvas.store c) = Some j -> j < length (pensOf c)
  | HoverLine | HoverLineAnchor =>
      exists j, Store.hover (Canvas.store c) = Some j /\ j < length (pensOf c)
  | HoverLineAnchorPrev | HoverLineAnchorNext => is_Some (anchorOf c)
  | HoverResize =>
      Store.active (Canvas.store c) = [] \/ is_Some (getActiveRect c)
  | _ => True
  end.

Module SampleStray.
(** The node a selected and flagged; the node b carries the flag without
being in the selection. *)
Definition stray : Canvas.t :=
Canvas.set_activeRect (Some (RectOfPen 0))
(alterStore (Store.set_active [0])
 (Sample.canvas
  [Pen_ops.alterCalc (Calc.set_active true) (Sample.node "a" 0 0 100 50);
   Pen_ops.alterCalc (Calc.set_active true) (Sample.node "b" 150 0 40 40)])).
End SampleStray.

(** ** Observations on a run of the render scheduler *)

(** A run of calls of [render], each with its argument and clock
    reading. *)
Fixpoint renders (calls : list (RenderArg * R)) (c : Canvas.t) : Canvas.t :=
  match calls with
  | [] => c
  | (arg, clock) :: rest => renders rest (render arg clock c)
  end.

(** The times of the paints among the effects, newest first. *)
Fixpoint paintTimes (effects : list Effect) : list R :=
  match effects with
  | [] => []
  | Redraw t :: rest => t :: paintTimes rest
  | RequestFrame :: rest => paintTimes rest
  end.

(** Times, newest first, that are at least [gap] apart. *)
Fixpoint spaced (gap : R) (times : list R) : Prop :=
  match times with
  | [] => True
  | t :: rest => Forall (fun u => (gap <= t - u)%R) rest /\ spaced gap rest
  end.

(** No two paints were closer than [interval], and none is later than
    [lastRender]. *)
Definition paintsSpaced (c : Canvas.t) : Prop :=
  spaced (Store.interval (Canvas.store c)) (paintTimes (Canvas.effects c))
  /\ Forall (fun t => (t <= Canvas.lastRender c)%R) (paintTimes (Canvas.effects c)).

(** What the scheduler keeps between calls: the dirty flag, the time of the
    last paint, and the times of all paints. *)
Definition schedOf (c : Canvas.t) : bool * R * list R :=
  (Canvas.dirty c, Canvas.lastRender c, paintTimes (Canvas.effects c)).

(** One call of [render], on that state alone. *)
Definition schedStep (interval : R) (arg : RenderArg) (clock : R)
    (s : bool * R * list R) : bool * R * list R :=
  let '(d, l, ts) := s in
  let d1 := match arg with Forced => true | _ => d end in
  if negb d1 then (d1, l, ts)
  else
    let now := timeOf arg clock in
    if bool_decide (now - l < interval)%R then (d1, l, ts)
    else (false, now, now :: ts).

(** ** The other bezier handle *)

Section Handles.
Context `{H : Helpers}.

(** What [moveLineAnchorPrev] does to the anchor object: [prev] goes to
[e], and [next] follows as [prevNextType] says. *)
Definition dragPrev (e : Point.t) (prevAnchor nextAnchor : option Point.t)
(a : Point.t) : option Point.t :=
pv ← Point.prev a;
let a1 := Point.set_prev (Some (Point.move_to e pv)) a in
if prevNextType_falsy (Point.prevNextType a1) then
nx ← Point.next a1;
Some (Point.set_next
    (Some (Geometry.rotatePoint (Point.move_to e nx) (Some 180%R) a1)) a1)
else
match Point.prevNextType a1 with
| Some Bilateral =>
let rotate := calcRotate e a1 in
pa ← prevAnchor;
let prevRotate := calcRotate pa a1 in
nx ← Point.next a1;
na ← nextAnchor;
Some (Point.set_next
        (Some (Geometry.rotatePoint (Point.move_to na nx)
                 (Some (rotate - prevRotate)%R) a1)) a1)
| _ => Some a1
end.

(** [moveLineAnchorPrev(e)]. *)
Definition moveLineAnchorPrev (e : Point.t) (clock : R) (c : Canvas.t)
: option Canvas.t :=
if negb (JS.is_some (Canvas.activeRect c))
 || locked_truthy (Store.data_locked (Canvas.store c))
then Some c
else
'(i, s) ← Store.anchor (Canvas.store c);
a ← anchorOf c;
a' ← dragPrev e (Canvas.prevAnchor c) (Canvas.nextAnchor c) a;
let c1 := alterPen (Pen_ops.alterAnchor (fun _ => a') s) i c in
line ← head (Store.active (Canvas.store c1));
_ ← pensOf c1 !! line;
let c2 := alterPen (Pen_ops.alterCalc (Calc.set_dirty true)) line c1 in
Some (render Forced clock c2).
End Handles.

Module SampleHandle.
(** An anchor at (100, 100) that has a [next] handle only. *)
Definition anchor : Point.t :=
Point.mk 100 100 (Some "f") (Some "l") None None None
None (Some (Point.at_ 110 100)).

(** A selected line that starts at that anchor, the pointer over the
handle. *)
Definition hovering : Canvas.t :=
Canvas.set_hoverType HoverLineAnchorNext
(Canvas.set_activeRect (Some (RectOfPen 0))
 (alterStore
    (fun st => Store.set_anchor (Some (0, SlotFrom))
                 (Store.set_hover (Some 0) (Store.set_active [0] st)))
    (Sample.canvas
       [Pen_ops.alterCalc (Calc.set_active true)
          (Sample.line "l" anchor (Point.at_ 300 100) [])]))).

(** An anchor at (100, 100) that has a [prev] handle only. *)
Definition prevOnly : Point.t :=
Point.mk 100 100 (Some "f") (Some "l") None None None
(Some (Point.at_ 90 100)) None.

(** A selected line that starts at that anchor, the pointer over the
handle. *)
Definition hoveringPrev : Canvas.t :=
Canvas.set_hoverType HoverLineAnchorPrev
(Canvas.set_activeRect (Some (RectOfPen 0))
 (alterStore
    (fun st => Store.set_anchor (Some (0, SlotFrom))
                 (Store.set_hover (Some 0) (Store.set_active [0] st)))
    (Sample.canvas
       [Pen_ops.alterCalc (Calc.set_active true)
          (Sample.line "l" prevOnly (Point.at_ 300 100) [])]))).
End SampleHandle.

(** ** Observations on a zoom *)

(** Between two canvases the store differs in [store.data.pens] at most,
    and the number of pens is the same. *)
Definition pensOnly (c c' : Canvas.t) : Prop :=
  exists L, Canvas.store c' = Store.set_pens L (Canvas.store c)
            /\ length L = length (pensOf c).

(** ** Observations on the line that [finishDrawline] stores *)

(** The end of a line: [worldTo], the anchors before it, and the anchor
    marked active. *)
Definition lineEnd (p : Pen.t) : option Point.t * option (list Point.t) * option Slot :=
  (Calc.worldTo (Pen.calculative p), Calc.worldAnchors (Pen.calculative p),
   Calc.activeAnchor (Pen.calculative p)).

(** ** A size handle grabbed *)

Module SampleGrab.
(** The node [0, 0, 100, 50] selected alone, the pointer over its
  bottom-right handle and pressed at (100, 50). *)
Definition grabbed : Canvas.t :=
Canvas.set_hoverType HoverResize
(Canvas.set_resizeIndex 2
   (setMouseDown (Some (mkMouseEvent 100 50 false false false))
      SampleHover.selected)).
End SampleGrab.

(** ** Observations on the notifications of [getHover] *)

(** Nothing was emitted and [store.lastHover] is as before. *)
Definition quiet (c c' : Canvas.t) : Prop :=
  Store.emitted (Canvas.store c') = Store.emitted (Canvas.store c)
  /\ Store.lastHover (Canvas.store c') = Store.lastHover (Canvas.store c).

(** The events of a change of the hovered pen from [old] to [new], newest
    first: [leave] for the old pen, then [enter] for the new one. *)
Definition hoverEvents (old new : option nat) : list Event :=
  if bool_decide (old = new) then []
  else
    match new with Some k => [mkEvent "enter" (OfPen k)] | None => [] end
    ++ match old with Some j => [mkEvent "leave" (OfPen j)] | None => [] end.

(** ** Adding a pen *)

(** The write [pen.id = v]. *)
Definition setPenId (v : option string) (p : Pen.t) : Pen.t :=
  Pen.mk v (Pen.name p) (Pen.x p) (Pen.y p) (Pen.width p) (Pen.height p)
    (Pen.rotate p) (Pen.type p) (Pen.parentId p) (Pen.locked p) (Pen.visible p)
    (Pen.from p) (Pen.to p) (Pen.anchors p) (Pen.calculative p).

(** The id a pen has after [if (!pen.id) pen.id = s8()], [fresh] being
    what [s8()] returns. *)
Definition idOr (fresh : string) (p : Pen.t) : string :=
  if JS.truthy_str (Pen.id p) then default fresh (Pen.id p) else fresh.

Section Adding.
Context `{H : Helpers}.

(** [makePen(pen)].  The path cache ([pen.path], [globalStore.paths]) and
[loadImage] only feed the painting of the pen and are left out. *)
Definition makePen (pen : Pen.t) (fresh : string) (c : Canvas.t)
: option Canvas.t :=
let pen1 := setPenId (Some (idOr fresh pen)) pen in
let n := length (pensOf c) in
let c1 :=
alterStore
(fun s =>
   Store.set_pens_by_id (<[idOr fresh pen := n]> (Store.pens_by_id s))
     (Store.set_pens (Store.pens s ++ [pen1]) s))
c in
let c2 := dirtyPenRect n c1 in
c3 ← (if Pen_ops.isLine pen1 then initLineRect n c2 else Some c2);
Some (alterPen
      (fun p => if JS.truthy_num (Pen.rotate p) then p
                else Pen.set_rotate (Some 0%R) p)
      n c3).

(** [addPen(pen, edited)]; a pen that [beforeAddPen] turns down leaves the
canvas as it is. *)
Definition addPen (pen : Pen.t) (edited : bool) (fresh : string) (clock : R)
(c : Canvas.t) : option Canvas.t :=
if negb (accepts c pen) then Some c
else
c1 ← makePen pen fresh c;
let n := length (pensOf c) in
let c2 := emit "addPen" (OfPen n) (render NoArg clock c1) in
Some (if edited && negb (locked_truthy (Store.data_locked (Canvas.store c2)))
    then alterStore
           (fun s => Store.set_histories (Store.histories s ++ [mkHistory Add n]) s)
           c2
    else c2).
End Adding.

(** The pen [p'] is the pen [p] as the document holds it: the same shape
    under the id it was given, with a rotation. *)
Definition stored (fresh : string) (p p' : Pen.t) : Prop :=
  Pen.id p' = Some (idOr fresh p)
  /\ Pen.name p' = Pen.name p
  /\ Pen.type p' = Pen.type p
  /\ Pen.parentId p' = Pen.parentId p
  /\ Pen.rotate p' = Some (if JS.truthy_num (Pen.rotate p)
                           then default 0%R (Pen.rotate p) else 0%R).

(** The fields of a pen that no derived rect touches. *)
Definition penHead (p : Pen.t)
  : option string * string * option PenType * option string * option R :=
  (Pen.id p, Pen.name p, Pen.type p, Pen.parentId p, Pen.rotate p).

Module SampleAdd.
(** A node without id and without rotation, as a caller may pass it. *)
Definition bare : Pen.t :=
Pen.mk None "rectangle" 10 20 30 40 None None None None None None None None
(Calc.mk (Sample.box 10 20 30 40 None) None None None false false false None).
End SampleAdd.

(** * Properties *)

(** ** Stepping through the error monad *)

Lemma bind_Some {A B : Type} (x : A) (f : A -> option B) : Some x ≫= f = f x.
Proof. reflexivity. Qed.

(** ** Rotation *)

#[local] Arguments Geometry.rotatePoint : simpl never.

Lemma radians_0 : Geometry.radians 0 = 0%R.
Proof. unfold Geometry.radians. lra. Qed.

Lemma radians_180 : Geometry.radians 180 = PI.
Proof. unfold Geometry.radians. lra. Qed.

Lemma Point_set_xy_same (p : Point.t) (u v : R) :
  u = Point.x p -> v = Point.y p -> Point.set_y v (Point.set_x u p) = p.
Proof. intros -> ->. by destruct p. Qed.

(** Rotating by zero degrees moves nothing. *)
Lemma rotatePoint_0 (p center : Point.t) :
  Geometry.rotatePoint p (Some 0%R) center = p.
Proof.
  unfold Geometry.rotatePoint. rewrite radians_0, cos_0, sin_0.
  apply Point_set_xy_same; simpl; lra.
Qed.

(** Rotating by half a turn reflects through the centre. *)
Lemma rotatePoint_180 (p center : Point.t) :
  Geometry.rotatePoint p (Some 180%R) center
  = Point.set_y (2 * Point.y center - Point.y p)%R
      (Point.set_x (2 * Point.x center - Point.x p)%R p).
Proof.
  unfold Geometry.rotatePoint. rewrite radians_180, cos_PI, sin_PI.
  unfold Point.set_x, Point.set_y; simpl. f_equal; lra.
Qed.

(** A rotation keeps the distance to its centre. *)
Lemma rotatePoint_dist2 (p center : Point.t) (angle : option R) :
  Geometry.dist2 (Geometry.rotatePoint p angle center) center
  = Geometry.dist2 p center.
Proof.
  destruct angle as [a|]; [|done].
  unfold Geometry.dist2, Geometry.rotatePoint; simpl.
  pose proof (sin2_cos2 (Geometry.radians a)) as Hsc. unfold Rsqr in Hsc.
  set (s := sin _) in *. set (k := cos _) in *.
  set (dx := (Point.x p - Point.x center)%R).
  set (dy := (Point.y p - Point.y center)%R).
  replace ((dx * k - dy * s + Point.x center - Point.x center)
           * (dx * k - dy * s + Point.x center - Point.x center)
           + (dx * s + dy * k + Point.y center - Point.y center)
             * (dx * s + dy * k + Point.y center - Point.y center))%R
    with ((dx * dx + dy * dy) * (s * s + k * k))%R by ring.
  rewrite Hsc. ring.
Qed.

(** ** Size control points *)

Lemma sizeCPsOf_length (r : Rect.t) : length (sizeCPsOf r) = 8.
Proof. reflexivity. Qed.

(** The control points of an unrotated rect: corners clockwise from the top
    left, then the midpoints of the top, right, bottom and left edges. *)
Lemma sizeCPsOf_unrotated (r : Rect.t) :
  sizeCPsOf (Rect.set_rotate (Some 0%R) r)
  = [ Point.at_ (Rect.x r) (Rect.y r);
      Point.at_ (Rect.ex r) (Rect.y r);
      Point.at_ (Rect.ex r) (Rect.ey r);
      Point.at_ (Rect.x r) (Rect.ey r);
      Point.at_ (Rect.x r + Rect.width r * 0.5) (Rect.y r);
      Point.at_ (Rect.ex r) (Rect.y r + Rect.height r * 0.5);
      Point.at_ (Rect.x r + Rect.width r * 0.5) (Rect.ey r);
      Point.at_ (Rect.x r) (Rect.y r + Rect.height r * 0.5) ]%R.
Proof.
  unfold sizeCPsOf, Geometry.rectToPoints, edgeMidpoints; simpl.
  by rewrite !rotatePoint_0.
Qed.

(** C1, as the code has it: [getSizeCPs] leaves 8 points in [sizeCPs] (the
    rotate handle is not among them), each the point of the unrotated rect
    rotated by the rect's angle about its centre, in the order corners, then
    top, right, bottom and left midpoints. *)
Theorem getSizeCPs_rotates_unrotated (c : Canvas.t) (r : Rect.t) (theta : R) :
  getActiveRect c = Some r ->
  Rect.rotate r = Some theta ->
  exists c' cps,
    getSizeCPs c = Some c'
    /\ Canvas.sizeCPs c' = Some cps
    /\ length cps = 8
    /\ cps = map (fun pt => Geometry.rotatePoint pt (Some theta) (Rect.center r))
               (sizeCPsOf (Rect.set_rotate (Some 0%R) r))
    /\ sizeCPsOf (Rect.set_rotate (Some 0%R) r)
       = [ Point.at_ (Rect.x r) (Rect.y r);
           Point.at_ (Rect.ex r) (Rect.y r);
           Point.at_ (Rect.ex r) (Rect.ey r);
           Point.at_ (Rect.x r) (Rect.ey r);
           Point.at_ (Rect.x r + Rect.width r * 0.5) (Rect.y r);
           Point.at_ (Rect.ex r) (Rect.y r + Rect.height r * 0.5);
           Point.at_ (Rect.x r + Rect.width r * 0.5) (Rect.ey r);
           Point.at_ (Rect.x r) (Rect.y r + Rect.height r * 0.5) ]%R.
Proof.
  intros Hr Hrot. unfold getSizeCPs. rewrite Hr.
  eexists _, _. split; [reflexivity|]. split; [reflexivity|].
  split; [reflexivity|]. split; [|apply sizeCPsOf_unrotated].
  rewrite sizeCPsOf_unrotated.
  unfold sizeCPsOf, Geometry.rectToPoints, edgeMidpoints.
  by rewrite Hrot.
Qed.

Lemma getSizeCPs_rotates_unrotated_witness :
  exists c' cps,
    getSizeCPs Sample.rotated = Some c'
    /\ Canvas.sizeCPs c' = Some cps
    /\ length cps = 8
    /\ nth_error cps 4
       = Some (Geometry.rotatePoint (Point.at_ 50 0) (Some 90%R) (Point.at_ 50 25)).
Proof.
  destruct (getSizeCPs_rotates_unrotated Sample.rotated
              (Sample.box 0 0 100 50 (Some 90%R)) 90 eq_refl eq_refl)
    as (c' & cps & Hget & Hcps & Hlen & Hmap & Hzero).
  exists c', cps. repeat split; try assumption.
  rewrite Hmap, Hzero. simpl. do 2 f_equal.
  - unfold Point.at_. f_equal; lra.
  - unfold Point.at_. f_equal; lra.
Defined.

(** C1, as the claim words it, fails: the list has 8 entries, not 9. *)
Lemma getSizeCPs_not_nine :
  exists c' cps,
    getSizeCPs Sample.rotated = Some c'
    /\ Canvas.sizeCPs c' = Some cps
    /\ length cps <> 9.
Proof. eexists _, _. repeat split; try reflexivity. simpl. lia. Qed.

(** ** Render scheduler *)

(** C2, as the code has it: the [Infinity] sentinel sets the dirty flag, so
    the call is never dropped, but the interval check still applies to it:
    inside the interval the paint is left to the next animation frame,
    outside it the paint happens in the call.  A request without the
    sentinel that finds the canvas dirty inside the interval is deferred
    likewise. *)
Theorem render_forced_still_throttled (c : Canvas.t) (clock : R) :
  (throttled clock c -> deferred c (render Forced clock c))
  /\ (~ throttled clock c -> redrawnAt clock c (render Forced clock c))
  /\ (forall arg, arg <> Forced -> Canvas.dirty c = true ->
        throttled (timeOf arg clock) c -> deferred c (render arg clock c)).
Proof.
  unfold throttled, deferred, redrawnAt, render.
  split; [|split].
  - intros Hlt. cbn. rewrite bool_decide_eq_true_2 by exact Hlt. by cbn.
  - intros Hge. cbn. rewrite bool_decide_eq_false_2 by exact Hge.
    case_bool_decide; cbn; auto.
  - intros arg Harg Hdirty Hlt.
    destruct arg as [| |t]; [|done|]; rewrite Hdirty; cbn in *;
      rewrite bool_decide_eq_true_2 by exact Hlt; by cbn.
Qed.

Lemma render_forced_still_throttled_witness :
  deferred SampleRender.painted (render Forced 110 SampleRender.painted)
  /\ redrawnAt 200 SampleRender.painted (render Forced 200 SampleRender.painted)
  /\ deferred SampleRender.stale (render NoArg 110 SampleRender.stale).
Proof.
  split; [|split].
  - apply (proj1 (render_forced_still_throttled SampleRender.painted 110)).
    unfold throttled; cbn; lra.
  - apply (proj1 (proj2 (render_forced_still_throttled SampleRender.painted 200))).
    unfold throttled; cbn; lra.
  - apply (proj2 (proj2 (render_forced_still_throttled SampleRender.stale 110)));
      [done|done|]. unfold throttled; cbn; lra.
Defined.

(** C2, as the claim words it, fails: 10 ms after a paint a forced request
    is not painted but left to the next frame, and a request without the
    sentinel on a clean canvas is dropped, not deferred. *)
Lemma render_forced_deferred_by_interval :
  Canvas.effects (render Forced 110 SampleRender.painted) = [RequestFrame]
  /\ Canvas.lastRender (render Forced 110 SampleRender.painted) = 100%R
  /\ render NoArg 110 SampleRender.painted = SampleRender.painted.
Proof.
  unfold render. cbn.
  rewrite bool_decide_eq_true_2 by lra. by cbn.
Qed.

(** ** Active rect *)

#[local] Arguments sizeCPsOf : simpl never.

Lemma pensOf_alterPen (f : Pen.t -> Pen.t) (i : nat) (c : Canvas.t) :
  pensOf (alterPen f i c) = alter f i (pensOf c).
Proof. reflexivity. Qed.

Lemma getActiveRect_modActiveRect (f : Rect.t -> Rect.t) (r : Rect.t) (c : Canvas.t) :
  getActiveRect c = Some r ->
  getActiveRect (modActiveRect f c) = Some (f r).
Proof.
  unfold getActiveRect, modActiveRect.
  destruct (Canvas.activeRect c) as [[i|r0]|] eqn:Har; [| |done].
  - destruct (pensOf c !! i) as [p|] eqn:Hp; [|done].
    intros [= <-]. cbn. rewrite Har.
    change (Store.pens (Canvas.store c)) with (pensOf c).
    by rewrite list_lookup_alter_eq, Hp. 
  - intros [= <-]. by cbn.
Qed.

Lemma getActiveRect_own (r : Rect.t) (c : Canvas.t) :
  Canvas.activeRect c = Some (RectOwn r) -> getActiveRect c = Some r.
Proof. unfold getActiveRect. by intros ->. Qed.

Lemma getActiveRect_ofPen (i : nat) (p : Pen.t) (c : Canvas.t) :
  Canvas.activeRect c = Some (RectOfPen i) ->
  pensOf c !! i = Some p ->
  getActiveRect c = Some (Calc.worldRect (Pen.calculative p)).
Proof. unfold getActiveRect. by intros -> ->. Qed.

(** C6: on a single selection the active rect is the pen's world rect
    object, with the pen's rotation and an unchanged box; on any other
    selection its rotation is 0, whatever the rotations of its members. *)
Theorem calcActiveRect_rotation `{Helpers} (c : Canvas.t) :
  (forall i p,
      Store.active (Canvas.store c) = [i] ->
      pensOf c !! i = Some p ->
      exists c' p' r',
        calcActiveRect c = Some c'
        /\ Canvas.activeRect c' = Some (RectOfPen i)
        /\ pensOf c' !! i = Some p'
        /\ Calc.worldRect (Pen.calculative p') = r'
        /\ getActiveRect c' = Some r'
        /\ Rect.rotate r' = Pen.rotate p
        /\ Pen.rotate p' = Pen.rotate p
        /\ (Rect.x r', Rect.y r', Rect.ex r', Rect.ey r', Rect.width r', Rect.height r')
           = let w := Calc.worldRect (Pen.calculative p) in
             (Rect.x w, Rect.y w, Rect.ex w, Rect.ey w, Rect.width w, Rect.height w))
  /\ (length (Store.active (Canvas.store c)) <> 1 ->
      Forall (fun i => i < length (pensOf c)) (Store.active (Canvas.store c)) ->
      exists c' r',
        calcActiveRect c = Some c'
        /\ getActiveRect c' = Some r'
        /\ Rect.rotate r' = Some 0%R).
Proof.
  split.
  - intros i p Hact Hp. unfold calcActiveRect. rewrite Hact, Hp.
    cbn [mbind option_bind]. unfold getSizeCPs.
    set (f := fun r => Geometry.calcCenter (Rect.set_rotate (Pen.rotate p) r)).
    set (c0 := Canvas.set_activeRect (Some (RectOfPen i)) c).
    assert (Hr0 : getActiveRect c0 = Some (Calc.worldRect (Pen.calculative p))).
    { apply (getActiveRect_ofPen i); [reflexivity|exact Hp]. }
    pose proof (getActiveRect_modActiveRect f _ _ Hr0) as Hr1.
    change (getActiveRect (Canvas.set_lastRotate 0 (modActiveRect f c0)))
      with (getActiveRect (modActiveRect f c0)).
    rewrite Hr1. cbn [mbind option_bind].
    eexists _, (Pen_ops.alterCalc (Calc.set_worldRect (f (Calc.worldRect (Pen.calculative p)))) p), _.
    split; [reflexivity|]. split; [reflexivity|].
    split.
    { change (alter (Pen_ops.alterCalc
                       (fun k => Calc.set_worldRect (f (Calc.worldRect k)) k)) i (pensOf c) !! i
              = Some (Pen_ops.alterCalc
                        (Calc.set_worldRect (f (Calc.worldRect (Pen.calculative p)))) p)).
      by rewrite list_lookup_alter_eq, Hp. }
    split; [reflexivity|]. split; [exact Hr1|]. done.
  - intros Hlen Hall.
    assert (Hps : is_Some (mapM (fun i => pensOf c !! i) (Store.active (Canvas.store c)))).
    { apply mapM_is_Some. eapply Forall_impl; [exact Hall|].
      intros i Hi. by apply lookup_lt_is_Some_2. }
    destruct Hps as [ps Hps]. unfold calcActiveRect.
    destruct (Store.active (Canvas.store c)) as [|i [|j l]] eqn:Hact;
      [|done|]; rewrite Hps; cbn [mbind option_bind];
      eexists _, _; (split; [reflexivity|]); done.
Qed.

Lemma calcActiveRect_rotation_witness :
  (exists c' r',
      calcActiveRect (H := Sample.helpers) SampleSelect.one = Some c'
      /\ Canvas.activeRect c' = Some (RectOfPen 0)
      /\ getActiveRect c' = Some r'
      /\ Rect.rotate r' = Some 30%R)
  /\ (exists c' r',
      calcActiveRect (H := Sample.helpers) SampleSelect.two = Some c'
      /\ getActiveRect c' = Some r'
      /\ Rect.rotate r' = Some 0%R).
Proof.
  split.
  - destruct (proj1 (calcActiveRect_rotation (H := Sample.helpers) SampleSelect.one)
                0 SampleSelect.tilted eq_refl eq_refl)
      as (c' & p' & r' & Hc & Har & _ & _ & Hr & Hrot & _).
    exists c', r'. repeat split; assumption.
  - apply (proj2 (calcActiveRect_rotation (H := Sample.helpers) SampleSelect.two)).
    + cbn. lia.
    + repeat constructor.
Defined.

(** ** Zoom bounds *)

(** C10: a zoom factor below [minScale] or above [maxScale] leaves the whole
    canvas as it was: scale, pan offset, pens, active rect and emitted
    events. *)
Theorem scale_out_of_bounds_noop `{Helpers} (s : R) (center : option Point.t)
    (clock : R) (c : Canvas.t) :
  (s < Store.minScale (Canvas.store c) \/ s > Store.maxScale (Canvas.store c))%R ->
  scale s center clock c = Some c.
Proof.
  intros Hout. unfold scale.
  destruct Hout as [Hlo|Hhi].
  - by rewrite (bool_decide_eq_true_2 _ Hlo).
  - rewrite (bool_decide_eq_true_2 (s > _)%R Hhi). by rewrite orb_true_r.
Qed.

Lemma scale_out_of_bounds_noop_witness :
  scale (H := Sample.helpers) 20 None 0 SampleSelect.two = Some SampleSelect.two
  /\ scale (H := Sample.helpers) (1 / 1000) (Some (Point.at_ 5 5)) 0 SampleSelect.two
     = Some SampleSelect.two.
Proof.
  split; apply scale_out_of_bounds_noop; cbn; lra.
Defined.

(** ** Bezier handles *)

(** [render] only touches the scheduler's own fields. *)
Lemma render_frame (arg : RenderArg) (clock : R) (c : Canvas.t) :
  Canvas.store (render arg clock c) = Canvas.store c
  /\ Canvas.activeRect (render arg clock c) = Canvas.activeRect c
  /\ Canvas.prevAnchor (render arg clock c) = Canvas.prevAnchor c
  /\ Canvas.nextAnchor (render arg clock c) = Canvas.nextAnchor c
  /\ Canvas.sizeCPs (render arg clock c) = Canvas.sizeCPs c
  /\ Canvas.drawingLine (render arg clock c) = Canvas.drawingLine c.
Proof.
  unfold render.
  destruct arg; cbn; repeat (case_match; cbn); done.
Qed.

Lemma render_store (arg : RenderArg) (clock : R) (c : Canvas.t) :
  Canvas.store (render arg clock c) = Canvas.store c.
Proof. apply render_frame. Qed.

Lemma anchorAt_alterAnchor (f : Point.t -> Point.t) (s : Slot) (p : Pen.t) (a : Point.t) :
  Pen_ops.anchorAt p s = Some a ->
  Pen_ops.anchorAt (Pen_ops.alterAnchor f s p) s = Some (f a).
Proof.
  destruct s as [| |k]; cbn.
  - by intros ->.
  - by intros ->.
  - destruct (Calc.worldAnchors (Pen.calculative p)) as [l|]; [|done]. cbn.
    intros Hk. by rewrite list_lookup_alter_eq, Hk.
Qed.

Lemma anchorAt_alterCalc_dirty (b : bool) (s : Slot) (p : Pen.t) :
  Pen_ops.anchorAt (Pen_ops.alterCalc (Calc.set_dirty b) p) s = Pen_ops.anchorAt p s.
Proof. by destruct s. Qed.

(** The mirror branch of [dragNext]. *)
Lemma dragNext_mirror `{Helpers} (e : Point.t) (pa na : option Point.t)
    (a nx pv : Point.t) :
  prevNextType_falsy (Point.prevNextType a) = true ->
  Point.next a = Some nx ->
  Point.prev a = Some pv ->
  let a1 := Point.set_next (Some (Point.move_to e nx)) a in
  dragNext e pa na a
  = Some (Point.set_prev
            (Some (Geometry.rotatePoint (Point.move_to e pv) (Some 180%R) a1)) a1).
Proof.
  intros Hty Hnx Hpv a1. unfold dragNext. rewrite Hnx. cbn.
  rewrite Hty, Hpv. reflexivity.
Qed.

(** The bilateral branch of [dragNext]. *)
Lemma dragNext_bilateral `{Helpers} (e : Point.t) (pa na a nx pv : Point.t) :
  Point.prevNextType a = Some Bilateral ->
  Point.next a = Some nx ->
  Point.prev a = Some pv ->
  let a1 := Point.set_next (Some (Point.move_to e nx)) a in
  dragNext e (Some pa) (Some na) a
  = Some (Point.set_prev
            (Some (Geometry.rotatePoint (Point.move_to pa pv)
                     (Some (calcRotate e a1 - calcRotate na a1)%R) a1)) a1).
Proof.
  intros Hty Hnx Hpv a1. unfold dragNext. rewrite Hnx. cbn.
  rewrite Hty, Hpv. reflexivity.
Qed.

(** One call of [moveLineAnchorNext] writes the anchor [dragNext] computes
    and keeps the canvas ready for the next call, snapshots included. *)
Lemma moveLineAnchorNext_step `{Helpers} (e : Point.t) (clock : R) (c : Canvas.t)
    (i : nat) (s : Slot) (a a' : Point.t) :
  dragReady c i s a ->
  dragNext e (Canvas.prevAnchor c) (Canvas.nextAnchor c) a = Some a' ->
  exists c',
    moveLineAnchorNext e clock c = Some c'
    /\ dragReady c' i s a'
    /\ Canvas.prevAnchor c' = Canvas.prevAnchor c
    /\ Canvas.nextAnchor c' = Canvas.nextAnchor c.
Proof.
  intros (Har & Hlock & Hanc & Ha & line & Hline & Hlt) Hdrag.
  unfold moveLineAnchorNext. rewrite Har, Hlock, Hanc. cbn [negb orb mbind option_bind].
  rewrite Ha. cbn [mbind option_bind]. rewrite Hdrag. cbn [mbind option_bind].
  set (c1 := alterPen _ i c).
  assert (Hact1 : Store.active (Canvas.store c1) = Store.active (Canvas.store c)) by done.
  rewrite Hact1, Hline. cbn [mbind option_bind].
  assert (Hlen1 : length (pensOf c1) = length (pensOf c)).
  { unfold c1. by rewrite pensOf_alterPen, length_alter. }
  destruct (lookup_lt_is_Some_2 (pensOf c1) line) as [q Hq]; [lia|].
  rewrite Hq. cbn [mbind option_bind].
  eexists. split; [reflexivity|].
  set (c2 := alterPen _ line c1).
  destruct (render_frame Forced clock c2) as (Hst & Hrect & Hpa & Hna & _).
  assert (Hanchor : anchorOf c2 = Some a').
  { unfold anchorOf in *. rewrite Hanc in Ha. cbn in Ha.
    change (Store.anchor (Canvas.store c2)) with (Store.anchor (Canvas.store c)).
    rewrite Hanc. cbn.
    destruct (pensOf c !! i) as [pen|] eqn:Hpen; [|done]. cbn in Ha.
    change (Store.pens (Canvas.store c)) with (pensOf c).
    destruct (decide (line = i)) as [->|Hne].
    - rewrite !list_lookup_alter_eq, Hpen. cbn.
      rewrite anchorAt_alterCalc_dirty. exact (anchorAt_alterAnchor (fun _ => a') s pen a Ha).
    - rewrite list_lookup_alter_ne by done. rewrite list_lookup_alter_eq, Hpen. cbn.
      exact (anchorAt_alterAnchor (fun _ => a') s pen a Ha). }
  split; [|by rewrite Hpa, Hna].
  unfold dragReady. rewrite Hrect.
  unfold anchorOf, pensOf in *. rewrite Hst.
  split; [exact Har|]. split; [exact Hlock|]. split; [exact Hanc|].
  split; [exact Hanchor|].
  exists line. split; [exact Hline|].
  unfold c2, c1. cbn. rewrite !length_alter. exact Hlt.
Qed.

Lemma sameCoords_move_to (e p : Point.t) : sameCoords (Point.move_to e p) e.
Proof. by split. Qed.

Lemma sameCoords_set_handles (a : Point.t) (u v : option Point.t) :
  sameCoords (Point.set_prev u (Point.set_next v a)) a.
Proof. by split. Qed.

(** The result of a rotation depends on coordinates only. *)
Lemma rotatePoint_sameCoords (p p' c c' : Point.t) (angle : option R) :
  sameCoords p p' -> sameCoords c c' ->
  sameCoords (Geometry.rotatePoint p angle c) (Geometry.rotatePoint p' angle c').
Proof.
  intros [Hx Hy] [Hcx Hcy]. destruct angle as [d|]; [|by split].
  unfold sameCoords, Geometry.rotatePoint. cbn. by rewrite Hx, Hy, Hcx, Hcy.
Qed.

Lemma dist2_sameCoords (p p' q q' : Point.t) :
  sameCoords p p' -> sameCoords q q' -> Geometry.dist2 p q = Geometry.dist2 p' q'.
Proof. intros [Hx Hy] [Hqx Hqy]. unfold Geometry.dist2. by rewrite Hx, Hy, Hqx, Hqy. Qed.

(** C7, as the code has it: with [prevNextType] unset (or [Mirror]), on an
    anchor that has both a [next] and a [prev] handle, dragging [next] to
    [e] puts [next] at [e] and [prev] at [e] rotated by 180 degrees about
    the anchor, that is at [2 * anchor - e]; the anchor itself stays. *)
Theorem moveLineAnchorNext_mirrors_prev `{Helpers} (e : Point.t) (clock : R)
    (c : Canvas.t) (i : nat) (s : Slot) (a nx pv : Point.t) :
  dragReady c i s a ->
  prevNextType_falsy (Point.prevNextType a) = true ->
  Point.next a = Some nx ->
  Point.prev a = Some pv ->
  exists c' a' nx' pv',
    moveLineAnchorNext e clock c = Some c'
    /\ anchorOf c' = Some a'
    /\ sameCoords a' a
    /\ Point.next a' = Some nx' /\ sameCoords nx' e
    /\ Point.prev a' = Some pv'
    /\ sameCoords pv' (Geometry.rotatePoint e (Some 180%R) a)
    /\ Point.x pv' = (2 * Point.x a - Point.x e)%R
    /\ Point.y pv' = (2 * Point.y a - Point.y e)%R.
Proof.
  intros Hready Hty Hnx Hpv.
  pose proof (dragNext_mirror e (Canvas.prevAnchor c) (Canvas.nextAnchor c)
                a nx pv Hty Hnx Hpv) as Hdrag. cbn zeta in Hdrag.
  destruct (moveLineAnchorNext_step e clock c i s a _ Hready Hdrag)
    as (c' & Hmove & (_ & _ & _ & Hanchor & _) & _).
  eexists c', _, _, _. split; [exact Hmove|]. split; [exact Hanchor|].
  split; [apply sameCoords_set_handles|].
  split; [reflexivity|]. split; [apply sameCoords_move_to|].
  split; [reflexivity|].
  split.
  { apply rotatePoint_sameCoords; [apply sameCoords_move_to|done]. }
  rewrite rotatePoint_180. cbn. split; reflexivity.
Qed.

Lemma moveLineAnchorNext_mirrors_prev_witness :
  exists c' a' pv',
    moveLineAnchorNext (H := Sample.helpers) (Point.at_ 120 80) 0
      (SampleCurve.hovering None) = Some c'
    /\ anchorOf c' = Some a'
    /\ Point.prev a' = Some pv'
    /\ Point.x pv' = 80%R /\ Point.y pv' = 120%R.
Proof.
  destruct (moveLineAnchorNext_mirrors_prev (H := Sample.helpers)
              (Point.at_ 120 80) 0 (SampleCurve.hovering None) 0 SlotFrom
              (SampleCurve.anchor None) (Point.at_ 110 100) (Point.at_ 90 100))
    as (c' & a' & nx' & pv' & Hmove & Hanchor & _ & _ & _ & Hprev & _ & Hx & Hy).
  - repeat split; try reflexivity. exists 0. split; [reflexivity|cbn; lia].
  - reflexivity.
  - reflexivity.
  - reflexivity.
  - exists c', a', pv'. repeat split; try assumption.
    + rewrite Hx. cbn. lra.
    + rewrite Hy. cbn. lra.
Defined.

(** C7, as the claim words it, fails: an anchor at (100, 100) whose
    [prevNextType] is unset and which has a [next] handle only.  [inAnchor]
    reports [LineAnchorNext] over that handle, and dragging it to (120, 80)
    raises at the write [anchor.prev.x = e.x] instead of placing a [prev]. *)
Lemma moveLineAnchorNext_mirror_without_prev :
  Point.prevNextType SampleHandle.anchor = None
  /\ Point.prev SampleHandle.anchor = None
  /\ anchorOf SampleHandle.hovering = Some SampleHandle.anchor
  /\ fst (inAnchor (H := Sample.helpers) (Point.at_ 110 100) 0 SlotFrom
            SampleHandle.hovering)
     = HoverLineAnchorNext
  /\ moveLineAnchorNext (H := Sample.helpers) (Point.at_ 120 80) 0
       SampleHandle.hovering = None.
Proof.
  split; [reflexivity|]. split; [reflexivity|]. split; [reflexivity|]. split.
  - unfold inAnchor. cbn. unfold hitPoint. cbn.
    unfold Sample.squareHit. cbn.
    rewrite (bool_decide_eq_false_2 (Rabs (110 - 100) < 8)%R).
    2:{ rewrite Rabs_right; lra. }
    rewrite !bool_decide_eq_true_2; [reflexivity|..].
    all: first [reflexivity | rewrite Rabs_right; lra].
  - reflexivity.
Qed.

Lemma dragReady_frame (c c' : Canvas.t) (i : nat) (s : Slot) (a : Point.t) :
  Canvas.store c' = Canvas.store c ->
  Canvas.activeRect c' = Canvas.activeRect c ->
  dragReady c i s a -> dragReady c' i s a.
Proof.
  intros Hst Har. unfold dragReady, anchorOf, pensOf. by rewrite Hst, Har.
Qed.

(** The snapshot [onMouseDown] takes over a next handle. *)
Lemma mouseDownSwitch_snapshot `{Helpers} (down : MouseEvent) (clock : R)
    (c : Canvas.t) (i : nat) (s : Slot) (a : Point.t) :
  Canvas.hoverType c = HoverLineAnchorNext ->
  dragReady c i s a ->
  exists c1,
    mouseDownSwitch down clock c = Some c1
    /\ dragReady c1 i s a
    /\ Canvas.prevAnchor c1 = Point.prev a
    /\ Canvas.nextAnchor c1 = Point.next a.
Proof.
  intros Hhov Hready. unfold mouseDownSwitch. rewrite Hhov.
  destruct Hready as (Har & Hlock & Hanc & Ha & Hline).
  rewrite Ha. cbn [mbind option_bind].
  eexists. split; [reflexivity|].
  set (c0 := Canvas.set_nextAnchor _ _).
  destruct (render_frame NoArg clock c0) as (Hst & Hrect & Hpa & Hna & _).
  split; [|by rewrite Hpa, Hna].
  eapply dragReady_frame; [exact Hst|exact Hrect|].
  by repeat split.
Qed.

(** One move of a bilateral drag: [prev] lands where the snapshot of [prev]
    goes under the rotation by the angle [next] has turned since the
    snapshot. *)
Lemma bilateral_step `{Helpers} (e : Point.t) (clock : R) (c : Canvas.t)
    (i : nat) (s : Slot) (a0 pv0 nx0 ac : Point.t) :
  bilateralDrag c i s a0 pv0 nx0 ac ->
  exists c' a1 a' pv',
    moveLineAnchorNext e clock c = Some c'
    /\ bilateralDrag c' i s a0 pv0 nx0 a'
    /\ sameCoords a1 a0
    /\ Point.prev a' = Some pv'
    /\ sameCoords pv'
         (Geometry.rotatePoint pv0 (Some (calcRotate e a1 - calcRotate nx0 a1)%R) a0).
Proof.
  intros (Hready & Hco & Hty & [pv Hpv] & [nx Hnx] & Hpa & Hna).
  pose proof (dragNext_bilateral e pv0 nx0 ac nx pv Hty Hnx Hpv) as Hdrag.
  cbn zeta in Hdrag. rewrite <- Hpa, <- Hna in Hdrag.
  destruct (moveLineAnchorNext_step e clock c i s ac _ Hready Hdrag)
    as (c' & Hmove & Hready' & Hpa' & Hna').
  eexists c', (Point.set_next (Some (Point.move_to e nx)) ac), _, _.
  split; [exact Hmove|]. split.
  { split; [exact Hready'|]. split; [exact Hco|]. split; [by destruct ac|].
    split; [by eexists|]. split; [by eexists|].
    by rewrite Hpa', Hna'. }
  split; [exact Hco|]. split; [reflexivity|].
  apply rotatePoint_sameCoords; [apply sameCoords_move_to|exact Hco].
Qed.

Lemma bilateral_moves `{Helpers} (moves : list (Point.t * R)) (c : Canvas.t)
    (i : nat) (s : Slot) (a0 pv0 nx0 ac : Point.t) :
  bilateralDrag c i s a0 pv0 nx0 ac ->
  exists c' ac', dragNextMoves moves c = Some c' /\ bilateralDrag c' i s a0 pv0 nx0 ac'.
Proof.
  revert c ac. induction moves as [|[e clock] rest IH]; intros c ac Hinv.
  - by exists c, ac.
  - destruct (bilateral_step e clock c i s a0 pv0 nx0 ac Hinv)
      as (c1 & _ & a1 & _ & Hmove & Hinv1 & _).
    destruct (IH c1 a1 Hinv1) as (c' & ac' & Hrest & Hinv').
    exists c', ac'. split; [|exact Hinv']. cbn. by rewrite Hmove.
Qed.

Lemma dragNextMoves_app `{Helpers} (l1 l2 : list (Point.t * R)) (c : Canvas.t) :
  dragNextMoves (l1 ++ l2) c = dragNextMoves l1 c ≫= dragNextMoves l2.
Proof.
  revert c. induction l1 as [|[e clock] rest IH]; intros c; [done|].
  cbn. destruct (moveLineAnchorNext e clock c) as [c1|]; [|done]. cbn. apply IH.
Qed.

(** C8: in a bilateral drag, after pointer down over the next handle and any
    number of moves, [prev] is at the place the snapshot of [prev] taken at
    pointer down reaches under the rotation about the anchor by the angle
    between the last sample and the snapshot of [next]; its distance to the
    anchor is the one it had at pointer down. *)
Theorem bilateral_drag_rotates_snapshot `{Helpers} (down : MouseEvent)
    (clock0 : R) (c0 : Canvas.t) (i : nat) (s : Slot) (a pv0 nx0 : Point.t)
    (moves : list (Point.t * R)) (e : Point.t) (clock : R) :
  Canvas.hoverType c0 = HoverLineAnchorNext ->
  dragReady c0 i s a ->
  Point.prevNextType a = Some Bilateral ->
  Point.prev a = Some pv0 ->
  Point.next a = Some nx0 ->
  exists c1 c' a1 a' pv',
    mouseDownSwitch down clock0 c0 = Some c1
    /\ Canvas.prevAnchor c1 = Some pv0
    /\ Canvas.nextAnchor c1 = Some nx0
    /\ dragNextMoves (moves ++ [(e, clock)]) c1 = Some c'
    /\ anchorOf c' = Some a'
    /\ sameCoords a' a
    /\ sameCoords a1 a
    /\ Point.prev a' = Some pv'
    /\ sameCoords pv'
         (Geometry.rotatePoint pv0 (Some (calcRotate e a1 - calcRotate nx0 a1)%R) a)
    /\ Geometry.dist2 pv' a' = Geometry.dist2 pv0 a.
Proof.
  intros Hhov Hready Hty Hpv Hnx.
  destruct (mouseDownSwitch_snapshot down clock0 c0 i s a Hhov Hready)
    as (c1 & Hdown & Hready1 & Hpa & Hna).
  rewrite Hpv in Hpa. rewrite Hnx in Hna.
  assert (Hinv1 : bilateralDrag c1 i s a pv0 nx0 a).
  { split; [exact Hready1|]. split; [done|]. split; [exact Hty|].
    split; [by eexists|]. split; [by eexists|]. done. }
  destruct (bilateral_moves moves c1 i s a pv0 nx0 a Hinv1)
    as (c2 & a2 & Hmoves & Hinv2).
  destruct (bilateral_step e clock c2 i s a pv0 nx0 a2 Hinv2)
    as (c' & a1 & a' & pv' & Hlast & Hinv' & Hco1 & Hprev & Hrot).
  exists c1, c', a1, a', pv'.
  destruct Hinv' as ((_ & _ & _ & Hanchor & _) & Hco' & _).
  split; [exact Hdown|]. split; [exact Hpa|]. split; [exact Hna|].
  split.
  { rewrite dragNextMoves_app, Hmoves. cbn. by rewrite Hlast. }
  split; [exact Hanchor|]. split; [exact Hco'|]. split; [exact Hco1|].
  split; [exact Hprev|]. split; [exact Hrot|].
  rewrite (dist2_sameCoords _ _ _ _ Hrot Hco').
  apply rotatePoint_dist2.
Qed.

Lemma radians_90 : Geometry.radians 90 = (PI / 2)%R.
Proof. unfold Geometry.radians. lra. Qed.

Lemma bilateral_drag_rotates_snapshot_witness :
  exists c1 c' a' pv',
    mouseDownSwitch (H := Sample.helpers) SampleCurve.down 0
      (SampleCurve.hovering (Some Bilateral)) = Some c1
    /\ dragNextMoves (H := Sample.helpers)
         [(Point.at_ 105 110, 0%R); (Point.at_ 100 120, 0%R)] c1 = Some c'
    /\ anchorOf c' = Some a'
    /\ Point.prev a' = Some pv'
    /\ Point.x pv' = 100%R /\ Point.y pv' = 90%R
    /\ Geometry.dist2 pv' a' = 100%R.
Proof.
  destruct (bilateral_drag_rotates_snapshot (H := Sample.helpers)
              SampleCurve.down 0 (SampleCurve.hovering (Some Bilateral))
              0 SlotFrom (SampleCurve.anchor (Some Bilateral))
              (Point.at_ 90 100) (Point.at_ 110 100)
              [(Point.at_ 105 110, 0%R)] (Point.at_ 100 120) 0)
    as (c1 & c' & a1 & a' & pv' & Hdown & _ & _ & Hmoves & Hanchor & _
        & [Hx1 Hy1] & Hprev & [Hx Hy] & Hdist).
  - reflexivity.
  - repeat split; try reflexivity. exists 0. split; [reflexivity|cbn; lia].
  - reflexivity.
  - reflexivity.
  - reflexivity.
  - assert (Hdelta : (calcRotate (Helpers := Sample.helpers) (Point.at_ 100 120) a1
                      - calcRotate (Helpers := Sample.helpers) (Point.at_ 110 100) a1
                      = 90)%R).
    { cbn [calcRotate Sample.helpers]. unfold Sample.axisRotate.
      rewrite Hx1, Hy1. cbn [Point.x Point.y Point.at_ SampleCurve.anchor].
      rewrite (bool_decide_eq_true_2 (100 = 100)%R) by lra.
      rewrite (bool_decide_eq_false_2 (120 <= 100)%R) by lra.
      rewrite (bool_decide_eq_false_2 (110 = 100)%R) by lra.
      rewrite (bool_decide_eq_false_2 (110 < 100)%R) by lra.
      lra. }
    rewrite Hdelta in Hx, Hy.
    unfold Geometry.rotatePoint in Hx, Hy. rewrite radians_90, cos_PI2, sin_PI2 in Hx, Hy.
    cbn in Hx, Hy, Hdist.
    exists c1, c', a', pv'. repeat split; try assumption; try lra.
    rewrite Hdist. unfold Geometry.dist2. cbn. lra.
Defined.

(** ** Finishing a line *)

Lemma Canvas_eta (c : Canvas.t) :
  Canvas.set_store (Store.set_pens (pensOf c) (Canvas.store c)) c = c.
Proof. destruct c as [st]. by destruct st. Qed.

(** A sweep of writes into pens changes [store.data.pens] only, and not its
    length. *)
Lemma foldl_alterPen_shape (f : Pen.t -> Pen.t) (l : list nat) (c : Canvas.t) :
  exists L,
    foldl (fun c i => alterPen f i c) c l
    = Canvas.set_store (Store.set_pens L (Canvas.store c)) c
    /\ length L = length (pensOf c).
Proof.
  revert c. induction l as [|i l IH]; intros c.
  - exists (pensOf c). by rewrite Canvas_eta.
  - destruct (IH (alterPen f i c)) as (L & HL & Hlen).
    exists L. split; [exact HL|].
    by rewrite Hlen, pensOf_alterPen, length_alter.
Qed.

Lemma closeLine_uncommitted `{Helpers} (dl : Pen.t) :
  toConnected dl = false ->
  Calc.worldAnchors (Pen.calculative dl) = Some [] ->
  closeLine false dl = Some None.
Proof.
  intros Hcon Hanch. unfold closeLine.
  change (toConnected (Pen_ops.alterCalc _ _)) with (toConnected dl).
  rewrite Hcon. cbn [negb andb]. unfold popWorldTo.
  cbn. by rewrite Hanch.
Qed.

Lemma closeLine_committed `{Helpers} (end_ : bool) (dl : Pen.t) :
  committed end_ dl ->
  is_Some (Calc.worldFrom (Pen.calculative dl)) ->
  (end_ = true -> is_Some (Calc.worldTo (Pen.calculative dl))) ->
  exists dl',
    closeLine end_ dl = Some (Some dl')
    /\ is_Some (Calc.worldFrom (Pen.calculative dl'))
    /\ is_Some (Calc.worldTo (Pen.calculative dl')).
Proof.
  intros Hcom Hfrom Hto. unfold closeLine.
  change (toConnected (Pen_ops.alterCalc _ _)) with (toConnected dl).
  destruct (negb end_ && negb (toConnected dl)) eqn:Hguard.
  - apply andb_true_iff in Hguard as [Hend Hcon].
    apply negb_true_iff in Hend, Hcon.
    destruct Hcom as [->|[Hc|(l & a & Hanch)]]; [done|congruence|].
    unfold popWorldTo. cbn. rewrite Hanch. cbn. rewrite last_snoc. cbn.
    eexists. split; [reflexivity|]. cbn. split; [exact Hfrom|by eexists].
  - eexists. split; [reflexivity|]. cbn. split; [exact Hfrom|].
    apply andb_false_iff in Hguard as [Hend|Hcon].
    + apply Hto. by destruct end_.
    + apply negb_false_iff in Hcon. unfold toConnected in Hcon.
      destruct (Calc.worldTo (Pen.calculative dl)); [by eexists|done].
Qed.

Lemma initLineRect_pen_Some `{Helpers} (p : Pen.t) :
  is_Some (Calc.worldFrom (Pen.calculative p)) ->
  is_Some (Calc.worldTo (Pen.calculative p)) ->
  is_Some (initLineRect_pen p).
Proof.
  intros [wf Hwf] [wt Hwt]. unfold initLineRect_pen. cbn.
  rewrite Hwf. cbn. rewrite Hwt. cbn. by eexists.
Qed.

(** The single-selection branch of [calcActiveRect], in full. *)
Lemma calcActiveRect_single `{Helpers} (c : Canvas.t) (i : nat) (p : Pen.t) :
  Store.active (Canvas.store c) = [i] ->
  pensOf c !! i = Some p ->
  calcActiveRect c
  = let f := fun r => Geometry.calcCenter (Rect.set_rotate (Pen.rotate p) r) in
    let c1 := modActiveRect f (Canvas.set_activeRect (Some (RectOfPen i)) c) in
    Some (Canvas.set_sizeCPs
            (Some (sizeCPsOf (f (Calc.worldRect (Pen.calculative p)))))
            (Canvas.set_lastRotate 0%R c1)).
Proof.
  intros Hact Hp. unfold calcActiveRect. rewrite Hact, Hp.
  cbn [mbind option_bind]. unfold getSizeCPs.
  set (f := fun r => Geometry.calcCenter (Rect.set_rotate (Pen.rotate p) r)).
  set (c0 := Canvas.set_activeRect (Some (RectOfPen i)) c).
  assert (Hr0 : getActiveRect c0 = Some (Calc.worldRect (Pen.calculative p))).
  { apply (getActiveRect_ofPen i); [reflexivity|exact Hp]. }
  pose proof (getActiveRect_modActiveRect f _ _ Hr0) as Hr1.
  change (getActiveRect (Canvas.set_lastRotate 0 (modActiveRect f c0)))
    with (getActiveRect (modActiveRect f c0)).
  by rewrite Hr1.
Qed.

(** Selecting one pen that exists changes no list but [emitted], which
    gains the [active] event. *)
Lemma active_one `{Helpers} (n : nat) (c : Canvas.t) :
  n < length (pensOf c) ->
  exists c',
    active [n] c = Some c'
    /\ length (pensOf c') = length (pensOf c)
    /\ Store.emitted (Canvas.store c')
       = mkEvent "active" (OfPens [n]) :: Store.emitted (Canvas.store c)
    /\ Store.histories (Canvas.store c') = Store.histories (Canvas.store c)
    /\ Canvas.drawingLineName c' = Canvas.drawingLineName c.
Proof.
  intros Hn. unfold active, clearActiveFlags.
  destruct (foldl_alterPen_shape (Pen_ops.alterCalc (Calc.set_active false))
              (Store.active (Canvas.store c)) c) as (L & -> & Hlen).
  set (c4 := alterStore _ _).
  destruct (lookup_lt_is_Some_2 (pensOf c4) n) as [q Hq].
  { unfold c4. cbn. rewrite length_alter. lia. }
  rewrite (calcActiveRect_single c4 n q eq_refl Hq). cbn [mbind option_bind].
  eexists. split; [reflexivity|]. cbn. rewrite !length_alter.
  by rewrite Hlen.
Qed.

(** Storing a line that has both ends adds one pen, one [addPen] event and
    one history record. *)
Lemma addLine_adds_one `{Helpers} (dl : Pen.t) (c : Canvas.t) :
  is_Some (Calc.worldFrom (Pen.calculative dl)) ->
  is_Some (Calc.worldTo (Pen.calculative dl)) ->
  exists c', addLine dl c = Some c' /\ oneLineAdded c c'.
Proof.
  intros Hfrom Hto. unfold addLine.
  destruct (initLineRect_pen_Some dl Hfrom Hto) as [dl' Hinit].
  rewrite Hinit, bind_Some. cbn zeta.
  set (n := length (pensOf c)).
  set (c2 := emit _ _ _).
  assert (Hn2 : length (pensOf c2) = S n).
  { subst n c2. unfold pensOf. cbn. rewrite length_app. cbn. lia. }
  destruct (active_one n c2) as (c3 & Hc3 & Hlen & Hem & Hhist & _); [lia|].
  rewrite Hc3, bind_Some.
  eexists. split; [reflexivity|].
  unfold oneLineAdded. fold n.
  split; [|split].
  - change (length (alter (drawline_pen (Canvas.drawingLineName c3) None) n (pensOf c3)) = S n).
    by rewrite length_alter, Hlen.
  - change (Store.emitted (Canvas.store c3) = mkEvent "active" (OfPens [n]) :: mkEvent "addPen" (OfPen n) :: Store.emitted (Canvas.store c)).
    exact Hem.
  - change (Store.histories (Canvas.store c3) ++ [mkHistory Add n] = Store.histories (Canvas.store c) ++ [mkHistory Add n]).
    by rewrite Hhist.
Qed.

(** X1, the code's side of C3: a line finished without the forced-end flag,
    with an unconnected end and no committed anchor, is dropped: pens, events
    and history stay.  A line that is kept (forced end, connected end, or a
    committed anchor) and has both ends adds one pen, one [addPen] event and
    one history record when [beforeAddPen] is unset or accepts it, and
    nothing when [beforeAddPen] rejects it. *)
Theorem finishDrawline_outcomes `{Helpers} (end_ : bool) (clock : R)
    (c : Canvas.t) (dl : Pen.t) :
  Canvas.drawingLine c = Some dl ->
  (end_ = false ->
   toConnected dl = false ->
   Calc.worldAnchors (Pen.calculative dl) = Some [] ->
   exists c', finishDrawline end_ clock c = Some c'
              /\ listsUnchanged c c' /\ Canvas.drawingLine c' = None)
  /\ (committed end_ dl ->
      is_Some (Calc.worldFrom (Pen.calculative dl)) ->
      (end_ = true -> is_Some (Calc.worldTo (Pen.calculative dl))) ->
      exists dl' c',
        closeLine end_ dl = Some (Some dl')
        /\ finishDrawline end_ clock c = Some c'
        /\ Canvas.drawingLine c' = None
        /\ (accepts c dl' = true -> oneLineAdded c c')
        /\ (accepts c dl' = false -> listsUnchanged c c')).
Proof.
  intros Hdl. split.
  - intros -> Hcon Hanch. unfold finishDrawline. rewrite Hdl.
    rewrite (closeLine_uncommitted dl Hcon Hanch), bind_Some.
    eexists. split; [reflexivity|].
    destruct (render_frame Forced clock (Canvas.set_drawingLine None c))
      as (Hst & _ & _ & _ & _ & Hline).
    unfold listsUnchanged, pensOf. rewrite Hst, Hline. done.
  - intros Hcom Hfrom Hto.
    destruct (closeLine_committed end_ dl Hcom Hfrom Hto)
      as (dl' & Hclose & Hfrom' & Hto').
    unfold finishDrawline. rewrite Hdl, Hclose, bind_Some.
    destruct (accepts c dl') eqn:Hacc.
    + destruct (addLine_adds_one dl' c Hfrom' Hto') as (c1 & Hadd & Hadded).
      rewrite Hadd, bind_Some. eexists dl', _.
      split; [reflexivity|]. split; [reflexivity|]. split; [reflexivity|].
      split; [|congruence]. intros _.
      destruct (render_frame NoArg clock c1) as (Hst & _).
      unfold oneLineAdded, pensOf in *. cbn -[render]. by rewrite Hst.
    + rewrite bind_Some. eexists dl', _.
      split; [reflexivity|]. split; [reflexivity|]. split; [reflexivity|].
      split; [congruence|]. intros _.
      destruct (render_frame NoArg clock (Canvas.set_dirty true c)) as (Hst & _).
      unfold listsUnchanged, pensOf. cbn -[render]. by rewrite Hst.
Qed.

Lemma finishDrawline_outcomes_witness :
  (exists c',
      finishDrawline (H := Sample.helpers) false 0
        (SampleDraw.drawing SampleDraw.stub None) = Some c'
      /\ listsUnchanged (SampleDraw.drawing SampleDraw.stub None) c')
  /\ (exists c',
      finishDrawline (H := Sample.helpers) false 0
        (SampleDraw.drawing SampleDraw.anchored None) = Some c'
      /\ oneLineAdded (SampleDraw.drawing SampleDraw.anchored None) c').
Proof.
  split.
  - destruct (proj1 (finishDrawline_outcomes (H := Sample.helpers) false 0
                       (SampleDraw.drawing SampleDraw.stub None) SampleDraw.stub eq_refl)
                eq_refl eq_refl eq_refl) as (c' & Hfin & Hsame & _).
    by exists c'.
  - destruct (proj2 (finishDrawline_outcomes (H := Sample.helpers) false 0
                       (SampleDraw.drawing SampleDraw.anchored None)
                       SampleDraw.anchored eq_refl))
      as (dl' & c' & _ & Hfin & _ & Hacc & _).
    + right; right. by exists [], (Point.at_ 20 30).
    + by eexists.
    + intros [=].
    + exists c'. split; [exact Hfin|]. by apply Hacc.
Defined.

(** C3, as the claim words it, fails twice: a forced end adds the line that
    has no committed anchor, and a line with a committed anchor adds nothing
    when [beforeAddPen] rejects it. *)
Lemma finishDrawline_forced_end_adds_stub :
  (exists c',
      finishDrawline (H := Sample.helpers) true 0
        (SampleDraw.drawing SampleDraw.stub None) = Some c'
      /\ Calc.worldAnchors (Pen.calculative SampleDraw.stub) = Some []
      /\ length (pensOf c') = 1
      /\ Store.emitted (Canvas.store c')
         = [mkEvent "active" (OfPens [0]); mkEvent "addPen" (OfPen 0)])
  /\ (exists c',
      finishDrawline (H := Sample.helpers) false 0
        (SampleDraw.drawing SampleDraw.anchored (Some (fun _ => false))) = Some c'
      /\ pensOf c' = []
      /\ Store.emitted (Canvas.store c') = []
      /\ Store.histories (Canvas.store c') = []).
Proof.
  split.
  - unfold finishDrawline.
    change (Canvas.drawingLine (SampleDraw.drawing SampleDraw.stub None))
      with (Some SampleDraw.stub).
    destruct (closeLine_committed (H := Sample.helpers) true SampleDraw.stub)
      as (dl' & -> & Hfrom & Hto); [by left|by eexists|by eexists|].
    cbn [mbind option_bind].
    change (accepts (SampleDraw.drawing SampleDraw.stub None) dl') with true.
    destruct (addLine_adds_one (H := Sample.helpers) dl'
                (SampleDraw.drawing SampleDraw.stub None) Hfrom Hto)
      as (c1 & -> & Hlen & Hem & _).
    cbn [mbind option_bind]. eexists. split; [reflexivity|].
    destruct (render_frame NoArg 0 c1) as (Hst & _).
    unfold pensOf in *. cbn -[render]. rewrite Hst.
    split; [done|]. split; [exact Hlen|exact Hem].
  - unfold finishDrawline.
    change (Canvas.drawingLine (SampleDraw.drawing SampleDraw.anchored (Some (fun _ => false))))
      with (Some SampleDraw.anchored).
    destruct (closeLine_committed (H := Sample.helpers) false SampleDraw.anchored)
      as (dl' & -> & _).
    { right; right. by exists [], (Point.at_ 20 30). }
    { by eexists. }
    { intros [=]. }
    cbn [mbind option_bind].
    change (accepts _ dl') with false. cbn [mbind option_bind].
    eexists. split; [reflexivity|].
    destruct (render_frame NoArg 0
                (Canvas.set_dirty true
                   (SampleDraw.drawing SampleDraw.anchored (Some (fun _ => false)))))
      as (Hst & _).
    unfold pensOf. cbn -[render]. by rewrite Hst.
Qed.

(** ** Hit testing: handles come first *)

Lemma hitCP_is_Some `{Helpers} (pt : Point.t) (i : nat) (c : Canvas.t)
    (cps : list Point.t) :
  Canvas.sizeCPs c = Some cps -> i < length cps -> is_Some (hitCP pt i c).
Proof.
  intros Hcps Hi. unfold hitCP. rewrite Hcps, bind_Some.
  destruct (lookup_lt_is_Some_2 cps i Hi) as [cp ->]. rewrite bind_Some. by eexists.
Qed.

(** [firstHit] finds a hit exactly when one of its indices is hit. *)
Lemma firstHit_spec `{Helpers} (pt : Point.t) (c : Canvas.t) (idxs : list nat) :
  Forall (fun i => is_Some (hitCP pt i c)) idxs ->
  (exists i, firstHit pt c idxs = Some (Some i)
             /\ i ∈ idxs /\ hitCP pt i c = Some true)
  \/ (firstHit pt c idxs = Some None
      /\ Forall (fun i => hitCP pt i c = Some false) idxs).
Proof.
  induction idxs as [|i rest IH]; intros Hall.
  - right. split; [done|constructor].
  - apply Forall_cons in Hall as [[b Hb] Hrest]. cbn [firstHit]. rewrite Hb.
    destruct b.
    + left. exists i. split; [done|]. split; [by left|done].
    + destruct (IH Hrest) as [(j & Hj & Hin & Hhit)|[Hnone Hall']].
      * left. exists j. split; [done|]. split; [by right|done].
      * right. split; [done|]. by constructor.
Qed.

Lemma seq_valid `{Helpers} (pt : Point.t) (c : Canvas.t) (cps : list Point.t)
    (a n : nat) :
  Canvas.sizeCPs c = Some cps -> a + n <= length cps ->
  Forall (fun i => is_Some (hitCP pt i c)) (seq a n).
Proof.
  intros Hcps Hlen. apply Forall_forall. intros i Hi.
  apply elem_of_seq in Hi. apply (hitCP_is_Some pt i c cps Hcps). lia.
Qed.

Lemma Canvas_cursor_eta (c : Canvas.t) :
  Canvas.set_cursor (Canvas.cursor c) (Canvas.set_resizeIndex (Canvas.resizeIndex c) c) = c.
Proof. by destruct c. Qed.

Lemma firstHit_ext `{Helpers} (pt : Point.t) (c c' : Canvas.t) (idxs : list nat) :
  Canvas.sizeCPs c' = Canvas.sizeCPs c ->
  Canvas.pointSize c' = Canvas.pointSize c ->
  firstHit pt c' idxs = firstHit pt c idxs.
Proof.
  intros Hcps Hsize. induction idxs as [|i rest IH]; [done|].
  cbn [firstHit]. rewrite IH.
  replace (hitCP pt i c') with (hitCP pt i c); [done|].
  unfold hitCP. by rewrite Hcps, Hsize.
Qed.

(** What the block of handles yields: only the cursor and the resize index
    change; the classification is the hit handle, a size control point
    winning over the rotate handle. *)
Lemma hoverHandles_spec `{Helpers} (pt : Point.t) (r : Rect.t) (c : Canvas.t)
    (cps : list Point.t) :
  Canvas.sizeCPs c = Some cps -> 8 <= length cps ->
  exists h c1,
    hoverHandles pt r c = Some (h, c1)
    /\ (exists cur ri, c1 = Canvas.set_cursor cur (Canvas.set_resizeIndex ri c))
    /\ (h = HoverNone -> c1 = c)
    /\ (h = HoverNone \/ h = HoverRotate \/ h = HoverResize)
    /\ (onRotateHandle pt r c -> h <> HoverNone)
    /\ (h = HoverRotate -> onRotateHandle pt r c)
    /\ (onSizeHandle pt c <-> h = HoverResize).
Proof.
  intros Hcps Hlen.
  pose proof (seq_valid pt c cps 0 4 Hcps ltac:(lia)) as Hv04.
  pose proof (seq_valid pt c cps 4 4 Hcps ltac:(lia)) as Hv48.
  assert (Hcorner : forall i, i < 4 -> hitCP pt i c = Some true ->
            Forall (fun i => hitCP pt i c = Some false) (seq 0 4) -> False).
  { intros i Hi Hhit Hall. rewrite Forall_forall in Hall.
    specialize (Hall i). rewrite Hall in Hhit; [done|]. apply elem_of_seq. lia. }
  assert (Hedge : forall i, 4 <= i < 8 -> hitCP pt i c = Some true ->
            Forall (fun i => hitCP pt i c = Some false) (seq 4 4) -> False).
  { intros i Hi Hhit Hall. rewrite Forall_forall in Hall.
    specialize (Hall i). rewrite Hall in Hhit; [done|]. apply elem_of_seq. lia. }
  assert (Hin04 : forall i, i ∈ seq 0 4 -> i < 4).
  { intros i Hi. apply elem_of_seq in Hi. lia. }
  assert (Hin48 : forall i, i ∈ seq 4 4 -> 4 <= i < 8).
  { intros i Hi. apply elem_of_seq in Hi. lia. }
  (* the three shapes of the result *)
  assert (Hresize : forall i cur,
            hitCP pt i c = Some true ->
            (i < 4 /\ (Canvas.hotkeyType c = HotkeyNone \/ Canvas.hotkeyType c = HotkeyResize))
            \/ (4 <= i < 8 /\ Canvas.hotkeyType c = HotkeyResize) ->
            let c1 := Canvas.set_cursor cur (Canvas.set_resizeIndex i c) in
            (exists cur ri, c1 = Canvas.set_cursor cur (Canvas.set_resizeIndex ri c))
            /\ (HoverResize = HoverNone -> c1 = c)
            /\ (HoverResize = HoverNone \/ HoverResize = HoverRotate \/ HoverResize = HoverResize)
            /\ (onRotateHandle pt r c -> HoverResize <> HoverNone)
            /\ (HoverResize = HoverRotate -> onRotateHandle pt r c)
            /\ (onSizeHandle pt c <-> HoverResize = HoverResize)).
  { intros i cur Hhit Hel c1. split; [by eexists _, _|]. split; [done|].
    split; [auto|]. split; [done|]. split; [done|].
    split; [done|]. intros _. by exists i. }
  assert (Hnone : ~ onRotateHandle pt r c -> ~ onSizeHandle pt c ->
            (exists cur ri, c = Canvas.set_cursor cur (Canvas.set_resizeIndex ri c))
            /\ (HoverNone = HoverNone -> c = c)
            /\ (HoverNone = HoverNone \/ HoverNone = HoverRotate \/ HoverNone = HoverResize)
            /\ (onRotateHandle pt r c -> HoverNone <> HoverNone)
            /\ (HoverNone = HoverRotate -> onRotateHandle pt r c)
            /\ (onSizeHandle pt c <-> HoverNone = HoverResize)).
  { intros Hnr Hns. split; [eexists _, _; by rewrite Canvas_cursor_eta|].
    split; [done|]. split; [auto|]. split; [done|]. split; [done|]. by split. }
  unfold onRotateHandle, onSizeHandle in *. unfold hoverHandles.
  destruct (Canvas.hotkeyType c) eqn:Hhk; cbn [hotkey_eqb orb andb negb].
  - (* no hotkey: rotate handle, then corners *)
    rewrite andb_true_r.
    destruct (negb (Store.disableRotate (Canvas.store c))
              && hitPoint pt (rotateHandle r) (Canvas.pointSize c)) eqn:Hrot.
    + rewrite (firstHit_ext pt c (Canvas.set_cursor (Some rotateCursor) c)) by done.
      destruct (firstHit_spec pt c (seq 0 4) Hv04)
        as [(i & -> & Hin & Hhit)|[-> Hall]]; cbn [mbind option_bind].
      * eexists HoverResize, _. split; [reflexivity|].
        apply (Hresize i); auto.
      * eexists HoverRotate, _. split; [reflexivity|].
        apply andb_true_iff in Hrot as [Hdis Hhit]. apply negb_true_iff in Hdis.
        split; [by eexists _, _|]. split; [done|]. split; [auto|].
        split; [done|]. split; [done|]. split; [|done].
        intros (i & Hhit' & [[Hi _]|[_ [=]]]). exfalso. eauto.
    + destruct (firstHit_spec pt c (seq 0 4) Hv04)
        as [(i & -> & Hin & Hhit)|[-> Hall]]; cbn [mbind option_bind].
      * eexists HoverResize, _. split; [reflexivity|].
        apply (Hresize i); auto.
      * eexists HoverNone, c. split; [reflexivity|]. apply Hnone.
        -- intros (Hdis & _ & Hhit). by rewrite Hdis, Hhit in Hrot.
        -- intros (i & Hhit & [[Hi _]|[_ [=]]]). eauto.
  - eexists HoverNone, c.
    split; [by rewrite andb_false_r|]. apply Hnone.
    + by intros (_ & [=] & _).
    + by intros (i & _ & [[_ [[=]|[=]]]|[_ [=]]]).
  - eexists HoverNone, c.
    split; [by rewrite andb_false_r|]. apply Hnone.
    + by intros (_ & [=] & _).
    + by intros (i & _ & [[_ [[=]|[=]]]|[_ [=]]]).
  - (* Resize: corners, then edge midpoints *)
    rewrite andb_false_r. cbn [andb].
    destruct (firstHit_spec pt c (seq 0 4) Hv04)
      as [(i & -> & Hin & Hhit)|[-> Hall]]; cbn [mbind option_bind].
    + rewrite (firstHit_ext pt c
                 (Canvas.set_cursor (cornerCursor i (Rect.rotate r))
                    (Canvas.set_resizeIndex i c))) by done.
      destruct (firstHit_spec pt c (seq 4 4) Hv48)
        as [(j & -> & Hinj & Hhitj)|[-> Hallj]]; cbn [mbind option_bind].
      * eexists HoverResize, _. split; [reflexivity|].
        apply (Hresize j); auto.
      * eexists HoverResize, _. split; [reflexivity|].
        apply (Hresize i); auto.
    + destruct (firstHit_spec pt c (seq 4 4) Hv48)
        as [(j & -> & Hinj & Hhitj)|[-> Hallj]]; cbn [mbind option_bind].
      * eexists HoverResize, _. split; [reflexivity|].
        apply (Hresize j); auto.
      * eexists HoverNone, c. split; [reflexivity|]. apply Hnone.
        -- by intros (_ & [=] & _).
        -- intros (i & Hhit & [[Hi _]|[Hi _]]); eauto.
  - eexists HoverNone, c.
    split; [by rewrite andb_false_r|]. apply Hnone.
    + by intros (_ & [=] & _).
    + by intros (i & _ & [[_ [[=]|[=]]]|[_ [=]]]).
Qed.

(** The notifications that close [getHover] touch neither the
    classification nor what the resolver found; afterwards [lastHover] is
    the hovered pen. *)
Lemma hoverChanged_frame (c : Canvas.t) :
  Canvas.hoverType (hoverChanged c) = Canvas.hoverType c
  /\ Store.hover (Canvas.store (hoverChanged c)) = Store.hover (Canvas.store c)
  /\ Store.anchor (Canvas.store (hoverChanged c)) = Store.anchor (Canvas.store c)
  /\ Store.pointAt (Canvas.store (hoverChanged c)) = Store.pointAt (Canvas.store c)
  /\ Store.lastHover (Canvas.store (hoverChanged c)) = Store.hover (Canvas.store c).
Proof.
  unfold hoverChanged. case_bool_decide as Heq; [by rewrite Heq|].
  cbn zeta.
  destruct (Store.lastHover (Canvas.store c)) as [i|],
           (Store.hover (Canvas.store c)) as [j|] eqn:Hhov; cbn; rewrite ?Hhov; done.
Qed.

(** X3: while the block of handles is open (an active rect, no line being
    drawn, the selection not a single line, no lock) and the pointer is on
    the rotate handle or on an eligible size handle, [getHover] classifies
    the pointer as Rotate or Resize, as Resize whenever a size handle is
    hit, and returns before the pen loop: [store.hover] is as before and
    [store.anchor] and [store.pointAt] are unset. *)
Theorem getHover_handle_first `{Helpers} (pt : Point.t) (c : Canvas.t)
    (r : Rect.t) (cps : list Point.t) :
  handlesOpen c r ->
  Canvas.sizeCPs c = Some cps -> 8 <= length cps ->
  onRotateHandle pt r c \/ onSizeHandle pt c ->
  exists c',
    getHover pt c = Some c'
    /\ (Canvas.hoverType c' = HoverRotate \/ Canvas.hoverType c' = HoverResize)
    /\ (onSizeHandle pt c -> Canvas.hoverType c' = HoverResize)
    /\ Store.hover (Canvas.store c') = Store.hover (Canvas.store c)
    /\ Store.anchor (Canvas.store c') = None
    /\ Store.pointAt (Canvas.store c') = None.
Proof.
  intros (Hr & Hdraw & Hal & Hlock) Hcps Hlen Hon.
  unfold getHover.
  set (c0 := alterStore _ c).
  change (activeLine c0) with (activeLine c). rewrite Hal, bind_Some.
  change (getActiveRect c0) with (getActiveRect c). rewrite Hr.
  change (Canvas.drawingLineName c0) with (Canvas.drawingLineName c).
  change (Store.data_locked (Canvas.store c0))
    with (Store.data_locked (Canvas.store c)).
  rewrite Hdraw, Hlock. cbn [negb andb].
  destruct (hoverHandles_spec pt r c0 cps Hcps Hlen)
    as (h & c1 & Hhh & (cur & ri & ->) & _ & Hkind & Hrot & _ & Hsize).
  rewrite Hhh, bind_Some.
  assert (Hh : h = HoverRotate \/ h = HoverResize).
  { destruct Hon as [Hon|Hon].
    - destruct Hkind as [->|Hkind]; [|done]. by destruct (Hrot Hon).
    - right. by apply Hsize. }
  eexists. split.
  { destruct Hh as [-> | ->]; reflexivity. }
  set (c1 := Canvas.set_cursor cur (Canvas.set_resizeIndex ri c0)).
  destruct (hoverChanged_frame (Canvas.set_hoverType h c1))
    as (Hty & Hhov & Hanc & Hpt & _).
  destruct Hh as [-> | ->]; cbn [hover_truthy negb andb];
    rewrite Hty, Hhov, Hanc, Hpt; repeat split; auto;
    intros Hs; by apply Hsize in Hs.
Qed.

(** ** Hit testing: anchors and bodies *)

(** The ways out of [inAnchor]. *)
Lemma inAnchor_cases `{Helpers} (pt : Point.t) (i : nat) (s : Slot)
    (c : Canvas.t) (h : HoverType) (c' : Canvas.t) :
  inAnchor pt i s c = (h, c') ->
  (h = HoverNone /\ c' = c)
  \/ (exists pen cur c0,
        pensOf c !! i = Some pen
        /\ c' = takeAnchor i s cur c0
        /\ (c0 = c \/ c0 = Canvas.set_dirty true c)
        /\ (if String.eqb (Pen.name pen) "line"
            then h = HoverLineAnchor
                 \/ (Calc.active (Pen.calculative pen) = true
                     /\ (h = HoverLineAnchorPrev \/ h = HoverLineAnchorNext))
            else h = HoverNodeAnchor)).
Proof.
  unfold inAnchor.
  destruct (pensOf c !! i) as [pen|] eqn:Hpen; [|intros [= <- <-]; by left].
  destruct (Pen_ops.anchorAt pen s) as [a|]; [|intros [= <- <-]; by left].
  cbn zeta.
  destruct (hitPoint pt a (Canvas.pointSize c)).
  { destruct (String.eqb (Pen.name pen) "line") eqn:Hname;
      intros [= <- <-]; right; eexists pen, _, _;
      (split; [done|]); (split; [reflexivity|]); rewrite Hname;
      (split; [case_bool_decide; auto|auto]). }
  destruct (String.eqb (Pen.name pen) "line") eqn:Hname;
    [|intros [= <- <-]; by left].
  destruct (Calc.active (Pen.calculative pen)) eqn:Hact;
    [|intros [= <- <-]; by left].
  cbn [andb].
  destruct (hitHandle pt (Point.prev a) c).
  { intros [= <- <-]. right. eexists pen, _, c.
    split; [done|]. split; [reflexivity|]. rewrite Hname. auto. }
  destruct (hitHandle pt (Point.next a) c); intros [= <- <-]; [|by left].
  right. eexists pen, _, c.
  split; [done|]. split; [reflexivity|]. rewrite Hname. auto.
Qed.

(** The two ways out of [inAnchor]. *)
Lemma inAnchor_split `{Helpers} (pt : Point.t) (i : nat) (s : Slot)
    (c : Canvas.t) :
  (fst (inAnchor pt i s c) = HoverNone /\ snd (inAnchor pt i s c) = c)
  \/ (exists pen,
        pensOf c !! i = Some pen
        /\ Store.anchor (Canvas.store (snd (inAnchor pt i s c))) = Some (i, s)
        /\ Store.hover (Canvas.store (snd (inAnchor pt i s c))) = Some i
        /\ pensOf (snd (inAnchor pt i s c)) = pensOf c
        /\ (if String.eqb (Pen.name pen) "line"
            then fst (inAnchor pt i s c) = HoverLineAnchor
                 \/ (Calc.active (Pen.calculative pen) = true
                     /\ (fst (inAnchor pt i s c) = HoverLineAnchorPrev
                         \/ fst (inAnchor pt i s c) = HoverLineAnchorNext))
            else fst (inAnchor pt i s c) = HoverNodeAnchor)).
Proof.
  destruct (inAnchor pt i s c) as [h c'] eqn:Hin. cbn [fst snd].
  destruct (inAnchor_cases pt i s c h c' Hin)
    as [[-> ->]|(pen & cur & c0 & Hpen & -> & Hc0 & Hkind)]; [by left|].
  right. exists pen. split; [done|].
  destruct Hc0 as [-> | ->]; by repeat split.
Qed.

(** X7: [inAnchor] either misses and leaves the canvas alone, or takes the
    anchor: then [store.anchor] is that anchor, [store.hover] its pen, the
    pens are untouched, and the classification follows the pen's name: a
    node anchor on a pen that is not named line, a line anchor on a line,
    and one of its two handles only on a line that is selected. *)
Theorem inAnchor_miss_or_take `{Helpers} (pt : Point.t) (i : nat) (s : Slot)
    (c : Canvas.t) :
  (fst (inAnchor pt i s c) = HoverNone /\ snd (inAnchor pt i s c) = c)
  \/ (exists pen,
        pensOf c !! i = Some pen
        /\ Store.anchor (Canvas.store (snd (inAnchor pt i s c))) = Some (i, s)
        /\ Store.hover (Canvas.store (snd (inAnchor pt i s c))) = Some i
        /\ pensOf (snd (inAnchor pt i s c)) = pensOf c
        /\ (if String.eqb (Pen.name pen) "line"
            then fst (inAnchor pt i s c) = HoverLineAnchor
                 \/ (Calc.active (Pen.calculative pen) = true
                     /\ (fst (inAnchor pt i s c) = HoverLineAnchorPrev
                         \/ fst (inAnchor pt i s c) = HoverLineAnchorNext))
            else fst (inAnchor pt i s c) = HoverNodeAnchor)).
Proof.
  exact (inAnchor_split pt i s c).
Qed.

Lemma inAnchor_None `{Helpers} (pt : Point.t) (i : nat) (s : Slot) (c : Canvas.t) :
  hover_truthy (fst (inAnchor pt i s c)) = false -> snd (inAnchor pt i s c) = c.
Proof.
  intros Hf.
  destruct (inAnchor_split pt i s c) as [[_ Hc]|(pen & _ & _ & _ & _ & Hk)]; [done|].
  destruct (String.eqb (Pen.name pen) "line").
  - destruct Hk as [Hk|[_ [Hk|Hk]]]; by rewrite Hk in Hf.
  - by rewrite Hk in Hf.
Qed.

Lemma inAnchor_kind `{Helpers} (pt : Point.t) (i : nat) (s : Slot) (c : Canvas.t) :
  fst (inAnchor pt i s c) = HoverNone \/ isAnchorKind (fst (inAnchor pt i s c)) = true.
Proof.
  destruct (inAnchor_split pt i s c) as [[Hn _]|(pen & _ & _ & _ & _ & Hk)]; [by left|].
  right. destruct (String.eqb (Pen.name pen) "line").
  - destruct Hk as [Hk|[_ [Hk|Hk]]]; by rewrite Hk.
  - by rewrite Hk.
Qed.

Lemma inAnchors_spec `{Helpers} (pt : Point.t) (i : nat) (ss : list Slot) (c : Canvas.t) :
  (fst (inAnchors pt i ss c) = HoverNone /\ snd (inAnchors pt i ss c) = c)
  \/ (isAnchorKind (fst (inAnchors pt i ss c)) = true
      /\ is_Some (Store.anchor (Canvas.store (snd (inAnchors pt i ss c))))
      /\ Store.hover (Canvas.store (snd (inAnchors pt i ss c))) = Some i
      /\ pensOf (snd (inAnchors pt i ss c)) = pensOf c).
Proof.
  revert c. induction ss as [|s rest IH]; intros c; [by left|].
  cbn [inAnchors].
  destruct (inAnchor pt i s c) as [h c1] eqn:Hin.
  pose proof (inAnchor_None pt i s c) as Hnone.
  pose proof (inAnchor_split pt i s c) as Hcase.
  pose proof (inAnchor_kind pt i s c) as Hkind.
  rewrite Hin in Hnone, Hcase, Hkind. cbn [fst snd] in *.
  destruct (hover_truthy h) eqn:Hh.
  - right. cbn [fst snd].
    destruct Hcase as [[-> _]|(pen & _ & Hanc & Hhov & Hpens & _)]; [done|].
    destruct Hkind as [->|Hkind]; [done|].
    split; [done|]. split; [by rewrite Hanc|]. done.
  - rewrite (Hnone eq_refl). apply IH.
Qed.

(** The pen loop is a search for the first pen that is taken. *)
Lemma hoverPens_spec `{Helpers} (pt : Point.t) (idxs : list nat) (c : Canvas.t) :
  (fst (hoverPens pt idxs c) = HoverNone
   /\ snd (hoverPens pt idxs c) = c
   /\ Forall (fun j => penTaken pt c j = false) idxs)
  \/ (exists l1 j l2,
        idxs = l1 ++ j :: l2
        /\ Forall (fun j => penTaken pt c j = false) l1
        /\ penTaken pt c j = true
        /\ Store.hover (Canvas.store (snd (hoverPens pt idxs c))) = Some j
        /\ pensOf (snd (hoverPens pt idxs c)) = pensOf c
        /\ ((isBodyKind (fst (hoverPens pt idxs c)) = true
             /\ Store.anchor (Canvas.store (snd (hoverPens pt idxs c)))
                = Store.anchor (Canvas.store c))
            \/ (anchorsOpen c = true
                /\ isAnchorKind (fst (hoverPens pt idxs c)) = true
                /\ is_Some (Store.anchor (Canvas.store (snd (hoverPens pt idxs c))))))).
Proof.
  induction idxs as [|i rest IH]; [left; by repeat split|].
  assert (Hskip : penTaken pt c i = false ->
            hoverPens pt (i :: rest) c = hoverPens pt rest c ->
            (fst (hoverPens pt (i :: rest) c) = HoverNone
             /\ snd (hoverPens pt (i :: rest) c) = c
             /\ Forall (fun j => penTaken pt c j = false) (i :: rest))
            \/ (exists l1 j l2,
                 i :: rest = l1 ++ j :: l2
                 /\ Forall (fun j => penTaken pt c j = false) l1
                 /\ penTaken pt c j = true
                 /\ Store.hover (Canvas.store (snd (hoverPens pt (i :: rest) c))) = Some j
                 /\ pensOf (snd (hoverPens pt (i :: rest) c)) = pensOf c
                 /\ ((isBodyKind (fst (hoverPens pt (i :: rest) c)) = true
                      /\ Store.anchor (Canvas.store (snd (hoverPens pt (i :: rest) c)))
                         = Store.anchor (Canvas.store c))
                     \/ (anchorsOpen c = true
                         /\ isAnchorKind (fst (hoverPens pt (i :: rest) c)) = true
                         /\ is_Some (Store.anchor
                                       (Canvas.store (snd (hoverPens pt (i :: rest) c)))))))).
  { intros Hnot ->.
    destruct IH as [(Hh & Hc & Hall)|(l1 & j & l2 & -> & Hall & Hj & Hrest)].
    - left. split; [done|]. split; [done|]. by constructor.
    - right. exists (i :: l1), j, l2. split; [done|]. split; [by constructor|done]. }
  assert (Htake : penTaken pt c i = true ->
            Store.hover (Canvas.store (snd (hoverPens pt (i :: rest) c))) = Some i ->
            pensOf (snd (hoverPens pt (i :: rest) c)) = pensOf c ->
            ((isBodyKind (fst (hoverPens pt (i :: rest) c)) = true
              /\ Store.anchor (Canvas.store (snd (hoverPens pt (i :: rest) c)))
                 = Store.anchor (Canvas.store c))
             \/ (anchorsOpen c = true
                 /\ isAnchorKind (fst (hoverPens pt (i :: rest) c)) = true
                 /\ is_Some (Store.anchor
                               (Canvas.store (snd (hoverPens pt (i :: rest) c)))))) ->
            exists l1 j l2,
              i :: rest = l1 ++ j :: l2
              /\ Forall (fun j => penTaken pt c j = false) l1
              /\ penTaken pt c j = true
              /\ Store.hover (Canvas.store (snd (hoverPens pt (i :: rest) c))) = Some j
              /\ pensOf (snd (hoverPens pt (i :: rest) c)) = pensOf c
              /\ ((isBodyKind (fst (hoverPens pt (i :: rest) c)) = true
                   /\ Store.anchor (Canvas.store (snd (hoverPens pt (i :: rest) c)))
                      = Store.anchor (Canvas.store c))
                  \/ (anchorsOpen c = true
                      /\ isAnchorKind (fst (hoverPens pt (i :: rest) c)) = true
                      /\ is_Some (Store.anchor
                                    (Canvas.store (snd (hoverPens pt (i :: rest) c))))))).
  { intros Hi Hhov Hpens Hkind. exists [], i, rest. by repeat split. }
  clear IH.
  pose proof (eq_refl (penTaken pt c i)) as Hdef. unfold penTaken at 2 in Hdef.
  revert Hdef Hskip Htake. cbn [hoverPens].
  destruct (pensOf c !! i) as [pen|] eqn:Hpen; [|intros Hdef Hskip _; by apply Hskip].
  destruct (bool_decide (Pen.visible pen = Some false) || locked_disable (Pen.locked pen));
    [intros Hdef Hskip _; by apply Hskip|].
  cbn [negb andb]. fold (anchorsOpen c).
  destruct (anchorsOpen c) eqn:Hopen; cbn [andb].
  - destruct (inAnchors_spec pt i (slotsOf pen) c)
      as [[Hh Hc]|(Hkind & Hanc & Hhov & Hpens)];
      destruct (inAnchors pt i (slotsOf pen) c) as [h c1]; cbn [fst snd] in *.
    + subst h c1. cbn [hover_truthy orb].
      destruct (Pen_ops.isLine pen).
      * destruct (pointInLine pt pen) as [[k q]|]; cbn [JS.is_some];
          intros Hdef Hskip Htake.
        -- right. apply Htake; [done|reflexivity|reflexivity|left; by split].
        -- by apply Hskip.
      * destruct (pointInRect pt (Some (Calc.worldRect (Pen.calculative pen))));
          intros Hdef Hskip Htake.
        -- right. apply Htake; [done|reflexivity|reflexivity|left; by split].
        -- by apply Hskip.
    + assert (Hh : hover_truthy h = true) by (by destruct h).
      rewrite Hh. cbn [orb]. intros Hdef _ Htake.
      right. apply Htake; [done|done|done|right; by repeat split].
  - cbn [hover_truthy orb].
    destruct (Pen_ops.isLine pen).
    + destruct (pointInLine pt pen) as [[k q]|]; cbn [JS.is_some];
        intros Hdef Hskip Htake.
      * right. apply Htake; [done|reflexivity|reflexivity|left; by split].
      * by apply Hskip.
    + destruct (pointInRect pt (Some (Calc.worldRect (Pen.calculative pen))));
        intros Hdef Hskip Htake.
      * right. apply Htake; [done|reflexivity|reflexivity|left; by split].
      * by apply Hskip.
Qed.

(** ** Hit testing: the order of the whole resolver *)

(** Without a handle, [getHover] is the pen loop followed by its end. *)
Lemma getHover_no_handle `{Helpers} (pt : Point.t) (c : Canvas.t) (aline : bool) :
  activeLine c = Some aline ->
  handleFree pt c ->
  getHover pt c
  = Some (hoverClose pt aline
            (hoverPens pt (reverse (seq 0 (length (pensOf c)))) (hoverStart c))).
Proof.
  intros Hal Hfree. unfold getHover. fold (hoverStart c).
  set (c0 := hoverStart c).
  change (activeLine c0) with (activeLine c). rewrite Hal, bind_Some.
  change (getActiveRect c0) with (getActiveRect c).
  change (Canvas.drawingLineName c0) with (Canvas.drawingLineName c).
  change (Store.data_locked (Canvas.store c0))
    with (Store.data_locked (Canvas.store c)).
  assert (Hphase :
            match getActiveRect c with
            | Some r =>
                if negb (JS.truthy_str (Canvas.drawingLineName c))
                   && negb aline
                   && negb (locked_truthy (Store.data_locked (Canvas.store c)))
                then hoverHandles pt r c0
                else Some (HoverNone, c0)
            | None => Some (HoverNone, c0)
            end = Some (HoverNone, c0)).
  { destruct (getActiveRect c) as [r|] eqn:Hr; [|done].
    destruct (negb (JS.truthy_str (Canvas.drawingLineName c))
              && negb aline
              && negb (locked_truthy (Store.data_locked (Canvas.store c)))) eqn:Hgate;
      [|done].
    apply andb_true_iff in Hgate as [Hgate Hlock].
    apply andb_true_iff in Hgate as [Hdraw Haline].
    apply negb_true_iff in Hlock, Hdraw, Haline. subst aline.
    destruct Hfree as [Hf|[Hf|[Hf|[Hf|(r' & cps & Hr' & Hcps & Hlen & Hnr & Hns)]]]];
      [congruence|congruence|congruence|congruence|].
    destruct (hoverHandles_spec pt r c0 cps Hcps Hlen)
      as (h & c1 & Hhh & _ & Hsame & Hkind & _ & Hrot & Hsize).
    rewrite Hhh.
    destruct Hkind as [->|[->| ->]].
    - by rewrite (Hsame eq_refl).
    - destruct Hnr. assert (r' = r) as -> by congruence. by apply Hrot.
    - destruct Hns. by apply Hsize. }
  rewrite Hphase, bind_Some. cbn [hover_truthy].
  change (pensOf c0) with (pensOf c).
  destruct (hoverPens pt (reverse (seq 0 (length (pensOf c)))) c0) as [h2 c2].
  unfold hoverClose.
  by destruct (negb (hover_truthy h2) && negb aline
               && pointInRect pt (getActiveRect c2)).
Qed.

(** Where the list of positions, topmost first, is cut at [j], the
    positions before the cut are above [j] and those after it below. *)
Lemma rev_seq_split (n : nat) (l1 l2 : list nat) (j : nat) :
  reverse (seq 0 n) = l1 ++ j :: l2 ->
  (forall k, k ∈ l1 -> j < k) /\ (forall k, k ∈ l2 -> k < j).
Proof.
  intros Hsplit. apply (f_equal reverse) in Hsplit.
  rewrite reverse_involutive, reverse_app, reverse_cons, <- app_assoc in Hsplit.
  cbn [app] in Hsplit.
  assert (Hj : j = length (reverse l2)).
  { pose proof (list_lookup_middle (reverse l2) (reverse l1) j (length (reverse l2)) eq_refl) as Hm.
    rewrite <- Hsplit in Hm. apply lookup_seq in Hm. lia. }
  split; intros k Hk.
  - apply elem_of_reverse, list_elem_of_lookup in Hk as [i Hi].
    assert (Hm : seq 0 n !! (length (reverse l2) + S i) = Some k).
    { rewrite Hsplit, lookup_app_r by lia.
      replace (length (reverse l2) + S i - length (reverse l2)) with (S i) by lia.
      exact Hi. }
    apply lookup_seq in Hm. lia.
  - apply elem_of_reverse, list_elem_of_lookup in Hk as [i Hi].
    assert (Hm : seq 0 n !! i = Some k).
    { rewrite Hsplit. apply lookup_app_l_Some. exact Hi. }
    pose proof (lookup_lt_Some _ _ _ Hi).
    apply lookup_seq in Hm. lia.
Qed.

Lemma penTaken_lt `{Helpers} (pt : Point.t) (c : Canvas.t) (j : nat) :
  penTaken pt c j = true -> j < length (pensOf c).
Proof.
  unfold penTaken. destruct (pensOf c !! j) eqn:Hj; [|done].
  intros _. by eapply lookup_lt_Some.
Qed.

(** With a classification that is set, the end of [getHover] keeps it. *)
Lemma hoverClose_truthy `{Helpers} (pt : Point.t) (aline : bool) (h : HoverType)
    (c : Canvas.t) :
  hover_truthy h = true ->
  hoverClose pt aline (h, c) = hoverChanged (Canvas.set_hoverType h c).
Proof. intros Hh. by destruct h. Qed.

(** The pen loop of [getHover] stops at the topmost pen under the pointer. *)
Lemma getHover_topmost_spec `{Helpers} (pt : Point.t) (c : Canvas.t)
    (aline : bool) (j : nat) :
  activeLine c = Some aline ->
  handleFree pt c ->
  penTaken pt (hoverStart c) j = true ->
  (forall k, j < k -> penTaken pt (hoverStart c) k = false) ->
  exists c',
    getHover pt c = Some c'
    /\ Store.hover (Canvas.store c') = Some j
    /\ Store.lastHover (Canvas.store c') = Some j
    /\ ((isBodyKind (Canvas.hoverType c') = true
         /\ Store.anchor (Canvas.store c') = None)
        \/ (isAnchorKind (Canvas.hoverType c') = true
            /\ is_Some (Store.anchor (Canvas.store c')))).
Proof.
  intros Hal Hfree Hj Habove.
  rewrite (getHover_no_handle pt c aline Hal Hfree).
  eexists. split; [reflexivity|].
  set (c0 := hoverStart c) in *.
  change (pensOf c) with (pensOf c0).
  pose proof (penTaken_lt pt c0 j Hj) as Hlt.
  destruct (hoverPens_spec pt (reverse (seq 0 (length (pensOf c0)))) c0)
    as [(_ & _ & Hnone)|(l1 & j' & l2 & Hsplit & Hl1 & Hj' & Hhov & _ & Hkind)].
  { rewrite Forall_forall in Hnone. rewrite Hnone in Hj; [done|].
    apply elem_of_reverse, elem_of_seq. lia. }
  destruct (rev_seq_split _ _ _ _ Hsplit) as [Hup Hdown].
  assert (j' = j) as ->.
  { assert (Hin : j ∈ l1 ++ j' :: l2).
    { rewrite <- Hsplit. apply elem_of_reverse, elem_of_seq. lia. }
    apply elem_of_app in Hin as [Hin|Hin].
    - rewrite Forall_forall in Hl1. by rewrite (Hl1 j Hin) in Hj.
    - apply elem_of_cons in Hin as [->|Hin]; [done|].
      apply Hdown in Hin. by rewrite (Habove j' Hin) in Hj'. }
  destruct (hoverPens pt (reverse (seq 0 (length (pensOf c0)))) c0) as [h2 c2].
  cbn [fst snd] in *.
  assert (Hh2 : hover_truthy h2 = true).
  { destruct Hkind as [[Hk _]|[_ [Hk _]]]; by destruct h2. }
  rewrite (hoverClose_truthy pt aline h2 c2 Hh2).
  destruct (hoverChanged_frame (Canvas.set_hoverType h2 c2))
    as (Hty & Hhov' & Hanc & _ & Hlast).
  rewrite Hty, Hhov', Hanc, Hlast. cbn.
  split; [exact Hhov|]. split; [exact Hhov|].
  destruct Hkind as [[Hk Ha]|[_ [Hk Ha]]]; [left|right]; split; auto.
Qed.

(** X4: when no handle answers, the pen loop runs from the end of
    [store.data.pens]: the last pen in z-order that is visible, not
    disabled and under the pointer (by an anchor or by its body) becomes
    [store.hover], and [store.lastHover] follows it; the classification is
    a body kind with no anchor recorded, or an anchor kind with the anchor
    recorded. *)
Theorem getHover_topmost_pen `{Helpers} (pt : Point.t) (c : Canvas.t)
    (aline : bool) (j : nat) :
  activeLine c = Some aline ->
  handleFree pt c ->
  penTaken pt (hoverStart c) j = true ->
  (forall k, j < k -> penTaken pt (hoverStart c) k = false) ->
  exists c',
    getHover pt c = Some c'
    /\ Store.hover (Canvas.store c') = Some j
    /\ Store.lastHover (Canvas.store c') = Some j
    /\ ((isBodyKind (Canvas.hoverType c') = true
         /\ Store.anchor (Canvas.store c') = None)
        \/ (isAnchorKind (Canvas.hoverType c') = true
            /\ is_Some (Store.anchor (Canvas.store c')))).
Proof.
  exact (getHover_topmost_spec pt c aline j).
Qed.

(** X5: when no handle answers and no pen is under the pointer,
    [store.anchor] and [store.pointAt] are unset; inside the active rect of
    a selection that is not a single line the pointer still counts as on a
    node and [store.hover] is as before, elsewhere the classification is
    None and [store.hover] is cleared. *)
Theorem getHover_nothing_under `{Helpers} (pt : Point.t) (c : Canvas.t)
    (aline : bool) :
  activeLine c = Some aline ->
  handleFree pt c ->
  (forall j, j < length (pensOf c) -> penTaken pt (hoverStart c) j = false) ->
  exists c',
    getHover pt c = Some c'
    /\ Store.anchor (Canvas.store c') = None
    /\ Store.pointAt (Canvas.store c') = None
    /\ (if negb aline && pointInRect pt (getActiveRect c)
        then Canvas.hoverType c' = HoverNode
             /\ Store.hover (Canvas.store c') = Store.hover (Canvas.store c)
        else Canvas.hoverType c' = HoverNone
             /\ Store.hover (Canvas.store c') = None).
Proof.
  intros Hal Hfree Hnone.
  rewrite (getHover_no_handle pt c aline Hal Hfree).
  eexists. split; [reflexivity|].
  set (c0 := hoverStart c) in *.
  change (pensOf c) with (pensOf c0) in *.
  destruct (hoverPens_spec pt (reverse (seq 0 (length (pensOf c0)))) c0)
    as [(Hh & Hc & _)|(l1 & j' & l2 & Hsplit & _ & Hj' & _)].
  2:{ rewrite Hnone in Hj'; [done|]. by apply penTaken_lt in Hj'. }
  destruct (hoverPens pt (reverse (seq 0 (length (pensOf c0)))) c0) as [h2 c2].
  cbn [fst snd] in *. subst h2 c2.
  unfold hoverClose. cbn [hover_truthy negb andb].
  change (getActiveRect c0) with (getActiveRect c).
  destruct (negb aline && pointInRect pt (getActiveRect c)).
  - destruct (hoverChanged_frame
                (Canvas.set_hoverType HoverNode (Canvas.set_cursor (Some "move") c0)))
      as (Hty & Hhov & Hanc & Hpt & _).
    cbn [hover_truthy]. by rewrite Hty, Hhov, Hanc, Hpt.
  - cbn [hover_truthy].
    destruct (JS.truthy_str (Canvas.drawingLineName (Canvas.set_hoverType HoverNone c0)));
      [|destruct (JS.is_some (Canvas.mouseDown (Canvas.set_hoverType HoverNone c0)))];
      match goal with
      | |- context [hoverChanged ?c5] =>
          destruct (hoverChanged_frame c5) as (Hty & Hhov & Hanc & Hpt & _)
      end;
      by rewrite Hty, Hhov, Hanc, Hpt.
Qed.

(** X6: on a locked document [getHover] offers neither handles nor
    anchors: the classification is None, Line or Node, and [store.anchor]
    is unset. *)
Theorem getHover_locked `{Helpers} (pt : Point.t) (c : Canvas.t) (aline : bool) :
  locked_truthy (Store.data_locked (Canvas.store c)) = true ->
  activeLine c = Some aline ->
  exists c',
    getHover pt c = Some c'
    /\ (Canvas.hoverType c' = HoverNone \/ isBodyKind (Canvas.hoverType c') = true)
    /\ Store.anchor (Canvas.store c') = None.
Proof.
  intros Hlock Hal.
  assert (Hfree : handleFree pt c) by (unfold handleFree; auto).
  rewrite (getHover_no_handle pt c aline Hal Hfree).
  eexists. split; [reflexivity|].
  set (c0 := hoverStart c).
  change (pensOf c) with (pensOf c0).
  assert (Hclosed : anchorsOpen c0 = false).
  { unfold anchorsOpen.
    change (Store.data_locked (Canvas.store c0)) with (Store.data_locked (Canvas.store c)).
    by rewrite Hlock. }
  destruct (hoverPens_spec pt (reverse (seq 0 (length (pensOf c0)))) c0)
    as [(Hh & Hc & _)|(l1 & j & l2 & _ & _ & _ & _ & _ & Hkind)];
    destruct (hoverPens pt (reverse (seq 0 (length (pensOf c0)))) c0) as [h2 c2];
    cbn [fst snd] in *.
  - subst h2 c2. unfold hoverClose. cbn [hover_truthy negb andb].
    destruct (negb aline && pointInRect pt (getActiveRect c0)); cbn [hover_truthy].
    + destruct (hoverChanged_frame
                  (Canvas.set_hoverType HoverNode (Canvas.set_cursor (Some "move") c0)))
        as (Hty & _ & Hanc & _).
      rewrite Hty, Hanc. split; [by right|done].
    + destruct (JS.truthy_str (Canvas.drawingLineName (Canvas.set_hoverType HoverNone c0)));
        [|destruct (JS.is_some (Canvas.mouseDown (Canvas.set_hoverType HoverNone c0)))];
        match goal with
        | |- context [hoverChanged ?c5] =>
            destruct (hoverChanged_frame c5) as (Hty & _ & Hanc & _)
        end;
        rewrite Hty, Hanc; (split; [by left|done]).
  - destruct Hkind as [[Hk Ha]|[Hopen _]]; [|congruence].
    assert (Hh2 : hover_truthy h2 = true) by (by destruct h2).
    rewrite (hoverClose_truthy pt aline h2 c2 Hh2).
    destruct (hoverChanged_frame (Canvas.set_hoverType h2 c2)) as (Hty & _ & Hanc & _).
    rewrite Hty, Hanc. split; [by right|exact Ha].
Qed.

Lemma Rabs_lt_1 (a r : R) : (- r < a < r)%R -> (Rabs a < r)%R.
Proof. intros. apply Rabs_def1; lra. Qed.

Lemma getHover_handle_first_witness :
  exists c',
    getHover (H := Sample.helpers) (Point.at_ 100 50) SampleHover.selected = Some c'
    /\ Canvas.hoverType c' = HoverResize.
Proof.
  destruct (getHover_handle_first (H := Sample.helpers) (Point.at_ 100 50)
              SampleHover.selected (Sample.box 0 0 100 50 (Some 0%R))
              (sizeCPsOf (Sample.box 0 0 100 50 (Some 0%R))))
    as (c' & Hget & _ & Hsize & _).
  - by repeat split.
  - reflexivity.
  - unfold sizeCPsOf. cbn. lia.
  - right. exists 2. split; [|left; split; [lia|by left]].
    unfold hitCP. cbn. unfold sizeCPsOf. cbn.
    rewrite rotatePoint_0. unfold Sample.squareHit. cbn.
    rewrite !bool_decide_eq_true_2; [done| |]; apply Rabs_lt_1; lra.
  - exists c'. split; [exact Hget|]. apply Hsize.
    exists 2. split; [|left; split; [lia|by left]].
    unfold hitCP. cbn. unfold sizeCPsOf. cbn.
    rewrite rotatePoint_0. unfold Sample.squareHit. cbn.
    rewrite !bool_decide_eq_true_2; [done| |]; apply Rabs_lt_1; lra.
Defined.

Lemma inBox_box (px py x y w h : R) (rot : option R) :
  Sample.inBox (Point.at_ px py) (Some (Sample.box x y w h rot))
  = bool_decide (x <= px)%R && bool_decide (px <= x + w)%R
    && bool_decide (y <= py)%R && bool_decide (py <= y + h)%R.
Proof. reflexivity. Qed.

Lemma getHover_topmost_pen_witness :
  exists c',
    getHover (H := Sample.helpers) (Point.at_ 75 25) SampleHover.stacked = Some c'
    /\ Store.hover (Canvas.store c') = Some 1
    /\ Store.lastHover (Canvas.store c') = Some 1.
Proof.
  destruct (getHover_topmost_pen (H := Sample.helpers) (Point.at_ 75 25)
              SampleHover.stacked false 1)
    as (c' & Hget & Hhov & Hlast & _).
  - reflexivity.
  - by left.
  - unfold penTaken. cbn.
    rewrite (bool_decide_eq_false_2 (None = Some false)) by done.
    by rewrite !bool_decide_eq_true_2 by lra.
  - intros [|[|k]] Hk; [lia|lia|]. reflexivity.
  - by exists c'.
Defined.

Lemma getHover_nothing_under_witness :
  exists c',
    getHover (H := Sample.helpers) (Point.at_ 300 300) SampleHover.stacked = Some c'
    /\ Canvas.hoverType c' = HoverNone
    /\ Store.hover (Canvas.store c') = None.
Proof.
  destruct (getHover_nothing_under (H := Sample.helpers) (Point.at_ 300 300)
              SampleHover.stacked false)
    as (c' & Hget & _ & _ & Hkind).
  - reflexivity.
  - by left.
  - intros [|[|j]] Hj; [| |cbn in Hj; lia]; unfold penTaken; cbn.
    + rewrite (bool_decide_eq_false_2 (300 <= 0 + 100)%R) by lra.
      by rewrite !andb_false_r.
    + rewrite (bool_decide_eq_false_2 (300 <= 50 + 100)%R) by lra.
      by rewrite !andb_false_r.
  - by exists c'.
Defined.

Lemma getHover_locked_witness :
  exists c',
    getHover (H := Sample.helpers) (Point.at_ 75 25) SampleHover.locked = Some c'
    /\ Store.anchor (Canvas.store c') = None.
Proof.
  destruct (getHover_locked (H := Sample.helpers) (Point.at_ 75 25)
              SampleHover.locked false eq_refl eq_refl)
    as (c' & Hget & _ & Hanchor).
  by exists c'.
Defined.

(** ** Resize gesture *)

(** X8: the [switch] of [resizePens] keeps the rect a box: whichever
    handle is dragged, and by whatever offsets, [ex = x + width] and
    [ey = y + height] still hold afterwards; an index outside 0..7 changes
    nothing. *)
Theorem resizeRect_keeps_box (index : nat) (offsetX offsetY : R) (r : Rect.t) :
  boxed r ->
  boxed (resizeRect index offsetX offsetY r)
  /\ Rect.rotate (resizeRect index offsetX offsetY r) = Rect.rotate r
  /\ (8 <= index -> resizeRect index offsetX offsetY r = r).
Proof.
  intros [Hx Hy]. split; [|split].
  - do 8 (destruct index as [|index]; [split; cbn; lra|]). by split.
  - do 8 (destruct index as [|index]; [reflexivity|]). reflexivity.
  - intros Hi. do 8 (destruct index as [|index]; [lia|]). reflexivity.
Qed.

Lemma resizeRect_keeps_box_witness :
  boxed (resizeRect 0 3 4 (Sample.box 0 0 100 50 None))
  /\ Rect.width (resizeRect 0 3 4 (Sample.box 0 0 100 50 None)) = (100 - 3)%R.
Proof.
  split; [|reflexivity].
  apply (resizeRect_keeps_box 0 3 4 (Sample.box 0 0 100 50 None)).
  split; reflexivity.
Defined.

Lemma gestureKept_refl (c : Canvas.t) : gestureKept c c.
Proof. by repeat split. Qed.

Lemma gestureKept_trans (c1 c2 c3 : Canvas.t) :
  gestureKept c1 c2 -> gestureKept c2 c3 -> gestureKept c1 c3.
Proof.
  unfold gestureKept.
  intros (H1 & H2 & H3 & H4 & H5 & H6 & H7) (G1 & G2 & G3 & G4 & G5 & G6 & G7).
  repeat split; congruence.
Qed.

Lemma gestureKept_alterPen (f : Pen.t -> Pen.t) (j : nat) (c : Canvas.t) :
  gestureKept c (alterPen f j c).
Proof.
  unfold gestureKept. repeat split; try reflexivity.
  rewrite pensOf_alterPen. apply length_alter.
Qed.

Lemma detachActiveRect_store (j : nat) (c : Canvas.t) :
  Canvas.store (detachActiveRect j c) = Canvas.store c.
Proof.
  unfold detachActiveRect.
  destruct (Canvas.activeRect c) as [[i|r]|]; [|done|done].
  by case_bool_decide.
Qed.

Lemma gestureKept_detach (j : nat) (c : Canvas.t) :
  gestureKept c (detachActiveRect j c).
Proof.
  unfold gestureKept, pensOf. rewrite detachActiveRect_store.
  unfold detachActiveRect.
  destruct (Canvas.activeRect c) as [[i|r]|]; [|done|done].
  by case_bool_decide.
Qed.

Lemma gestureKept_dirtyPenRect `{Helpers} (j : nat) (c : Canvas.t) :
  gestureKept c (dirtyPenRect j c).
Proof.
  unfold dirtyPenRect. destruct (pensOf c !! j) as [p|]; [|apply gestureKept_refl].
  eapply gestureKept_trans; [apply (gestureKept_detach j)|].
  eapply gestureKept_trans; [apply gestureKept_alterPen|].
  by repeat split.
Qed.

(** A write into a pen that leaves its world rect alone does not move the
    active rect. *)
Lemma getActiveRect_alterPen_const (pen pen' : Pen.t) (j : nat) (c : Canvas.t) :
  pensOf c !! j = Some pen ->
  Calc.worldRect (Pen.calculative pen') = Calc.worldRect (Pen.calculative pen) ->
  getActiveRect (alterPen (fun _ => pen') j c) = getActiveRect c.
Proof.
  intros Hpen Hrect. unfold getActiveRect.
  change (Canvas.activeRect (alterPen (fun _ => pen') j c)) with (Canvas.activeRect c).
  destruct (Canvas.activeRect c) as [[i|r]|]; [|done|done].
  rewrite pensOf_alterPen.
  destruct (decide (j = i)) as [->|Hne].
  - by rewrite list_lookup_alter_eq, Hpen; cbn; rewrite Hrect.
  - by rewrite list_lookup_alter_ne.
Qed.

(** [dirtyPenRect] gives the pen a fresh world rect: the active rect, were
    it the old one, keeps the old value. *)
Lemma getActiveRect_dirtyPenRect `{Helpers} (j : nat) (c : Canvas.t) :
  getActiveRect (dirtyPenRect j c) = getActiveRect c.
Proof.
  unfold dirtyPenRect. destruct (pensOf c !! j) as [p|] eqn:Hp; [|done].
  set (p2 := Pen_ops.alterCalc _ _).
  unfold getActiveRect at 1.
  change (Canvas.activeRect (Canvas.set_dirty true (alterPen (fun _ => p2) j (detachActiveRect j c))))
    with (Canvas.activeRect (detachActiveRect j c)).
  change (pensOf (Canvas.set_dirty true (alterPen (fun _ => p2) j (detachActiveRect j c))))
    with (alter (fun _ => p2) j (pensOf (detachActiveRect j c))).
  assert (Hpens : pensOf (detachActiveRect j c) = pensOf c).
  { unfold pensOf. by rewrite detachActiveRect_store. }
  rewrite Hpens.
  unfold detachActiveRect, getActiveRect.
  destruct (Canvas.activeRect c) as [[i|r]|] eqn:Har; [|by rewrite Har|by rewrite Har].
  case_bool_decide as Hij.
  - subst i. cbn. rewrite Hp. by cbn.
  - rewrite Har. by rewrite list_lookup_alter_ne.
Qed.

(** The loop over the selection runs to its end when every selected pen is
    in the document and has a recorded position; it moves neither the
    active rect nor the gesture's fields. *)
Lemma resizeMembers_ok `{Helpers} (r : Rect.t) (sx sy : R) (members : list nat) :
  forall (k : nat) (c : Canvas.t),
    Forall (fun j => j < length (pensOf c)) members ->
    k + length members <= length (Canvas.activeInitPos c) ->
    exists c',
      resizeMembers r sx sy k members c = Some c'
      /\ getActiveRect c' = getActiveRect c
      /\ gestureKept c c'.
Proof.
  induction members as [|j rest IH]; intros k c Hvalid Hlen.
  { exists c. split; [done|]. split; [done|apply gestureKept_refl]. }
  apply Forall_cons in Hvalid as [Hj Hrest]. cbn [length] in Hlen.
  cbn [resizeMembers].
  destruct (lookup_lt_is_Some_2 (pensOf c) j Hj) as [pen Hpen]. rewrite Hpen.
  destruct (JS.truthy_str (Pen.parentId pen)).
  { apply IH; [done|lia]. }
  destruct (lookup_lt_is_Some_2 (Canvas.activeInitPos c) k) as [ip Hip]; [lia|].
  rewrite Hip.
  set (pen' := Pen.set_height _ _).
  set (c1 := dirtyPenRect j (alterPen (fun _ => pen') j c)).
  assert (Hkept : gestureKept c c1).
  { eapply gestureKept_trans; [apply (gestureKept_alterPen (fun _ => pen') j)|].
    apply gestureKept_dirtyPenRect. }
  assert (Hrect : getActiveRect c1 = getActiveRect c).
  { subst c1. rewrite getActiveRect_dirtyPenRect.
    by apply (getActiveRect_alterPen_const pen). }
  destruct Hkept as (K1 & K2 & K3 & K4 & K5 & K6 & K7).
  destruct (IH (S k) c1) as (c' & Hrun & Hrect' & Hkept').
  - by rewrite K7.
  - rewrite K2. lia.
  - exists c'. split; [exact Hrun|]. split; [congruence|].
    eapply gestureKept_trans; [|exact Hkept']. by repeat split.
Qed.

Lemma render_gestureKept (arg : RenderArg) (clock : R) (c : Canvas.t) :
  gestureKept c (render arg clock c)
  /\ getActiveRect (render arg clock c) = getActiveRect c.
Proof.
  unfold render.
  destruct arg; cbn; repeat (case_match; cbn); by repeat split.
Qed.

Lemma gestureKept_modActiveRect (f : Rect.t -> Rect.t) (c : Canvas.t) :
  gestureKept c (modActiveRect f c).
Proof.
  unfold modActiveRect.
  destruct (Canvas.activeRect c) as [[i|r]|]; [|by repeat split|apply gestureKept_refl].
  apply gestureKept_alterPen.
Qed.

(** One call of [resizePens]: it returns, the active rect is the old one
    passed through the [switch] with the movement since the last call and
    then [calcCenter], and the movement since pointer-down is recorded. *)
Lemma resizePens_step `{Helpers} (e : Point.t) (clock : R) (c : Canvas.t)
    (md : MouseEvent) (r : Rect.t) :
  resizeReady c md r ->
  let back := Ropp <$> Rect.rotate r in
  let p1 := Geometry.rotatePoint (Point.at_ (ev_x md) (ev_y md)) back (Rect.center r) in
  let p2 := Geometry.rotatePoint (Point.at_ (Point.x e) (Point.y e)) back (Rect.center r) in
  let x := (Point.x p2 - Point.x p1)%R in
  let y := (Point.y p2 - Point.y p1)%R in
  exists c',
    resizePens e clock c = Some c'
    /\ resizeReady c' md
         (Geometry.calcCenter
            (resizeRect (Canvas.resizeIndex c) (x - Canvas.lastOffsetX c)
               (y - Canvas.lastOffsetY c) r))
    /\ Canvas.resizeIndex c' = Canvas.resizeIndex c
    /\ Canvas.lastOffsetX c' = x
    /\ Canvas.lastOffsetY c' = y.
Proof.
  intros (Hmd & Hrect & Hvalid & Hlen) back p1 p2 x y.
  unfold resizePens. rewrite Hmd, bind_Some, Hrect, bind_Some.
  fold back. fold p1 p2. fold x y.
  set (c1 := Canvas.set_lastOffsetY y (Canvas.set_lastOffsetX x c)).
  set (f := fun r0 => Geometry.calcCenter
                        (resizeRect (Canvas.resizeIndex c) (x - Canvas.lastOffsetX c)
                           (y - Canvas.lastOffsetY c) r0)).
  set (c2 := modActiveRect f c1).
  assert (Hrect2 : getActiveRect c2 = Some (f r)).
  { apply getActiveRect_modActiveRect. exact Hrect. }
  rewrite Hrect2, bind_Some.
  destruct (gestureKept_modActiveRect f c1) as (K1 & K2 & K3 & K4 & K5 & K6 & K7).
  fold c2 in K1, K2, K3, K4, K5, K6, K7.
  destruct (resizeMembers_ok (f r) (Rect.width (f r) / Rect.width r)
              (Rect.height (f r) / Rect.height r)
              (Store.active (Canvas.store c2)) 0 c2)
    as (c3 & Hrun & Hrect3 & (M1 & M2 & M3 & M4 & M5 & M6 & M7)).
  { rewrite K6, K7. exact Hvalid. }
  { rewrite K6, K2. exact Hlen. }
  rewrite Hrun, bind_Some.
  unfold getSizeCPs. rewrite Hrect3, Hrect2, bind_Some.
  set (c4 := Canvas.set_sizeCPs _ c3).
  destruct (render_gestureKept Forced clock c4) as ((R1 & R2 & R3 & R4 & R5 & R6 & R7) & Rrect).
  eexists. split; [reflexivity|].
  split; [|split; [|split]].
  - unfold resizeReady. rewrite R1, Rrect, R6, R7, R2.
    change (Canvas.mouseDown c4) with (Canvas.mouseDown c3).
    change (getActiveRect c4) with (getActiveRect c3).
    change (Store.active (Canvas.store c4)) with (Store.active (Canvas.store c3)).
    change (pensOf c4) with (pensOf c3).
    change (Canvas.activeInitPos c4) with (Canvas.activeInitPos c3).
    rewrite M1, K1, Hrect3, Hrect2, M6, K6, M7, K7, M2, K2.
    by repeat split.
  - rewrite R3. change (Canvas.resizeIndex c4) with (Canvas.resizeIndex c3).
    by rewrite M3, K3.
  - rewrite R4. change (Canvas.lastOffsetX c4) with (Canvas.lastOffsetX c3).
    by rewrite M4, K4.
  - rewrite R5. change (Canvas.lastOffsetY c4) with (Canvas.lastOffsetY c3).
    by rewrite M5, K5.
Qed.

Lemma rotatePoint_back_unrotated (p center : Point.t) (r : Rect.t) :
  unrotated r ->
  Geometry.rotatePoint p (Ropp <$> Rect.rotate r) center = p.
Proof.
  intros [-> | ->]; [done|]. cbn [fmap option_fmap option_map].
  rewrite Ropp_0. apply rotatePoint_0.
Qed.

Lemma resizeRect_rotate (idx : nat) (dx dy : R) (r : Rect.t) :
  Rect.rotate (Geometry.calcCenter (resizeRect idx dx dy r)) = Rect.rotate r.
Proof. do 8 (destruct idx as [|idx]; [reflexivity|]). reflexivity. Qed.

(** The [switch] adds the new movement to the sides its handle drags. *)
Lemma sidesMoved_step (idx : nat) (r0 r : Rect.t) (X Y x y : R) :
  sidesMoved idx r0 r X Y ->
  sidesMoved idx r0 (Geometry.calcCenter (resizeRect idx (x - X) (y - Y) r)) x y.
Proof.
  intros (H1 & H2 & H3 & H4 & H5 & H6).
  do 8 (destruct idx as [|idx];
        [unfold sidesMoved, dragged in *; cbn in *; repeat split; lra|]).
  unfold sidesMoved, dragged in *; cbn in *; repeat split; lra.
Qed.

Lemma resizeMoves_sides `{Helpers} (md : MouseEvent) (idx : nat) (r0 : Rect.t)
    (moves : list (Point.t * R)) :
  forall (c : Canvas.t) (r : Rect.t) (e : Point.t) (clock : R),
    resizeReady c md r ->
    unrotated r ->
    Canvas.resizeIndex c = idx ->
    sidesMoved idx r0 r (Canvas.lastOffsetX c) (Canvas.lastOffsetY c) ->
    exists c' r',
      resizeMoves (moves ++ [(e, clock)]) c = Some c'
      /\ getActiveRect c' = Some r'
      /\ sidesMoved idx r0 r' (Point.x e - ev_x md) (Point.y e - ev_y md).
Proof.
  induction moves as [|[e1 clock1] rest IH]; intros c r e clock Hready Hun Hidx Hsides.
  - cbn [app resizeMoves].
    destruct (resizePens_step e clock c md r Hready)
      as (c' & Hstep & Hready' & _ & _ & _).
    rewrite !(rotatePoint_back_unrotated _ _ r Hun) in Hready'.
    rewrite Hstep, bind_Some. cbn [resizeMoves].
    eexists c', _. split; [reflexivity|].
    split; [apply Hready'|].
    rewrite Hidx. by apply sidesMoved_step.
  - cbn [app resizeMoves].
    destruct (resizePens_step e1 clock1 c md r Hready)
      as (c1 & Hstep & Hready1 & Hidx1 & HX & HY).
    rewrite !(rotatePoint_back_unrotated _ _ r Hun) in Hready1, HX, HY.
    rewrite Hstep, bind_Some.
    eapply IH; [exact Hready1| |congruence|].
    + unfold unrotated in *.
      destruct (resizeRect_rotate (Canvas.resizeIndex c)
                  (Point.x (Point.at_ (Point.x e1) (Point.y e1))
                   - Point.x (Point.at_ (ev_x md) (ev_y md)) - Canvas.lastOffsetX c)
                  (Point.y (Point.at_ (Point.x e1) (Point.y e1))
                   - Point.y (Point.at_ (ev_x md) (ev_y md)) - Canvas.lastOffsetY c) r).
      exact Hun.
    + rewrite HX, HY, Hidx. by apply sidesMoved_step.
Qed.

(** X9: a resize gesture on an unturned active rect depends only on where
    the pointer is now: after any number of calls of [resizePens] the sides
    that the handle drags are displaced by the whole movement of the pointer
    since pointer-down, and the other sides are where they were.  For the
    bottom-right corner (index 2) the width and height grow by the movement
    and [x], [y] stay; for the top-left corner (index 0) [ex], [ey] stay. *)
Theorem resize_gesture_moves_own_sides `{Helpers} (md : MouseEvent) (idx : nat)
    (c : Canvas.t) (r : Rect.t) (moves : list (Point.t * R)) (e : Point.t)
    (clock : R) :
  resizeStart c md r idx ->
  unrotated r ->
  exists c' r',
    resizeMoves (moves ++ [(e, clock)]) c = Some c'
    /\ getActiveRect c' = Some r'
    /\ sidesMoved idx r r' (Point.x e - ev_x md) (Point.y e - ev_y md).
Proof.
  intros (Hready & Hidx & HX & HY) Hun.
  apply (resizeMoves_sides md idx r moves c r e clock Hready Hun Hidx).
  rewrite HX, HY. unfold sidesMoved, dragged.
  repeat split; repeat case_match; lra.
Qed.

Lemma resize_gesture_moves_own_sides_witness :
  exists c' r',
    resizeMoves (H := Sample.helpers)
      [(Point.at_ 105 60, 0%R); (Point.at_ 130 70, 0%R)] SampleResize.pressed = Some c'
    /\ getActiveRect c' = Some r'
    /\ Rect.x r' = 0%R /\ Rect.y r' = 0%R
    /\ Rect.width r' = 130%R /\ Rect.height r' = 70%R.
Proof.
  destruct (resize_gesture_moves_own_sides (H := Sample.helpers)
              (mkMouseEvent 100 50 false false false) 2 SampleResize.pressed
              (Sample.box 0 0 100 50 (Some 0%R))
              [(Point.at_ 105 60, 0%R)] (Point.at_ 130 70) 0)
    as (c' & r' & Hrun & Hrect & Hx & _ & Hy & _ & Hw & Hh).
  - repeat split; try reflexivity; repeat constructor; cbn; lia.
  - by right.
  - exists c', r'. split; [exact Hrun|]. split; [exact Hrect|].
    rewrite Hx, Hy, Hw, Hh. unfold dragged. cbn. repeat split; lra.
Defined.

Lemma pensOf_detachActiveRect (j : nat) (c : Canvas.t) :
  pensOf (detachActiveRect j c) = pensOf c.
Proof. unfold pensOf. by rewrite detachActiveRect_store. Qed.

(** The pen that [dirtyPenRect] leaves at its position: the same logical
    rect, fresh derived rects. *)
Lemma dirtyPenRect_lookup `{Helpers} (j : nat) (c : Canvas.t) (p : Pen.t) :
  pensOf c !! j = Some p ->
  exists p',
    pensOf (dirtyPenRect j c) !! j = Some p'
    /\ Pen.x p' = Pen.x p /\ Pen.y p' = Pen.y p
    /\ Pen.width p' = Pen.width p /\ Pen.height p' = Pen.height p
    /\ Calc.worldRect (Pen.calculative p') = calcWorldRects (penById c) p.
Proof.
  intros Hp. unfold dirtyPenRect. rewrite Hp.
  set (p2 := Pen_ops.alterCalc _ _).
  exists p2.
  change (pensOf (Canvas.set_dirty true (alterPen (fun _ => p2) j (detachActiveRect j c))))
    with (alter (fun _ => p2) j (pensOf (detachActiveRect j c))).
  rewrite pensOf_detachActiveRect, list_lookup_alter_eq, Hp.
  by repeat split.
Qed.

(** One call of [resizePens] on a selection of one pen without parent. *)
Lemma resizePens_member_spec `{Helpers} (e : Point.t) (clock : R)
    (c : Canvas.t) (md : MouseEvent) (r : Rect.t) (j : nat) (pen : Pen.t)
    (ip : Point.t) :
  resizeReady c md r ->
  Store.active (Canvas.store c) = [j] ->
  pensOf c !! j = Some pen ->
  JS.truthy_str (Pen.parentId pen) = false ->
  Canvas.activeInitPos c !! 0 = Some ip ->
  exists c' r' pen',
    resizePens e clock c = Some c'
    /\ getActiveRect c' = Some r'
    /\ pensOf c' !! j = Some pen'
    /\ Pen.x pen' = (Point.x ip * Rect.width r' + Rect.x r')%R
    /\ Pen.y pen' = (Point.y ip * Rect.height r' + Rect.y r')%R
    /\ Pen.width pen' = (Pen.width pen * (Rect.width r' / Rect.width r))%R
    /\ Pen.height pen' = (Pen.height pen * (Rect.height r' / Rect.height r))%R.
Proof.
  intros Hready Hact Hpen Hparent Hip.
  destruct (resizePens_step e clock c md r Hready)
    as (c' & Hstep & (_ & Hrect' & _) & _).
  cbv zeta in Hrect'.
  set (r' := Geometry.calcCenter _) in Hrect'.
  assert (Hmember : exists pen',
             pensOf c' !! j = Some pen'
             /\ Pen.x pen' = (Point.x ip * Rect.width r' + Rect.x r')%R
             /\ Pen.y pen' = (Point.y ip * Rect.height r' + Rect.y r')%R
             /\ Pen.width pen' = (Pen.width pen * (Rect.width r' / Rect.width r))%R
             /\ Pen.height pen' = (Pen.height pen * (Rect.height r' / Rect.height r))%R);
    [|destruct Hmember as (pen' & Hmember); by exists c', r', pen'].
  destruct Hready as (Hmd & Hrect & _ & _).
  clear Hrect'. revert Hstep. unfold resizePens. rewrite Hmd, bind_Some, Hrect, bind_Some.
  cbv zeta. fold r'.
  set (c1 := Canvas.set_lastOffsetY _ (Canvas.set_lastOffsetX _ c)).
  set (f := fun r0 => Geometry.calcCenter (resizeRect _ _ _ r0)).
  set (c2 := modActiveRect f c1).
  assert (Hrect2 : getActiveRect c2 = Some r').
  { apply (getActiveRect_modActiveRect f r c1). exact Hrect. }
  rewrite Hrect2, bind_Some.
  assert (Hact2 : Store.active (Canvas.store c2) = [j]).
  { destruct (gestureKept_modActiveRect f c1) as (_ & _ & _ & _ & _ & K6 & _).
    fold c2 in K6. rewrite K6. exact Hact. }
  assert (Hpen2 : exists pen2, pensOf c2 !! j = Some pen2
                    /\ Pen.x pen2 = Pen.x pen /\ Pen.y pen2 = Pen.y pen
                    /\ Pen.width pen2 = Pen.width pen /\ Pen.height pen2 = Pen.height pen
                    /\ Pen.parentId pen2 = Pen.parentId pen).
  { subst c2. unfold modActiveRect.
    change (Canvas.activeRect c1) with (Canvas.activeRect c).
    destruct (Canvas.activeRect c) as [[i|r0]|]; [|by exists pen|by exists pen].
    rewrite pensOf_alterPen. change (pensOf c1) with (pensOf c).
    destruct (decide (i = j)) as [->|Hne].
    - rewrite list_lookup_alter_eq, Hpen. eexists. split; [reflexivity|]. by repeat split.
    - rewrite list_lookup_alter_ne by done. by exists pen. }
  destruct Hpen2 as (pen2 & Hpen2 & Hx2 & Hy2 & Hw2 & Hh2 & Hpar2).
  rewrite Hact2. cbn [resizeMembers]. rewrite Hpen2, Hpar2, Hparent.
  change (Canvas.activeInitPos c2) with (Canvas.activeInitPos (modActiveRect f c1)).
  destruct (gestureKept_modActiveRect f c1) as (_ & K2 & _).
  rewrite K2. change (Canvas.activeInitPos c1) with (Canvas.activeInitPos c).
  rewrite Hip.
  set (pen3 := Pen.set_height _ _).
  set (c3 := alterPen (fun _ => pen3) j c2).
  assert (Hpen3 : pensOf c3 !! j = Some pen3).
  { subst c3. by rewrite pensOf_alterPen, list_lookup_alter_eq, Hpen2. }
  destruct (dirtyPenRect_lookup j c3 pen3 Hpen3) as (pen' & Hpen' & Hx & Hy & Hw & Hh & _).
  rewrite bind_Some. unfold getSizeCPs.
  destruct (getActiveRect (dirtyPenRect j c3)) as [r4|]; [|done].
  rewrite !bind_Some. intros [= <-].
  exists pen'.
  split.
  { change (pensOf (render Forced clock (Canvas.set_sizeCPs (Some (sizeCPsOf r4)) (dirtyPenRect j c3))))
      with (Store.pens (Canvas.store (render Forced clock (Canvas.set_sizeCPs (Some (sizeCPsOf r4)) (dirtyPenRect j c3))))).
    rewrite render_store. exact Hpen'. }
  rewrite Hx, Hy, Hw, Hh. subst pen3. cbn. rewrite Hw2, Hh2. by repeat split.
Qed.

(** X10: one call of [resizePens] on a selection of one pen without
    parent, whose active rect has a width and a height that are not 0 (the
    code divides by them): the pen is put at its recorded normalised
    position inside the resized active rect, and its size is scaled by the
    ratio of the new size of the rect to the old one. *)
Theorem resizePens_places_member `{Helpers} (e : Point.t) (clock : R)
    (c : Canvas.t) (md : MouseEvent) (r : Rect.t) (j : nat) (pen : Pen.t)
    (ip : Point.t) :
  resizeReady c md r ->
  Rect.width r <> 0%R ->
  Rect.height r <> 0%R ->
  Store.active (Canvas.store c) = [j] ->
  pensOf c !! j = Some pen ->
  JS.truthy_str (Pen.parentId pen) = false ->
  Canvas.activeInitPos c !! 0 = Some ip ->
  exists c' r' pen',
    resizePens e clock c = Some c'
    /\ getActiveRect c' = Some r'
    /\ pensOf c' !! j = Some pen'
    /\ Pen.x pen' = (Point.x ip * Rect.width r' + Rect.x r')%R
    /\ Pen.y pen' = (Point.y ip * Rect.height r' + Rect.y r')%R
    /\ Pen.width pen' = (Pen.width pen * (Rect.width r' / Rect.width r))%R
    /\ Pen.height pen' = (Pen.height pen * (Rect.height r' / Rect.height r))%R.
Proof.
  intros Hready _ _. exact (resizePens_member_spec e clock c md r j pen ip Hready).
Qed.

(** The rect after one call on the sample: the bottom-right handle of an
    unturned rect. *)
Lemma resize_step_rect `{Helpers} (e : Point.t) (clock : R) (c : Canvas.t)
    (md : MouseEvent) (r : Rect.t) (c' : Canvas.t) (r' : Rect.t) :
  resizeStart c md r 2 ->
  unrotated r ->
  resizePens e clock c = Some c' ->
  getActiveRect c' = Some r' ->
  Rect.x r' = Rect.x r
  /\ Rect.width r' = (Rect.width r + (Point.x e - ev_x md))%R.
Proof.
  intros (Hready & Hidx & HX & HY) Hun Hrun Hrect.
  destruct (resizePens_step e clock c md r Hready) as (c1 & Hstep & (_ & Hrect1 & _) & _).
  rewrite Hrun in Hstep. injection Hstep as <-.
  rewrite Hrect in Hrect1. injection Hrect1 as ->.
  rewrite !(rotatePoint_back_unrotated _ _ r Hun), Hidx, HX.
  cbn. split; lra.
Qed.

Lemma resizePens_places_member_witness :
  exists c' pen',
    resizePens (H := Sample.helpers) (Point.at_ 130 70) 0 SampleResize.pressed = Some c'
    /\ pensOf c' !! 0 = Some pen'
    /\ Pen.x pen' = 0%R
    /\ Pen.width pen' = 130%R.
Proof.
  destruct (resizePens_places_member (H := Sample.helpers) (Point.at_ 130 70) 0
              SampleResize.pressed (mkMouseEvent 100 50 false false false)
              (Sample.box 0 0 100 50 (Some 0%R)) 0 (Sample.node "a" 0 0 100 50)
              (Point.at_ 0 0))
    as (c' & r' & pen' & Hrun & Hrect & Hpen & Hx & _ & Hw & _); try reflexivity.
  - repeat split; try reflexivity; repeat constructor; cbn; lia.
  - cbn. lra.
  - cbn. lra.
  - destruct (resize_step_rect (H := Sample.helpers) (Point.at_ 130 70) 0
                SampleResize.pressed (mkMouseEvent 100 50 false false false)
                (Sample.box 0 0 100 50 (Some 0%R)) c' r') as (Hrx & Hrw);
      [repeat split; try reflexivity; repeat constructor; cbn; lia|by right|done|done|].
    exists c', pen'. split; [exact Hrun|]. split; [exact Hpen|].
    rewrite Hx, Hw, Hrx, Hrw. cbn. split; lra.
Defined.

(** ** Translate gesture *)

Lemma dirtyPenRect_other `{Helpers} (j k : nat) (c : Canvas.t) :
  k <> j -> pensOf (dirtyPenRect j c) !! k = pensOf c !! k.
Proof.
  intros Hne. unfold dirtyPenRect. destruct (pensOf c !! j) as [p|]; [|done].
  set (p2 := Pen_ops.alterCalc _ _).
  change (pensOf (Canvas.set_dirty true (alterPen (fun _ => p2) j (detachActiveRect j c))))
    with (alter (fun _ => p2) j (pensOf (detachActiveRect j c))).
  rewrite pensOf_detachActiveRect. by rewrite list_lookup_alter_ne.
Qed.

Lemma dirtyPenRect_own `{Helpers} (j : nat) (c : Canvas.t) (r : Rect.t) :
  Canvas.activeRect c = Some (RectOwn r) ->
  Canvas.activeRect (dirtyPenRect j c) = Some (RectOwn r).
Proof.
  intros Har. unfold dirtyPenRect. destruct (pensOf c !! j) as [p|]; [|done].
  set (p2 := Pen_ops.alterCalc _ _).
  change (Canvas.activeRect (Canvas.set_dirty true (alterPen (fun _ => p2) j (detachActiveRect j c))))
    with (Canvas.activeRect (detachActiveRect j c)).
  unfold detachActiveRect. by rewrite Har.
Qed.

(** The loop of [translatePens] during a gesture: it runs to its end, and
    each pen of the list is translated or stays, as its own test says; the
    other pens and the active rect are not touched. *)
Lemma translateMembers_spec `{Helpers} (x y : R) (r : Rect.t) (members : list nat) :
  forall c : Canvas.t,
    Canvas.activeRect c = Some (RectOwn r) ->
    NoDup members ->
    Forall (fun j => exists pen, pensOf c !! j = Some pen /\ is_Some (stays pen)) members ->
    exists c',
      translateMembers x y true members c = Some c'
      /\ Canvas.activeRect c' = Some (RectOwn r)
      /\ gestureKept c c'
      /\ (forall k, k ∉ members -> pensOf c' !! k = pensOf c !! k)
      /\ (forall j pen, j ∈ members -> pensOf c !! j = Some pen ->
            exists pen', pensOf c' !! j = Some pen' /\ translated x y pen pen').
Proof.
  induction members as [|j rest IH]; intros c Har Hnodup Hvalid.
  { exists c. split; [done|]. split; [done|]. split; [apply gestureKept_refl|].
    split; [done|]. intros j pen Hin. by apply elem_of_nil in Hin. }
  apply NoDup_cons in Hnodup as [Hj Hnodup].
  apply Forall_cons in Hvalid as [(pen & Hpen & Hstay) Hrest].
  cbn [translateMembers]. rewrite Hpen.
  change (if JS.truthy_str (Pen.parentId pen) then Some true
          else if Pen_ops.isLine pen then Pen_ops.connected pen else Some false)
    with (stays pen).
  destruct Hstay as [b Hstay]. rewrite Hstay.
  destruct b.
  - (* the pen stays *)
    destruct (IH c Har Hnodup Hrest) as (c' & Hrun & Har' & Hlen & Hout & Hin).
    exists c'. split; [exact Hrun|]. split; [exact Har'|]. split; [exact Hlen|].
    split.
    + intros k Hk. apply Hout. intros Hk'. apply Hk. by right.
    + intros j' pen0 Hj' Hpen0.
      apply elem_of_cons in Hj' as [->|Hj'].
      * rewrite Hpen in Hpen0. injection Hpen0 as <-.
        exists pen. split; [by rewrite (Hout j Hj)|].
        unfold translated. by rewrite Hstay.
      * by apply Hin.
  - (* the pen moves *)
    set (c1 := if Pen_ops.isLine pen
               then alterPen (fun _ => translateLine pen x y) j c
               else dirtyPenRect j (alterPen (fun _ => Pen_ops.translateRect pen x y) j c)).
    assert (Har1 : Canvas.activeRect c1 = Some (RectOwn r)).
    { subst c1. destruct (Pen_ops.isLine pen); [exact Har|].
      by apply dirtyPenRect_own. }
    assert (Hlen1 : gestureKept c c1).
    { subst c1. destruct (Pen_ops.isLine pen).
      - apply gestureKept_alterPen.
      - eapply gestureKept_trans; [|apply gestureKept_dirtyPenRect].
        apply gestureKept_alterPen. }
    assert (Hother : forall k, k <> j -> pensOf c1 !! k = pensOf c !! k).
    { intros k Hk. subst c1. destruct (Pen_ops.isLine pen).
      - rewrite pensOf_alterPen. by rewrite list_lookup_alter_ne.
      - rewrite dirtyPenRect_other by done.
        rewrite pensOf_alterPen. by rewrite list_lookup_alter_ne. }
    assert (Hself : exists pen', pensOf c1 !! j = Some pen' /\ translated x y pen pen').
    { subst c1. unfold translated. rewrite Hstay.
      destruct (Pen_ops.isLine pen).
      - eexists. split; [|reflexivity].
        by rewrite pensOf_alterPen, list_lookup_alter_eq, Hpen.
      - destruct (dirtyPenRect_lookup j
                    (alterPen (fun _ => Pen_ops.translateRect pen x y) j c)
                    (Pen_ops.translateRect pen x y))
          as (pen' & Hpen' & Hx & Hy & Hw & Hh & _).
        { by rewrite pensOf_alterPen, list_lookup_alter_eq, Hpen. }
        exists pen'. split; [exact Hpen'|]. by rewrite Hx, Hy, Hw, Hh. }
    destruct (IH c1 Har1 Hnodup) as (c' & Hrun & Har' & Hlen & Hout & Hin).
    { rewrite Forall_forall in Hrest. apply Forall_forall. intros k Hk.
      destruct (Hrest k Hk) as (pk & Hpk & Hsk).
      exists pk. split; [|exact Hsk]. rewrite Hother; [exact Hpk|].
      intros ->. by apply Hj. }
    rewrite Hrun.
    exists c'. split; [reflexivity|]. split; [exact Har'|].
    split; [by eapply gestureKept_trans|]. split.
    + intros k Hk. rewrite Hout.
      * apply Hother. intros ->. apply Hk. by left.
      * intros Hk'. apply Hk. by right.
    + intros j' pen0 Hj' Hpen0.
      apply elem_of_cons in Hj' as [->|Hj'].
      * rewrite Hpen in Hpen0. injection Hpen0 as <-.
        destruct Hself as (pen' & Hpen' & Htr).
        exists pen'. split; [by rewrite (Hout j Hj)|exact Htr].
      * apply Hin; [exact Hj'|]. rewrite Hother; [exact Hpen0|].
        intros ->. by apply Hj.
Qed.

(** [translatePens] during a gesture, on an active rect of its own. *)
Lemma translatePens_step `{Helpers} (x y clock : R)
    (c : Canvas.t) (r : Rect.t) :
  translateReady c r ->
  soleConnectedLine c = Some false ->
  exists c',
    translatePens x y true clock c = Some c'
    /\ getActiveRect c' = Some (Geometry.translateRect r x y)
    /\ gestureKept c c'
    /\ (forall k, k ∉ Store.active (Canvas.store c) -> pensOf c' !! k = pensOf c !! k)
    /\ (forall j pen, j ∈ Store.active (Canvas.store c) -> pensOf c !! j = Some pen ->
          exists pen', pensOf c' !! j = Some pen' /\ translated x y pen pen').
Proof.
  intros (Har & Hnodup & Hvalid) Hsole.
  unfold translatePens. rewrite Hsole, bind_Some.
  rewrite (getActiveRect_own r c Har), bind_Some.
  unfold modActiveRect. rewrite Har.
  set (c1 := Canvas.set_activeRect _ c).
  destruct (translateMembers_spec x y (Geometry.translateRect r x y)
              (Store.active (Canvas.store c1)) c1 eq_refl Hnodup Hvalid)
    as (c2 & Hrun & Har2 & Hkept & Hout & Hin).
  rewrite Hrun, bind_Some. unfold getSizeCPs.
  rewrite (getActiveRect_own _ c2 Har2), !bind_Some.
  set (c3 := Canvas.set_sizeCPs _ c2).
  destruct (render_gestureKept Forced clock c3) as (Hkept3 & Hrect3).
  eexists. split; [reflexivity|].
  split; [rewrite Hrect3; exact (getActiveRect_own _ c2 Har2)|].
  split.
  { eapply gestureKept_trans; [|exact Hkept3].
    eapply gestureKept_trans; [|exact Hkept]. by repeat split. }
  assert (Hpens : pensOf (render Forced clock c3) = pensOf c2).
  { unfold pensOf. by rewrite render_store. }
  rewrite Hpens.
  split; [exact Hout|exact Hin].
Qed.

(** X11: a translate during a gesture, on a selection whose active rect
    is its own object: the call returns, the active rect is shifted by the
    delta, every selected pen that has a parent or is a connected line is
    left as it was, every other selected node has its logical rect shifted
    by the full delta (size kept), every other selected line is what
    [translateLine] makes of it, and no pen outside the selection is
    touched. *)
Theorem translatePens_moves_free_members `{Helpers} (x y clock : R)
    (c : Canvas.t) (r : Rect.t) :
  translateReady c r ->
  soleConnectedLine c = Some false ->
  exists c',
    translatePens x y true clock c = Some c'
    /\ getActiveRect c' = Some (Geometry.translateRect r x y)
    /\ gestureKept c c'
    /\ (forall k, k ∉ Store.active (Canvas.store c) -> pensOf c' !! k = pensOf c !! k)
    /\ (forall j pen, j ∈ Store.active (Canvas.store c) -> pensOf c !! j = Some pen ->
          exists pen', pensOf c' !! j = Some pen' /\ translated x y pen pen').
Proof.
  exact (translatePens_step x y clock c r).
Qed.

Lemma translatePens_moves_free_members_witness :
  exists c' node',
    translatePens (H := Sample.helpers) 7 3 true 0 SampleMove.pair = Some c'
    /\ pensOf c' !! 0 = Some SampleMove.tied
    /\ pensOf c' !! 1 = Some node'
    /\ Pen.x node' = (150 + 7)%R /\ Pen.y node' = (0 + 3)%R.
Proof.
  destruct (translatePens_moves_free_members (H := Sample.helpers) 7 3 0
              SampleMove.pair (Sample.box 0 0 190 40 (Some 0%R)))
    as (c' & Hrun & _ & _ & _ & Hin).
  - split; [reflexivity|]. split.
    + apply NoDup_cons. split; [by intros ?%list_elem_of_singleton|].
      apply NoDup_singleton.
    + repeat constructor.
      * exists SampleMove.tied. split; [reflexivity|]. by exists true.
      * exists (Sample.node "b" 150 0 40 40). split; [reflexivity|]. by exists false.
  - reflexivity.
  - destruct (Hin 0 SampleMove.tied) as (line' & Hline & Hsame);
      [by left|reflexivity|].
    destruct (Hin 1 (Sample.node "b" 150 0 40 40)) as (node' & Hnode & Hmoved);
      [right; by left|reflexivity|].
    exists c', node'. split; [exact Hrun|].
    change (line' = SampleMove.tied) in Hsame. subst line'.
    split; [exact Hline|]. split; [exact Hnode|].
    destruct Hmoved as (Hx & Hy & _). split; [exact Hx|exact Hy].
Defined.

(** X12: a selection that is one connected line is not translated at
    all: [translatePens] returns at its first test, before the active rect
    is shifted and before any frame is asked for. *)
Theorem translatePens_sole_connected_line `{Helpers} (x y clock : R)
    (doing : bool) (c : Canvas.t) (i : nat) (pen : Pen.t) :
  Store.active (Canvas.store c) = [i] ->
  pensOf c !! i = Some pen ->
  Pen_ops.isLine pen = true ->
  Pen_ops.connected pen = Some true ->
  translatePens x y doing clock c = Some c.
Proof.
  intros Hact Hpen Hline Hcon.
  unfold translatePens, soleConnectedLine.
  by rewrite Hact, Hpen, bind_Some, Hline, Hcon, bind_Some.
Qed.

Lemma translatePens_sole_connected_line_witness :
  translatePens (H := Sample.helpers) 7 3 true 0 SampleMove.alone
  = Some SampleMove.alone.
Proof.
  by apply (translatePens_sole_connected_line (H := Sample.helpers) 7 3 0 true
              SampleMove.alone 0 SampleMove.tied).
Defined.

(** X13: [movePens] during a drag: the movement of the pointer since
    pointer-down is recorded in full, but the selection is translated only
    by the part of it that is new since the last call, and not at all along
    x while Ctrl is held, nor along y while Shift is held: what the pointer
    moves along a held axis is dropped, not caught up later. *)
Theorem movePens_axis_lock `{Helpers} (e md : MouseEvent) (clock : R)
    (c : Canvas.t) (r : Rect.t) :
  translateReady c r ->
  soleConnectedLine c = Some false ->
  locked_truthy (Store.data_locked (Canvas.store c)) = false ->
  Canvas.mouseDown c = Some md ->
  let dx := if ev_ctrlKey e then 0%R
            else (ev_x e - ev_x md - Canvas.lastOffsetX c)%R in
  let dy := if ev_shiftKey e then 0%R
            else (ev_y e - ev_y md - Canvas.lastOffsetY c)%R in
  exists c',
    movePens e clock c = Some c'
    /\ Canvas.lastOffsetX c' = (ev_x e - ev_x md)%R
    /\ Canvas.lastOffsetY c' = (ev_y e - ev_y md)%R
    /\ getActiveRect c' = Some (Geometry.translateRect r dx dy)
    /\ (forall j pen, j ∈ Store.active (Canvas.store c) -> pensOf c !! j = Some pen ->
          exists pen', pensOf c' !! j = Some pen' /\ translated dx dy pen pen').
Proof.
  intros Hready Hsole Hlock Hmd dx dy.
  unfold movePens.
  destruct Hready as (Har & Hnodup & Hvalid).
  rewrite Har, Hlock, Hmd, bind_Some. cbn [JS.is_some negb orb].
  fold dx dy.
  set (c1 := Canvas.set_lastOffsetY _ (Canvas.set_lastOffsetX _ c)).
  destruct (translatePens_step dx dy clock c1 r) as (c' & Hrun & Hrect & Hkept & _ & Hin).
  { by repeat split. }
  { exact Hsole. }
  exists c'. split; [exact Hrun|].
  destruct Hkept as (_ & _ & _ & K4 & K5 & _).
  split; [by rewrite K4|]. split; [by rewrite K5|].
  split; [exact Hrect|exact Hin].
Qed.

Lemma movePens_axis_lock_witness :
  exists c' node',
    movePens (H := Sample.helpers) (mkMouseEvent 170 50 true false false) 0
      SampleMove.pair = Some c'
    /\ Canvas.lastOffsetX c' = 10%R
    /\ pensOf c' !! 1 = Some node'
    /\ Pen.x node' = 150%R /\ Pen.y node' = 30%R.
Proof.
  destruct (movePens_axis_lock (H := Sample.helpers)
              (mkMouseEvent 170 50 true false false)
              (mkMouseEvent 160 20 false false false) 0
              SampleMove.pair (Sample.box 0 0 190 40 (Some 0%R)))
    as (c' & Hrun & HX & _ & _ & Hin).
  - split; [reflexivity|]. split.
    + apply NoDup_cons. split; [by intros ?%list_elem_of_singleton|].
      apply NoDup_singleton.
    + repeat constructor.
      * exists SampleMove.tied. split; [reflexivity|]. by exists true.
      * exists (Sample.node "b" 150 0 40 40). split; [reflexivity|]. by exists false.
  - reflexivity.
  - reflexivity.
  - reflexivity.
  - destruct (Hin 1 (Sample.node "b" 150 0 40 40)) as (node' & Hnode & Hmoved);
      [right; by left|reflexivity|].
    exists c', node'. split; [exact Hrun|].
    split; [rewrite HX; cbn; lra|]. split; [exact Hnode|].
    destruct Hmoved as (Hx & Hy & _). rewrite Hx, Hy. cbn. split; lra.
Defined.

(** ** Selection *)

(** A sweep that sets the flag of the listed pens: their flag is the new
    one, every other flag is as before. *)
Lemma sweep_flag (b : bool) (l : list nat) :
  forall (c : Canvas.t) (k : nat),
    flagOf (foldl (fun c i => alterPen (Pen_ops.alterCalc (Calc.set_active b)) i c) c l) k
    = if decide (k ∈ l) then (fun _ => b) <$> flagOf c k else flagOf c k.
Proof.
  induction l as [|i l IH]; intros c k.
  - cbn [foldl]. by rewrite decide_False by apply not_elem_of_nil.
  - cbn [foldl]. rewrite IH.
    assert (Hstep : flagOf (alterPen (Pen_ops.alterCalc (Calc.set_active b)) i c) k
                    = if decide (k = i) then (fun _ => b) <$> flagOf c k else flagOf c k).
    { unfold flagOf. rewrite pensOf_alterPen.
      destruct (decide (k = i)) as [->|Hne].
      - rewrite list_lookup_alter_eq. by destruct (pensOf c !! i).
      - by rewrite list_lookup_alter_ne. }
    rewrite Hstep.
    destruct (decide (k ∈ l)), (decide (k = i)), (decide (k ∈ i :: l));
      try (by destruct (flagOf c k)); exfalso;
      match goal with
      | Hn : k ∉ i :: l |- _ => apply Hn, elem_of_cons; tauto
      | Hy : k ∈ i :: l |- _ => apply elem_of_cons in Hy; tauto
      end.
Qed.

(** The sweep changes [store.data.pens] only. *)
Lemma sweep_frame (f : Pen.t -> Pen.t) (l : list nat) (c : Canvas.t) :
  let c' := foldl (fun c i => alterPen f i c) c l in
  Store.active (Canvas.store c') = Store.active (Canvas.store c)
  /\ Store.emitted (Canvas.store c') = Store.emitted (Canvas.store c)
  /\ Store.hover (Canvas.store c') = Store.hover (Canvas.store c)
  /\ Canvas.activeRect c' = Canvas.activeRect c
  /\ length (pensOf c') = length (pensOf c).
Proof.
  destruct (foldl_alterPen_shape f l c) as (L & HL & Hlen).
  cbv zeta. rewrite HL. by repeat split.
Qed.

Lemma flagOf_alterPen_calc (g : Calc.t -> Calc.t) (i k : nat) (c : Canvas.t) :
  (forall q, Calc.active (g q) = Calc.active q) ->
  flagOf (alterPen (Pen_ops.alterCalc g) i c) k = flagOf c k.
Proof.
  intros Hg. unfold flagOf. rewrite pensOf_alterPen.
  destruct (decide (k = i)) as [->|Hne].
  - rewrite list_lookup_alter_eq. destruct (pensOf c !! i); [|done].
    cbn. by rewrite Hg.
  - by rewrite list_lookup_alter_ne.
Qed.

(** [calcActiveRect] returns when every selected pen is in the document;
    it leaves the selection, the flags and the emitted events alone, and
    there is an active rect afterwards. *)
Lemma calcActiveRect_ok `{Helpers} (c : Canvas.t) :
  Forall (fun j => j < length (pensOf c)) (Store.active (Canvas.store c)) ->
  exists c',
    calcActiveRect c = Some c'
    /\ Store.active (Canvas.store c') = Store.active (Canvas.store c)
    /\ Store.emitted (Canvas.store c') = Store.emitted (Canvas.store c)
    /\ (forall k, flagOf c' k = flagOf c k)
    /\ length (pensOf c') = length (pensOf c)
    /\ Canvas.dirty c' = Canvas.dirty c
    /\ is_Some (getActiveRect c').
Proof.
  intros Hvalid.
  destruct (Store.active (Canvas.store c)) as [|i [|i2 rest]] eqn:Hact.
  - unfold calcActiveRect. rewrite Hact. cbn [mapM]. rewrite !bind_Some.
    unfold getSizeCPs. cbn [getActiveRect Canvas.activeRect Canvas.set_lastRotate
                              Canvas.set_activeRect]. rewrite bind_Some.
    eexists. split; [reflexivity|]. cbn. by repeat split.
  - apply Forall_cons in Hvalid as [Hi _].
    destruct (lookup_lt_is_Some_2 (pensOf c) i Hi) as [p Hp].
    rewrite (calcActiveRect_single c i p Hact Hp). cbv zeta.
    set (f := fun r => Geometry.calcCenter (Rect.set_rotate (Pen.rotate p) r)).
    eexists. split; [reflexivity|].
    assert (Hmod : modActiveRect f (Canvas.set_activeRect (Some (RectOfPen i)) c)
                   = alterPen (Pen_ops.alterCalc
                                 (fun k => Calc.set_worldRect (f (Calc.worldRect k)) k))
                       i (Canvas.set_activeRect (Some (RectOfPen i)) c)) by reflexivity.
    rewrite Hmod.
    split; [by rewrite <- Hact|]. split; [reflexivity|].
    split.
    { intros k.
      change (flagOf (Canvas.set_sizeCPs ?a (Canvas.set_lastRotate ?b ?x)) k)
        with (flagOf x k).
      by rewrite flagOf_alterPen_calc. }
    split.
    { change (pensOf (Canvas.set_sizeCPs ?a (Canvas.set_lastRotate ?b ?x)))
        with (pensOf x).
      rewrite pensOf_alterPen. apply length_alter. }
    split; [reflexivity|].
    change (getActiveRect (Canvas.set_sizeCPs ?a (Canvas.set_lastRotate ?b ?x)))
      with (getActiveRect x).
    rewrite <- Hmod.
    erewrite getActiveRect_modActiveRect; [by eexists|].
    apply (getActiveRect_ofPen i); [reflexivity|exact Hp].
  - unfold calcActiveRect. rewrite Hact.
    destruct (mapM (fun i => pensOf c !! i) (i :: i2 :: rest)) as [ps|] eqn:Hps.
    2:{ exfalso. apply eq_None_not_Some in Hps. apply Hps. apply mapM_is_Some.
        eapply Forall_impl; [exact Hvalid|]. intros j Hj.
        by apply lookup_lt_is_Some_2. }
    rewrite !bind_Some. unfold getSizeCPs.
    cbn [getActiveRect Canvas.activeRect Canvas.set_lastRotate Canvas.set_activeRect].
    rewrite bind_Some.
    eexists. split; [reflexivity|]. cbn. by repeat split.
Qed.

Lemma flagOf_is_Some (c : Canvas.t) (k : nat) :
  k < length (pensOf c) -> is_Some (flagOf c k).
Proof.
  intros Hk. unfold flagOf.
  destruct (lookup_lt_is_Some_2 (pensOf c) k Hk) as [p ->]. by eexists.
Qed.

(** After the flags of the old selection are cleared and those of [pens]
    set, exactly the pens of [pens] carry the flag. *)
Lemma flags_replaced (c c1 c3 : Canvas.t) (pens : list nat) :
  selectionOk c ->
  Forall (fun j => j < length (pensOf c)) pens ->
  (forall k, flagOf c1 k
             = if decide (k ∈ Store.active (Canvas.store c))
               then (fun _ => false) <$> flagOf c k else flagOf c k) ->
  (forall k, flagOf c3 k
             = if decide (k ∈ pens) then (fun _ => true) <$> flagOf c1 k
               else flagOf c1 k) ->
  forall k, flagOf c3 k = Some true <-> k ∈ pens.
Proof.
  intros (_ & _ & Hflags) Hvalid H1 H3 k. rewrite H3, H1.
  destruct (decide (k ∈ pens)) as [Hin|Hnin].
  - split; [done|]. intros _.
    rewrite Forall_forall in Hvalid.
    destruct (flagOf_is_Some c k (Hvalid k Hin)) as [b ->].
    by destruct (decide (k ∈ Store.active (Canvas.store c))).
  - split; [|done].
    destruct (decide (k ∈ Store.active (Canvas.store c))) as [Hact|Hnact].
    + by destruct (flagOf c k).
    + intros Hflag. by apply Hflags in Hflag.
Qed.

(** [inactive] on a well-formed selection. *)
Lemma inactive_spec (drawing : bool) (c : Canvas.t) :
  selectionOk c ->
  selectionOk (inactive drawing c)
  /\ Store.active (Canvas.store (inactive drawing c)) = []
  /\ (forall k, flagOf (inactive drawing c) k <> Some true)
  /\ (Store.active (Canvas.store c) = [] -> inactive drawing c = c)
  /\ (Store.active (Canvas.store c) <> [] ->
      Canvas.activeRect (inactive drawing c) = None
      /\ Canvas.sizeCPs (inactive drawing c) = None
      /\ Canvas.dirty (inactive drawing c) = true
      /\ Store.emitted (Canvas.store (inactive drawing c))
         = if drawing then Store.emitted (Canvas.store c)
           else mkEvent "inactive" (OfPens (Store.active (Canvas.store c)))
                :: Store.emitted (Canvas.store c)).
Proof.
  intros Hok.
  assert (Hflags : forall k, flagOf (inactive drawing c) k <> Some true).
  { intros k. unfold inactive.
    destruct (Store.active (Canvas.store c)) as [|j act] eqn:Hact.
    - destruct Hok as (_ & _ & Hf). rewrite Hf, Hact. apply not_elem_of_nil.
    - assert (Hsame : forall c0, flagOf
                (Canvas.set_dirty true (Canvas.set_sizeCPs None
                   (Canvas.set_activeRect None
                      (alterStore (Store.set_active [])
                         (if drawing then c0
                          else emit "inactive" (OfPens (j :: act)) c0))))) k
                = flagOf c0 k) by (intros c0; by destruct drawing).
      rewrite Hsame. unfold clearActiveFlags. rewrite sweep_flag, Hact, <- Hact.
      destruct (decide (k ∈ Store.active (Canvas.store c))) as [Hin|Hnin].
      + by destruct (flagOf c k).
      + destruct Hok as (_ & _ & Hf). by rewrite Hf. }
  assert (Hempty : Store.active (Canvas.store (inactive drawing c)) = []).
  { unfold inactive.
    destruct (Store.active (Canvas.store c)) as [|j act] eqn:Hact; [done|].
    by destruct drawing. }
  split; [|split; [exact Hempty|split; [exact Hflags|split]]].
  - unfold selectionOk. rewrite Hempty.
    split; [apply NoDup_nil_2|]. split; [apply Forall_nil_2|].
    intros k. split; [by intros ?%Hflags|by intros ?%elem_of_nil].
  - unfold inactive. by intros ->.
  - intros Hne. unfold inactive.
    destruct (Store.active (Canvas.store c)) as [|j act] eqn:Hact; [done|].
    destruct (sweep_frame (Pen_ops.alterCalc (Calc.set_active false)) (j :: act) c)
      as (_ & Hem & _).
    unfold clearActiveFlags. rewrite Hact.
    destruct drawing; cbn -[foldl]; rewrite Hem; by repeat split.
Qed.

(** X14: [inactive] empties the selection: with nothing selected it
    changes nothing and emits nothing; otherwise no pen carries the flag
    afterwards, [store.active] is empty, the active rect and its handles are
    unset, the canvas is marked dirty, and one [inactive] event carries the
    old selection, unless the call is made for line drawing. *)
Theorem inactive_clears_selection (drawing : bool) (c : Canvas.t) :
  selectionOk c ->
  selectionOk (inactive drawing c)
  /\ Store.active (Canvas.store (inactive drawing c)) = []
  /\ (forall k, flagOf (inactive drawing c) k <> Some true)
  /\ (Store.active (Canvas.store c) = [] -> inactive drawing c = c)
  /\ (Store.active (Canvas.store c) <> [] ->
      Canvas.activeRect (inactive drawing c) = None
      /\ Canvas.sizeCPs (inactive drawing c) = None
      /\ Canvas.dirty (inactive drawing c) = true
      /\ Store.emitted (Canvas.store (inactive drawing c))
         = if drawing then Store.emitted (Canvas.store c)
           else mkEvent "inactive" (OfPens (Store.active (Canvas.store c)))
                :: Store.emitted (Canvas.store c)).
Proof.
  exact (inactive_spec drawing c).
Qed.

Lemma chosen_ok : selectionOk SampleSelection.chosen.
Proof.
  split; [apply NoDup_singleton|]. split; [repeat constructor; cbn; lia|].
  intros [|[|k]]; cbn; rewrite list_elem_of_singleton; split; (done || lia).
Qed.

Lemma inactive_clears_selection_witness :
  Store.active (Canvas.store (inactive false SampleSelection.chosen)) = []
  /\ flagOf (inactive false SampleSelection.chosen) 0 <> Some true
  /\ Store.emitted (Canvas.store (inactive false SampleSelection.chosen))
     = [mkEvent "inactive" (OfPens [0])].
Proof.
  destruct (inactive_clears_selection false SampleSelection.chosen chosen_ok)
    as (_ & Hempty & Hflags & _ & Hrest).
  split; [exact Hempty|]. split; [apply Hflags|].
  by destruct Hrest as (_ & _ & _ & ->).
Defined.

(** [active] on a well-formed selection. *)
Lemma active_spec `{Helpers} (pens : list nat) (c : Canvas.t) :
  selectionOk c ->
  NoDup pens ->
  Forall (fun j => j < length (pensOf c)) pens ->
  exists c',
    active pens c = Some c'
    /\ selectionOk c'
    /\ Store.active (Canvas.store c') = pens
    /\ is_Some (getActiveRect c')
    /\ Canvas.dirty c' = true
    /\ Store.emitted (Canvas.store c')
       = mkEvent "active" (OfPens pens) :: Store.emitted (Canvas.store c).
Proof.
  intros Hok Hnodup Hvalid. unfold active.
  set (clr := Pen_ops.alterCalc (Calc.set_active false)).
  set (mark := Pen_ops.alterCalc (Calc.set_active true)).
  set (c1 := clearActiveFlags c).
  set (c2 := alterStore (Store.set_active []) c1).
  set (c3 := foldl (fun c i => alterPen mark i c) c2 pens).
  set (c4 := alterStore (fun s => Store.set_active (Store.active s ++ pens) s) c3).
  destruct (sweep_frame clr (Store.active (Canvas.store c)) c)
    as (_ & Hem1 & _ & _ & Hlen1).
  fold (clearActiveFlags c) in Hem1, Hlen1. fold c1 in Hem1, Hlen1.
  destruct (sweep_frame mark pens c2) as (Hact3 & Hem3 & _ & _ & Hlen3).
  fold c3 in Hact3, Hem3, Hlen3.
  assert (Hact4 : Store.active (Canvas.store c4) = pens).
  { subst c4. cbn. by rewrite Hact3. }
  assert (Hlen4 : length (pensOf c4) = length (pensOf c)).
  { change (pensOf c4) with (pensOf c3). rewrite Hlen3.
    change (pensOf c2) with (pensOf c1). exact Hlen1. }
  destruct (calcActiveRect_ok c4) as (c5 & Hcalc & Hact5 & Hem5 & Hflag5 & Hlen5 & _ & Hrect5).
  { rewrite Hact4, Hlen4. exact Hvalid. }
  rewrite Hcalc, bind_Some.
  eexists. split; [reflexivity|].
  assert (Hflags : forall k, flagOf c5 k = Some true <-> k ∈ pens).
  { intros k. rewrite Hflag5. change (flagOf c4 k) with (flagOf c3 k).
    revert k. apply (flags_replaced c c1 c3 pens Hok Hvalid).
    - intros k. exact (sweep_flag false (Store.active (Canvas.store c)) c k).
    - intros k. exact (sweep_flag true pens c2 k). }
  split; [|split; [|split; [|split]]].
  - unfold selectionOk.
    change (Store.active (Canvas.store (emit ?n ?p (Canvas.set_dirty true c5))))
      with (Store.active (Canvas.store c5)).
    change (pensOf (emit ?n ?p (Canvas.set_dirty true c5))) with (pensOf c5).
    rewrite Hact5, Hact4, Hlen5, Hlen4.
    split; [exact Hnodup|]. split; [exact Hvalid|exact Hflags].
  - change (Store.active (Canvas.store (emit ?n ?p (Canvas.set_dirty true c5))))
      with (Store.active (Canvas.store c5)).
    by rewrite Hact5.
  - exact Hrect5.
  - reflexivity.
  - change (Store.active (Canvas.store (Canvas.set_dirty true c5)))
      with (Store.active (Canvas.store c5)).
    rewrite Hact5, Hact4.
    change (Store.emitted (Canvas.store (emit "active" (OfPens pens) (Canvas.set_dirty true c5))))
      with (mkEvent "active" (OfPens pens) :: Store.emitted (Canvas.store c5)).
    rewrite Hem5. change (Store.emitted (Canvas.store c4)) with (Store.emitted (Canvas.store c3)).
    rewrite Hem3. f_equal. exact Hem1.
Qed.

(** X15: [active(pens)] replaces the selection: it returns when the new
    pens are in the document, [store.active] is the new list, exactly its
    pens carry the flag, there is an active rect, the canvas is marked
    dirty, and one [active] event carries the new selection. *)
Theorem active_replaces_selection `{Helpers} (pens : list nat) (c : Canvas.t) :
  selectionOk c ->
  NoDup pens ->
  Forall (fun j => j < length (pensOf c)) pens ->
  exists c',
    active pens c = Some c'
    /\ selectionOk c'
    /\ Store.active (Canvas.store c') = pens
    /\ is_Some (getActiveRect c')
    /\ Canvas.dirty c' = true
    /\ Store.emitted (Canvas.store c')
       = mkEvent "active" (OfPens pens) :: Store.emitted (Canvas.store c).
Proof.
  exact (active_spec pens c).
Qed.

Lemma active_replaces_selection_witness :
  exists c',
    active (H := Sample.helpers) [1] SampleSelection.chosen = Some c'
    /\ Store.active (Canvas.store c') = [1]
    /\ flagOf c' 0 <> Some true
    /\ flagOf c' 1 = Some true.
Proof.
  destruct (active_replaces_selection (H := Sample.helpers) [1]
              SampleSelection.chosen chosen_ok)
    as (c' & Hrun & (_ & _ & Hflags) & Hact & _).
  - apply NoDup_singleton.
  - repeat constructor; cbn; lia.
  - exists c'. split; [exact Hrun|]. split; [exact Hact|].
    rewrite Hact in Hflags. split.
    + rewrite Hflags, list_elem_of_singleton. lia.
    + apply Hflags, list_elem_of_singleton. reflexivity.
Defined.

Lemma selectionOk_store (c c' : Canvas.t) :
  Canvas.store c' = Canvas.store c -> selectionOk c -> selectionOk c'.
Proof. intros Hst. unfold selectionOk, flagOf, pensOf. by rewrite Hst. Qed.

Lemma selectionOk_calc `{Helpers} (c : Canvas.t) :
  selectionOk c ->
  exists c', calcActiveRect c = Some c' /\ selectionOk c'
             /\ Store.active (Canvas.store c') = Store.active (Canvas.store c).
Proof.
  intros (Hnodup & Hvalid & Hflags).
  destruct (calcActiveRect_ok c Hvalid) as (c' & Hcalc & Hact & _ & Hflag & Hlen & _).
  exists c'. split; [exact Hcalc|]. split; [|exact Hact].
  unfold selectionOk. rewrite Hact, Hlen.
  split; [exact Hnodup|]. split; [exact Hvalid|].
  intros k. by rewrite Hflag.
Qed.

(** [splice(findIndex(...), 1)] on a selection without repetition: the pen
    found is taken out, nothing else. *)
Lemma spliceOut_found (j : nat) (act : list nat) :
  NoDup act -> j ∈ act ->
  NoDup (spliceOut j act)
  /\ forall k, k ∈ spliceOut j act <-> k ∈ act /\ k <> j.
Proof.
  intros Hnodup Hin. unfold spliceOut.
  destruct (list_find (fun k => k = j) act) as [[pos x]|] eqn:Hfind.
  - apply list_find_Some in Hfind as (Hpos & -> & _).
    rewrite delete_take_drop.
    rewrite <- (take_drop_middle act pos j Hpos) in Hnodup.
    apply NoDup_app in Hnodup as (Hn1 & Hdisj & Hn2).
    apply NoDup_cons in Hn2 as (Hj2 & Hn2).
    split.
    + apply NoDup_app. split; [exact Hn1|]. split; [|exact Hn2].
      intros k Hk Hk2. apply (Hdisj k Hk). by right.
    + intros k. rewrite <- (take_drop_middle act pos j Hpos) at 3.
      rewrite !elem_of_app, elem_of_cons. split.
      * intros [Hk|Hk].
        -- split; [by left|]. intros ->. apply (Hdisj j Hk). by left.
        -- split; [right; by right|]. intros ->. by apply Hj2.
      * intros [[Hk|[->|Hk]] Hne]; [by left|done|by right].
  - apply list_find_None in Hfind. rewrite Forall_forall in Hfind.
    by destruct (Hfind j Hin).
Qed.

(** When the pen is not in the selection, [findIndex] gives -1 and
    [splice(-1, 1)] takes out the last selected pen. *)
Lemma spliceOut_missing (j : nat) (act : list nat) :
  j ∉ act -> spliceOut j act = removelast act.
Proof.
  intros Hnin. unfold spliceOut.
  destruct (list_find (fun k => k = j) act) as [[pos x]|] eqn:Hfind; [|done].
  apply list_find_Some in Hfind as (Hpos & -> & _).
  destruct Hnin. by eapply list_elem_of_lookup_2.
Qed.

Lemma setFlag_flag (b : bool) (j k : nat) (c : Canvas.t) :
  flagOf (alterPen (Pen_ops.alterCalc (Calc.set_active b)) j c) k
  = if decide (k = j) then (fun _ => b) <$> flagOf c k else flagOf c k.
Proof.
  pose proof (sweep_flag b [j] c k) as Hs. cbn [foldl] in Hs. rewrite Hs.
  destruct (decide (k ∈ [j])) as [Hin|Hnin], (decide (k = j)) as [Heq|Hne];
    try done; exfalso.
  - by apply list_elem_of_singleton in Hin.
  - by apply Hnin, list_elem_of_singleton.
Qed.

Lemma flagOf_lookup (c : Canvas.t) (k : nat) (p : Pen.t) :
  pensOf c !! k = Some p -> flagOf c k = Some (Calc.active (Pen.calculative p)).
Proof. unfold flagOf. by intros ->. Qed.

(** The branch [case HoverType.Node] keeps the selection well formed, and
    selects as the modifier keys say. *)
Lemma downOnNode_spec `{Helpers} (e : MouseEvent) (j : nat) (c : Canvas.t)
    (hov : Pen.t) :
  selectionOk c ->
  pensOf c !! j = Some hov ->
  exists c',
    downOnNode e j c = Some c'
    /\ selectionOk c'
    /\ let act := Store.active (Canvas.store c) in
       let act' := Store.active (Canvas.store c') in
       if ev_ctrlKey e then
         if JS.truthy_str (Pen.parentId hov) then c' = c
         else if decide (j ∈ act) then forall k, k ∈ act' <-> k ∈ act /\ k <> j
              else act' = act ++ [j]
       else if ev_altKey e then
         if decide (1 < length act \/ j ∉ act) then act' = [j] else act' = act
       else if decide (j ∈ act) then act' = act else act' = [j].
Proof.
  intros Hok Hhov.
  pose proof Hok as (Hnodup & Hvalid & Hflags).
  pose proof (flagOf_lookup c j hov Hhov) as Hflagj.
  assert (Hj : j < length (pensOf c)) by (by eapply lookup_lt_Some).
  assert (Hactive : Calc.active (Pen.calculative hov) = true
                    <-> j ∈ Store.active (Canvas.store c)).
  { rewrite <- Hflags, Hflagj. split; [by intros ->|by intros [= ->]]. }
  unfold downOnNode. rewrite Hhov, bind_Some. cbv zeta.
  destruct (ev_ctrlKey e).
  - destruct (JS.truthy_str (Pen.parentId hov)); [by exists c|].
    destruct (Calc.active (Pen.calculative hov)) eqn:Hact.
    + (* taken out of the selection *)
      assert (Hin : j ∈ Store.active (Canvas.store c)) by (by apply Hactive).
      destruct (spliceOut_found j _ Hnodup Hin) as (Hnodup' & Hmem).
      set (c1 := Canvas.set_dirty true _).
      assert (Hok1 : selectionOk c1).
      { split; [exact Hnodup'|]. split.
        - apply Forall_forall. intros k Hk. apply Hmem in Hk as [Hk _].
          rewrite Forall_forall in Hvalid.
          change (pensOf c1) with (pensOf (alterPen (Pen_ops.alterCalc (Calc.set_active false)) j c)).
          rewrite pensOf_alterPen, length_alter. by apply Hvalid.
        - intros k.
          change (flagOf c1 k)
            with (flagOf (alterPen (Pen_ops.alterCalc (Calc.set_active false)) j c) k).
          change (Store.active (Canvas.store c1))
            with (spliceOut j (Store.active (Canvas.store c))).
          rewrite setFlag_flag, Hmem.
          destruct (decide (k = j)) as [->|Hne].
          + rewrite Hflagj. cbn. split; [done|by intros [_ ?]].
          + rewrite Hflags. split; [done|by intros [? _]]. }
      destruct (selectionOk_calc c1 Hok1) as (c' & Hcalc & Hok' & Hact').
      exists c'. split; [exact Hcalc|]. split; [exact Hok'|]. cbv zeta.
      rewrite decide_True by exact Hin. rewrite Hact'. exact Hmem.
    + (* added to the selection *)
      assert (Hnin : j ∉ Store.active (Canvas.store c)).
      { intros Hin. apply Hactive in Hin. congruence. }
      set (c1 := Canvas.set_dirty true _).
      assert (Hok1 : selectionOk c1).
      { split.
        - change (NoDup (Store.active (Canvas.store c) ++ [j])).
          apply NoDup_app. split; [exact Hnodup|]. split; [|apply NoDup_singleton].
          intros k Hk ->%list_elem_of_singleton. by apply Hnin.
        - split.
          + change (pensOf c1) with (pensOf (alterPen (Pen_ops.alterCalc (Calc.set_active true)) j c)).
            rewrite pensOf_alterPen, length_alter.
            change (Store.active (Canvas.store c1)) with (Store.active (Canvas.store c) ++ [j]).
            apply Forall_app. split; [exact Hvalid|]. by repeat constructor.
          + intros k.
            change (flagOf c1 k)
              with (flagOf (alterPen (Pen_ops.alterCalc (Calc.set_active true)) j c) k).
            change (Store.active (Canvas.store c1)) with (Store.active (Canvas.store c) ++ [j]).
            rewrite setFlag_flag, elem_of_app, list_elem_of_singleton.
            destruct (decide (k = j)) as [->|Hne].
            * rewrite Hflagj. cbn. split; [by right|done].
            * rewrite Hflags. split; [by left|by intros [?|?]]. }
      destruct (selectionOk_calc c1 Hok1) as (c' & Hcalc & Hok' & Hact').
      exists c'. split; [exact Hcalc|]. split; [exact Hok'|]. cbv zeta.
      rewrite decide_False by exact Hnin. by rewrite Hact'.
  - destruct (ev_altKey e).
    + destruct (bool_decide (1 < length (Store.active (Canvas.store c)))
                || negb (Calc.active (Pen.calculative hov))) eqn:Htest.
      * (* the hovered pen alone *)
        set (c1 := Canvas.set_dirty true _).
        assert (Hok1 : selectionOk c1).
        { split; [apply NoDup_singleton|]. split.
          - change (pensOf c1)
              with (pensOf (alterPen (Pen_ops.alterCalc (Calc.set_active true)) j
                              (alterStore (Store.set_active []) (clearActiveFlags c)))).
            rewrite pensOf_alterPen, length_alter.
            change (pensOf (alterStore (Store.set_active []) (clearActiveFlags c)))
              with (pensOf (clearActiveFlags c)).
            destruct (sweep_frame (Pen_ops.alterCalc (Calc.set_active false))
                        (Store.active (Canvas.store c)) c) as (_ & _ & _ & _ & Hlen).
            unfold clearActiveFlags. rewrite Hlen.
            by repeat constructor.
          - intros k.
            change (flagOf c1 k)
              with (flagOf (alterPen (Pen_ops.alterCalc (Calc.set_active true)) j
                              (alterStore (Store.set_active []) (clearActiveFlags c))) k).
            change (Store.active (Canvas.store c1)) with [j].
            rewrite setFlag_flag, list_elem_of_singleton.
            change (flagOf (alterStore (Store.set_active []) (clearActiveFlags c)) k)
              with (flagOf (clearActiveFlags c) k).
            unfold clearActiveFlags. rewrite sweep_flag.
            destruct (decide (k = j)) as [->|Hne].
            + rewrite Hflagj. split; [done|intros _].
              by destruct (decide (j ∈ Store.active (Canvas.store c))).
            + split; [|done].
              destruct (decide (k ∈ Store.active (Canvas.store c))) as [Hk|Hk].
              * by destruct (flagOf c k).
              * intros Hf. by apply Hflags in Hf. }
        destruct (selectionOk_calc c1 Hok1) as (c' & Hcalc & Hok' & Hact').
        exists c'. split; [exact Hcalc|]. split; [exact Hok'|]. cbv zeta.
        rewrite decide_True; [by rewrite Hact'|].
        apply orb_true_iff in Htest as [Hlen|Hflag].
        -- left. by apply bool_decide_eq_true in Hlen.
        -- right. intros Hin. apply Hactive in Hin. rewrite Hin in Hflag. done.
      * destruct (selectionOk_calc c Hok) as (c' & Hcalc & Hok' & Hact').
        exists c'. split; [exact Hcalc|]. split; [exact Hok'|]. cbv zeta.
        apply orb_false_iff in Htest as [Hlen Hflag].
        apply bool_decide_eq_false in Hlen. apply negb_false_iff in Hflag.
        rewrite decide_False; [exact Hact'|].
        intros [?|Hnin]; [done|]. by apply Hnin, Hactive.
    + destruct (Calc.active (Pen.calculative hov)) eqn:Hact.
      * rewrite bind_Some.
        destruct (selectionOk_calc c Hok) as (c' & Hcalc & Hok' & Hact').
        exists c'. split; [exact Hcalc|]. split; [exact Hok'|]. cbv zeta.
        rewrite decide_True by (by apply Hactive). exact Hact'.
      * destruct (active_spec [j] c Hok) as (c1 & Hrun & Hok1 & Hact1 & _);
          [apply NoDup_singleton|by repeat constructor|].
        rewrite Hrun, bind_Some.
        destruct (selectionOk_calc c1 Hok1) as (c' & Hcalc & Hok' & Hact').
        exists c'. split; [exact Hcalc|]. split; [exact Hok'|]. cbv zeta.
        rewrite decide_False; [by rewrite Hact', Hact1|].
        intros Hin. apply Hactive in Hin. congruence.
Qed.

(** X16: a pointer-down on a node ([case HoverType.Node]) keeps the
    selection well formed and selects as the modifier keys say: with Ctrl a
    pen that has a parent is ignored, a selected pen leaves the selection
    and an unselected one joins it at the end; with Alt the pen becomes the
    whole selection unless it already is; without modifier a selected pen
    keeps the selection and an unselected one replaces it. *)
Theorem click_on_node_selects `{Helpers} (e : MouseEvent) (j : nat)
    (c : Canvas.t) (hov : Pen.t) :
  selectionOk c ->
  pensOf c !! j = Some hov ->
  exists c',
    downOnNode e j c = Some c'
    /\ selectionOk c'
    /\ let act := Store.active (Canvas.store c) in
       let act' := Store.active (Canvas.store c') in
       if ev_ctrlKey e then
         if JS.truthy_str (Pen.parentId hov) then c' = c
         else if decide (j ∈ act) then forall k, k ∈ act' <-> k ∈ act /\ k <> j
              else act' = act ++ [j]
       else if ev_altKey e then
         if decide (1 < length act \/ j ∉ act) then act' = [j] else act' = act
       else if decide (j ∈ act) then act' = act else act' = [j].
Proof.
  exact (downOnNode_spec e j c hov).
Qed.

Lemma click_on_node_selects_witness :
  exists c',
    downOnNode (H := Sample.helpers) (mkMouseEvent 160 20 true false false) 1
      SampleSelection.chosen = Some c'
    /\ Store.active (Canvas.store c') = [0; 1].
Proof.
  destruct (click_on_node_selects (H := Sample.helpers)
              (mkMouseEvent 160 20 true false false) 1 SampleSelection.chosen
              (Sample.node "b" 150 0 40 40) chosen_ok eq_refl)
    as (c' & Hrun & _ & Hsel).
  exists c'. split; [exact Hrun|].
  cbn in Hsel. rewrite decide_False in Hsel; [exact Hsel|].
  rewrite list_elem_of_singleton. lia.
Defined.

(** X17: the [switch] that closes [onMouseDown] keeps the selection well
    formed, whatever is hovered: it returns when what it reads exists, and
    afterwards no pen is selected twice, every selected pen is in the
    document, and exactly the selected pens carry [calculative.active].  On
    the empty canvas the selection is emptied; on a line or a line anchor
    the line becomes the selection; on a size handle one normalised
    position is recorded per selected pen. *)
Theorem pointer_down_keeps_selection `{Helpers} (e : MouseEvent) (clock : R)
    (c : Canvas.t) :
  selectionOk c ->
  downReady c ->
  exists c',
    mouseDownSwitch e clock c = Some c'
    /\ selectionOk c'
    /\ (Canvas.hoverType c = HoverNone -> Store.active (Canvas.store c') = [])
    /\ (Canvas.hoverType c = HoverLine \/ Canvas.hoverType c = HoverLineAnchor ->
        exists j, Store.hover (Canvas.store c) = Some j
                  /\ Store.active (Canvas.store c') = [j])
    /\ (Canvas.hoverType c = HoverResize ->
        length (Canvas.activeInitPos c') = length (Store.active (Canvas.store c))).
Proof.
  intros Hok Hready. unfold mouseDownSwitch.
  assert (Hfin : forall c1 (P : Canvas.t -> Prop),
             selectionOk c1 ->
             (forall c', Canvas.store c' = Canvas.store c1 ->
                         Canvas.activeInitPos c' = Canvas.activeInitPos c1 -> P c') ->
             exists c', Some c1 ≫= (fun c1 => Some (render NoArg clock c1)) = Some c'
                        /\ selectionOk c' /\ P c').
  { intros c1 P Hok1 HP. rewrite bind_Some. eexists. split; [reflexivity|].
    split.
    - eapply selectionOk_store; [apply render_store|exact Hok1].
    - apply HP; [apply render_store|].
      unfold render. destruct (Canvas.dirty c1); cbn; repeat (case_match; cbn); done. }
  unfold downReady in Hready.
  destruct (Canvas.hoverType c) eqn:Hty.
  all: try (apply Hfin; [exact Hok|];
            intros c' Hst Hpos; repeat split; try done; by intros [?|?]).
  - (* None *)
    destruct (inactive_spec false c Hok) as (Hok1 & Hempty & _).
    apply Hfin; [exact Hok1|].
    intros c' Hst _. rewrite Hst. repeat split; try done. by intros [?|?].
  - (* LineAnchor *)
    destruct Hready as (j & Hhov & Hj). rewrite Hhov, bind_Some.
    destruct (lookup_lt_is_Some_2 (pensOf c) j Hj) as [hov Hpen].
    rewrite Hpen, bind_Some.
    set (c0 := alterPen _ j c).
    assert (Hok0 : selectionOk c0).
    { destruct Hok as (Hnodup & Hvalid & Hflags).
      split; [exact Hnodup|]. split.
      - subst c0. rewrite pensOf_alterPen, length_alter. exact Hvalid.
      - intros k. subst c0. rewrite flagOf_alterPen_calc by done. apply Hflags. }
    destruct (active_spec [j] c0 Hok0) as (c1 & Hrun & Hok1 & Hact1 & _);
      [apply NoDup_singleton| |].
    { subst c0. rewrite pensOf_alterPen, length_alter. by repeat constructor. }
    rewrite Hrun. apply Hfin; [exact Hok1|].
    intros c' Hst _. rewrite Hst. repeat split; try done.
    intros _. by exists j.
  - (* LineAnchorPrev *)
    destruct Hready as [a Ha]. rewrite Ha, bind_Some.
    apply Hfin; [by eapply selectionOk_store; [|exact Hok]|].
    intros c' _ _. repeat split; try done. by intros [?|?].
  - (* LineAnchorNext *)
    destruct Hready as [a Ha]. rewrite Ha, bind_Some.
    apply Hfin; [by eapply selectionOk_store; [|exact Hok]|].
    intros c' _ _. repeat split; try done. by intros [?|?].
  - (* Line *)
    destruct Hready as (j & Hhov & Hj). rewrite Hhov, bind_Some.
    destruct (lookup_lt_is_Some_2 (pensOf c) j Hj) as [hov Hpen].
    rewrite Hpen, bind_Some.
    destruct (active_spec [j] c Hok) as (c1 & Hrun & Hok1 & Hact1 & _);
      [apply NoDup_singleton|by repeat constructor|].
    rewrite Hrun. apply Hfin; [exact Hok1|].
    intros c' Hst _. rewrite Hst. repeat split; try done.
    intros _. by exists j.
  - (* Node *)
    destruct (Store.hover (Canvas.store c)) as [j|] eqn:Hhov.
    + destruct (lookup_lt_is_Some_2 (pensOf c) j (Hready j eq_refl)) as [hov Hpen].
      destruct (downOnNode_spec e j c hov Hok Hpen) as (c1 & Hrun & Hok1 & _).
      rewrite Hrun. apply Hfin; [exact Hok1|].
      intros c' _ _. repeat split; try done. by intros [?|?].
    + apply Hfin; [exact Hok|].
      intros c' _ _. repeat split; try done. by intros [?|?].
  - (* Resize *)
    assert (Hpos : is_Some (initPositions c)).
    { unfold initPositions. apply mapM_is_Some.
      destruct Hok as (_ & Hvalid & _).
      destruct Hready as [Hempty|[r Hr]].
      - rewrite Hempty. apply Forall_nil_2.
      - eapply Forall_impl; [exact Hvalid|]. intros j Hj.
        destruct (lookup_lt_is_Some_2 (pensOf c) j Hj) as [pen Hpen].
        cbn. rewrite Hpen, bind_Some, Hr, bind_Some. by eexists. }
    destruct Hpos as [ps Hps]. rewrite Hps, bind_Some.
    apply Hfin; [by eapply selectionOk_store; [|exact Hok]|].
    intros c' _ Hpos. repeat split; try done; [by intros [?|?]|].
    intros _. rewrite Hpos. cbn.
    symmetry. by eapply length_mapM.
Qed.

Lemma pointer_down_keeps_selection_witness :
  exists c',
    mouseDownSwitch (H := Sample.helpers) (mkMouseEvent 300 300 false false false) 0
      SampleSelection.chosen = Some c'
    /\ selectionOk c'
    /\ Store.active (Canvas.store c') = [].
Proof.
  destruct (pointer_down_keeps_selection (H := Sample.helpers)
              (mkMouseEvent 300 300 false false false) 0
              SampleSelection.chosen chosen_ok I)
    as (c' & Hrun & Hok & Hnone & _).
  exists c'. split; [exact Hrun|]. split; [exact Hok|]. by apply Hnone.
Defined.

(** X18: Ctrl-click on a pen that carries [calculative.active] without
    being in [store.active]: [findIndex] yields -1 and [splice(-1, 1)] takes
    the last selected pen out of the selection instead; the clicked pen
    loses its flag, the pen taken out keeps its own. *)
Theorem ctrl_click_stray_flag `{Helpers} (e : MouseEvent) (j : nat)
    (c : Canvas.t) (hov : Pen.t) :
  pensOf c !! j = Some hov ->
  Calc.active (Pen.calculative hov) = true ->
  JS.truthy_str (Pen.parentId hov) = false ->
  j ∉ Store.active (Canvas.store c) ->
  Forall (fun k => k < length (pensOf c)) (Store.active (Canvas.store c)) ->
  ev_ctrlKey e = true ->
  exists c',
    downOnNode e j c = Some c'
    /\ Store.active (Canvas.store c') = removelast (Store.active (Canvas.store c))
    /\ flagOf c' j = Some false
    /\ forall k, k <> j -> flagOf c' k = flagOf c k.
Proof.
  intros Hhov Hflag Hparent Hnin Hvalid Hctrl.
  unfold downOnNode. rewrite Hhov, bind_Some. cbv zeta.
  rewrite Hctrl, Hparent, Hflag.
  set (c1 := Canvas.set_dirty true _).
  assert (Hact1 : Store.active (Canvas.store c1)
                  = removelast (Store.active (Canvas.store c))).
  { change (Store.active (Canvas.store c1))
      with (spliceOut j (Store.active (Canvas.store c))).
    by apply spliceOut_missing. }
  destruct (calcActiveRect_ok c1) as (c' & Hcalc & Hact & _ & Hflags & _).
  { rewrite Hact1.
    change (pensOf c1)
      with (pensOf (alterPen (Pen_ops.alterCalc (Calc.set_active false)) j c)).
    rewrite pensOf_alterPen, length_alter.
    rewrite Forall_forall in Hvalid. apply Forall_forall. intros k Hk.
    apply Hvalid. rewrite removelast_firstn_len in Hk.
    by eapply subseteq_take. }
  exists c'. split; [exact Hcalc|]. split; [by rewrite Hact|].
  assert (Hflag1 : forall k, flagOf c1 k
            = if decide (k = j) then (fun _ => false) <$> flagOf c k else flagOf c k).
  { intros k. apply (setFlag_flag false j k c). }
  split.
  - rewrite Hflags, Hflag1, decide_True by done.
    by rewrite (flagOf_lookup c j hov Hhov).
  - intros k Hne. by rewrite Hflags, Hflag1, decide_False.
Qed.

Lemma ctrl_click_stray_flag_witness :
  exists c',
    downOnNode (H := Sample.helpers) (mkMouseEvent 160 20 true false false) 1
      SampleStray.stray = Some c'
    /\ Store.active (Canvas.store c') = []
    /\ flagOf c' 0 = Some true.
Proof.
  destruct (ctrl_click_stray_flag (H := Sample.helpers)
              (mkMouseEvent 160 20 true false false) 1 SampleStray.stray
              (Pen_ops.alterCalc (Calc.set_active true) (Sample.node "b" 150 0 40 40)))
    as (c' & Hrun & Hact & _ & Hkeep); try reflexivity.
  - cbn. rewrite list_elem_of_singleton. lia.
  - repeat constructor; cbn; lia.
  - exists c'. split; [exact Hrun|]. split; [exact Hact|].
    by rewrite Hkeep.
Defined.

(** ** Runs of the render scheduler *)

(** One call of [render] keeps the paints apart. *)
Lemma render_paintsSpaced (arg : RenderArg) (clock : R) (c : Canvas.t) :
  (0 <= Store.interval (Canvas.store c))%R ->
  paintsSpaced c -> paintsSpaced (render arg clock c).
Proof.
  intros Hpos [Hsp Hle]. unfold paintsSpaced.
  rewrite render_store. unfold render.
  set (c1 := match arg with Forced => Canvas.set_dirty true c | _ => c end).
  assert (H1 : Canvas.effects c1 = Canvas.effects c
               /\ Canvas.lastRender c1 = Canvas.lastRender c
               /\ Canvas.store c1 = Canvas.store c) by (subst c1; by destruct arg).
  destruct H1 as (He & Hl & Hs).
  destruct (negb (Canvas.dirty c1)); [rewrite He, Hl; by split|].
  set (now := match arg with Stamp t => t | _ => clock end).
  rewrite Hs, Hl.
  case_bool_decide as Hthr.
  - cbn. rewrite He, Hl. by split.
  - assert (Hgap : Forall (fun u => (Store.interval (Canvas.store c) <= now - u)%R)
                     (paintTimes (Canvas.effects c))).
    { eapply Forall_impl; [exact Hle|]. cbn. intros u Hu. lra. }
    assert (Hnow : Forall (fun t => (t <= now)%R) (paintTimes (Canvas.effects c))).
    { eapply Forall_impl; [exact Hle|]. cbn. intros u Hu. lra. }
    case_bool_decide; cbn; rewrite He; (split; [by split|]);
      (apply Forall_cons; split; [lra|exact Hnow]).
Qed.

(** X19: however [render] is called (forced or not, from a frame callback
    or not, at whatever clock readings), no two paints are closer than
    [options.interval] to each other. *)
Theorem render_never_paints_twice_in_interval (calls : list (RenderArg * R))
    (c : Canvas.t) :
  (0 <= Store.interval (Canvas.store c))%R ->
  paintsSpaced c ->
  paintsSpaced (renders calls c).
Proof.
  revert c. induction calls as [|[arg clock] rest IH]; intros c Hpos Hsp; [exact Hsp|].
  cbn [renders]. apply IH.
  - by rewrite render_store.
  - by apply render_paintsSpaced.
Qed.


(** What [render] does to the state of the scheduler. *)
Lemma render_sched (arg : RenderArg) (clock : R) (c : Canvas.t) :
  schedOf (render arg clock c)
  = schedStep (Store.interval (Canvas.store c)) arg clock (schedOf c).
Proof.
  unfold schedOf, schedStep, render, timeOf.
  destruct arg; cbn; repeat (case_match; cbn); try done; congruence.
Qed.

Lemma renders_sched (calls : list (RenderArg * R)) (c : Canvas.t) :
  schedOf (renders calls c)
  = foldl (fun s '(arg, clock) => schedStep (Store.interval (Canvas.store c)) arg clock s)
      (schedOf c) calls.
Proof.
  revert c. induction calls as [|[arg clock] rest IH]; intros c; [done|].
  cbn [renders foldl]. by rewrite IH, render_store, render_sched.
Qed.

Lemma render_never_paints_twice_in_interval_witness :
  paintsSpaced (renders [(Forced, 10%R); (Forced, 50%R); (Forced, 60%R); (Stamp 85, 70%R)]
                  (Sample.canvas []))
  /\ schedOf (renders [(Forced, 10%R); (Forced, 50%R); (Forced, 60%R); (Stamp 85, 70%R)]
                (Sample.canvas []))
     = (false, 85%R, [85%R; 50%R]).
Proof.
  split.
  - apply render_never_paints_twice_in_interval.
    + cbn. lra.
    + split; [exact I|]. apply Forall_nil_2.
  - rewrite renders_sched. cbn.
    rewrite (bool_decide_eq_true_2 (10 - 0 < 30)%R) by lra. cbn.
    rewrite (bool_decide_eq_false_2 (50 - 0 < 30)%R) by lra. cbn.
    rewrite (bool_decide_eq_true_2 (60 - 50 < 30)%R) by lra. cbn.
    rewrite (bool_decide_eq_false_2 (85 - 50 < 30)%R) by lra. by cbn.
Defined.


(** X20: a request that comes too early is not lost: it leaves the canvas
    dirty and asks for a frame; the frame callback, once [interval] has
    passed since the last paint, paints at its time stamp and clears the
    dirty flag; a further request without the sentinel then finds nothing
    to do.  The store is not touched on the way. *)
Theorem render_deferred_then_served (arg : RenderArg) (clock clock2 clock3 t : R)
    (c : Canvas.t) :
  arg = Forced \/ Canvas.dirty c = true ->
  throttled (timeOf arg clock) c ->
  ~ throttled t c ->
  let c1 := render arg clock c in
  let c2 := render (Stamp t) clock2 c1 in
  deferred c c1
  /\ redrawnAt t c1 c2
  /\ render NoArg clock3 c2 = c2
  /\ Canvas.store c2 = Canvas.store c.
Proof.
  intros Hdirty Hthr Hnot c1 c2.
  assert (Hc1 : c1 = Canvas.set_effects (RequestFrame :: Canvas.effects c)
                       (match arg with Forced => Canvas.set_dirty true c | _ => c end)
                /\ Canvas.dirty c1 = true).
  { subst c1. unfold render, throttled, timeOf in *.
    destruct arg as [| |u]; destruct Hdirty as [Harg|Hd]; try discriminate;
      try rewrite Hd; cbn in *;
      rewrite bool_decide_eq_true_2 by exact Hthr; by cbn. }
  destruct Hc1 as [Hc1 Hd1].
  assert (Hdef : deferred c c1).
  { rewrite Hc1. unfold deferred. destruct arg; cbn; try done.
    all: destruct Hdirty as [?|Hd]; [discriminate|by rewrite Hd]. }
  split; [exact Hdef|].
  destruct Hdef as (_ & _ & Hlast).
  assert (Hst1 : Canvas.store c1 = Canvas.store c) by apply render_store.
  assert (Hc2 : redrawnAt t c1 c2 /\ Canvas.dirty c2 = false).
  { subst c2. unfold render, redrawnAt. rewrite Hd1. cbn [negb].
    rewrite bool_decide_eq_false_2.
    2:{ unfold throttled in Hnot. by rewrite Hlast, Hst1. }
    case_bool_decide; cbn; auto. }
  destruct Hc2 as [Hc2 Hd2].
  split; [exact Hc2|]. split.
  - unfold render. by rewrite Hd2.
  - subst c2. by rewrite render_store.
Qed.

Lemma render_deferred_then_served_witness :
  deferred SampleRender.stale (render NoArg 110 SampleRender.stale)
  /\ redrawnAt 135 (render NoArg 110 SampleRender.stale)
       (render (Stamp 135) 140 (render NoArg 110 SampleRender.stale)).
Proof.
  destruct (render_deferred_then_served NoArg 110 140 150 135 SampleRender.stale)
    as (Hdef & Hpaint & _).
  - by right.
  - unfold throttled. cbn. lra.
  - unfold throttled. cbn. lra.
  - split; [exact Hdef|exact Hpaint].
Defined.

Lemma Canvas_sched_eta (c : Canvas.t) :
  Canvas.set_effects (Canvas.effects c)
    (Canvas.set_lastRender (Canvas.lastRender c) (Canvas.set_dirty (Canvas.dirty c) c))
  = c.
Proof. by destruct c. Qed.

(** X21: [render] writes nothing but the scheduler's own fields: the
    canvas it leaves is the one it found, up to the dirty flag, the time of
    the last paint and the requests made of the browser. *)
Theorem render_touches_scheduler_only (arg : RenderArg) (clock : R) (c : Canvas.t) :
  render arg clock c
  = Canvas.set_effects (Canvas.effects (render arg clock c))
      (Canvas.set_lastRender (Canvas.lastRender (render arg clock c))
         (Canvas.set_dirty (Canvas.dirty (render arg clock c)) c)).
Proof.
  rewrite <- (Canvas_sched_eta c) at 1.
  unfold render.
  destruct arg; cbn; repeat (case_match; cbn); reflexivity.
Qed.

(** ** The other bezier handle, and the handle types *)

(** A write of a new anchor object through [store.anchor], followed by the
    dirty mark on the first selected pen and a forced render: the canvas
    stays ready for the next call and the anchor is the new one. *)
Lemma writeAnchor_ready (clock : R) (c : Canvas.t) (i : nat) (s : Slot)
    (a a' : Point.t) :
  dragReady c i s a ->
  exists line q,
    head (Store.active (Canvas.store c)) = Some line
    /\ pensOf (alterPen (Pen_ops.alterAnchor (fun _ => a') s) i c) !! line = Some q
    /\ let c2 := alterPen (Pen_ops.alterCalc (Calc.set_dirty true)) line
                   (alterPen (Pen_ops.alterAnchor (fun _ => a') s) i c) in
       dragReady (render Forced clock c2) i s a'
       /\ Canvas.prevAnchor (render Forced clock c2) = Canvas.prevAnchor c
       /\ Canvas.nextAnchor (render Forced clock c2) = Canvas.nextAnchor c.
Proof.
  intros (Har & Hlock & Hanc & Ha & line & Hline & Hlt).
  set (c1 := alterPen _ i c).
  assert (Hlen1 : length (pensOf c1) = length (pensOf c)).
  { unfold c1. by rewrite pensOf_alterPen, length_alter. }
  destruct (lookup_lt_is_Some_2 (pensOf c1) line) as [q Hq]; [lia|].
  exists line, q. split; [exact Hline|]. split; [exact Hq|]. cbv zeta.
  set (c2 := alterPen _ line c1).
  destruct (render_frame Forced clock c2) as (Hst & Hrect & Hpa & Hna & _).
  assert (Hanchor : anchorOf c2 = Some a').
  { unfold anchorOf in *. rewrite Hanc in Ha. cbn in Ha.
    change (Store.anchor (Canvas.store c2)) with (Store.anchor (Canvas.store c)).
    rewrite Hanc. cbn.
    destruct (pensOf c !! i) as [pen|] eqn:Hpen; [|done]. cbn in Ha.
    change (Store.pens (Canvas.store c)) with (pensOf c).
    destruct (decide (line = i)) as [->|Hne].
    - rewrite !list_lookup_alter_eq, Hpen. cbn.
      rewrite anchorAt_alterCalc_dirty. exact (anchorAt_alterAnchor (fun _ => a') s pen a Ha).
    - rewrite list_lookup_alter_ne by done. rewrite list_lookup_alter_eq, Hpen. cbn.
      exact (anchorAt_alterAnchor (fun _ => a') s pen a Ha). }
  split; [|by rewrite Hpa, Hna].
  unfold dragReady. rewrite Hrect.
  unfold anchorOf, pensOf in *. rewrite Hst.
  split; [exact Har|]. split; [exact Hlock|]. split; [exact Hanc|].
  split; [exact Hanchor|].
  exists line. split; [exact Hline|].
  unfold c2, c1. cbn. rewrite !length_alter. exact Hlt.
Qed.

(** One call of [moveLineAnchorPrev] writes the anchor [dragPrev]
    computes. *)
Lemma moveLineAnchorPrev_step `{Helpers} (e : Point.t) (clock : R) (c : Canvas.t)
    (i : nat) (s : Slot) (a a' : Point.t) :
  dragReady c i s a ->
  dragPrev e (Canvas.prevAnchor c) (Canvas.nextAnchor c) a = Some a' ->
  exists c',
    moveLineAnchorPrev e clock c = Some c'
    /\ dragReady c' i s a'
    /\ Canvas.prevAnchor c' = Canvas.prevAnchor c
    /\ Canvas.nextAnchor c' = Canvas.nextAnchor c.
Proof.
  intros Hready Hdrag.
  destruct (writeAnchor_ready clock c i s a a' Hready)
    as (line & q & Hline & Hq & Hrest).
  destruct Hready as (Har & Hlock & Hanc & Ha & _).
  unfold moveLineAnchorPrev. rewrite Har, Hlock, Hanc. cbn [JS.is_some negb orb].
  rewrite bind_Some. cbn beta iota. rewrite Ha, bind_Some, Hdrag, bind_Some.
  change (Store.active (Canvas.store (alterPen (Pen_ops.alterAnchor (fun _ => a') s) i c)))
    with (Store.active (Canvas.store c)).
  rewrite Hline, bind_Some, Hq, bind_Some.
  eexists. split; [reflexivity|]. exact Hrest.
Qed.

(** An unset or zero [prevNextType] when the other handle is missing: the
    write [anchor.prev.x = e.x] raises. *)
Lemma dragNext_mirror_no_prev `{Helpers} (e : Point.t) (pa na : option Point.t)
    (a nx : Point.t) :
  prevNextType_falsy (Point.prevNextType a) = true ->
  Point.next a = Some nx ->
  Point.prev a = None ->
  dragNext e pa na a = None.
Proof.
  intros Hty Hnx Hpv. unfold dragNext. rewrite Hnx. cbn. by rewrite Hty, Hpv.
Qed.

Lemma dragNext_free `{Helpers} (e : Point.t) (pa na : option Point.t)
    (a nx : Point.t) :
  Point.prevNextType a = Some Free ->
  Point.next a = Some nx ->
  dragNext e pa na a = Some (Point.set_next (Some (Point.move_to e nx)) a).
Proof.
  intros Hty Hnx. unfold dragNext. rewrite Hnx. cbn. by rewrite Hty.
Qed.

(** X22: with [prevNextType] Free, dragging [anchor.next] moves that
    handle to the pointer and leaves [anchor.prev] as it is, set or not; the
    anchor itself stays. *)
Theorem moveLineAnchorNext_free_keeps_prev `{Helpers} (e : Point.t) (clock : R)
    (c : Canvas.t) (i : nat) (s : Slot) (a nx : Point.t) :
  dragReady c i s a ->
  Point.prevNextType a = Some Free ->
  Point.next a = Some nx ->
  exists c' a' nx',
    moveLineAnchorNext e clock c = Some c'
    /\ anchorOf c' = Some a'
    /\ sameCoords a' a
    /\ Point.next a' = Some nx' /\ sameCoords nx' e
    /\ Point.prev a' = Point.prev a.
Proof.
  intros Hready Hty Hnx.
  pose proof (dragNext_free e (Canvas.prevAnchor c) (Canvas.nextAnchor c) a nx Hty Hnx)
    as Hdrag.
  destruct (moveLineAnchorNext_step e clock c i s a _ Hready Hdrag)
    as (c' & Hmove & (_ & _ & _ & Hanchor & _) & _).
  eexists c', _, _. split; [exact Hmove|]. split; [exact Hanchor|].
  split; [by split|]. split; [reflexivity|]. split; [apply sameCoords_move_to|].
  reflexivity.
Qed.

Lemma moveLineAnchorNext_free_keeps_prev_witness :
  exists c' a',
    moveLineAnchorNext (H := Sample.helpers) (Point.at_ 120 80) 0
      (SampleCurve.hovering (Some Free)) = Some c'
    /\ anchorOf c' = Some a'
    /\ Point.prev a' = Some (Point.at_ 90 100).
Proof.
  destruct (moveLineAnchorNext_free_keeps_prev (H := Sample.helpers)
              (Point.at_ 120 80) 0 (SampleCurve.hovering (Some Free)) 0 SlotFrom
              (SampleCurve.anchor (Some Free)) (Point.at_ 110 100))
    as (c' & a' & nx' & Hmove & Hanchor & _ & _ & _ & Hprev).
  - repeat split; try reflexivity. exists 0. split; [reflexivity|cbn; lia].
  - reflexivity.
  - reflexivity.
  - exists c', a'. split; [exact Hmove|]. split; [exact Hanchor|]. exact Hprev.
Defined.

(** X23: with [prevNextType] unset (or Mirror), dragging the [next] handle
    of an anchor that has no [prev] handle raises: the write
    [anchor.prev.x = e.x] finds no object. *)
Theorem moveLineAnchorNext_mirror_needs_prev `{Helpers} (e : Point.t) (clock : R)
    (c : Canvas.t) (i : nat) (s : Slot) (a nx : Point.t) :
  dragReady c i s a ->
  prevNextType_falsy (Point.prevNextType a) = true ->
  Point.next a = Some nx ->
  Point.prev a = None ->
  moveLineAnchorNext e clock c = None.
Proof.
  intros (Har & Hlock & Hanc & Ha & _) Hty Hnx Hpv.
  unfold moveLineAnchorNext. rewrite Har, Hlock, Hanc. cbn [JS.is_some negb orb].
  rewrite bind_Some. cbn beta iota. rewrite Ha, bind_Some.
  by rewrite (dragNext_mirror_no_prev e _ _ a nx Hty Hnx Hpv).
Qed.

Lemma moveLineAnchorNext_mirror_needs_prev_witness :
  moveLineAnchorNext (H := Sample.helpers) (Point.at_ 120 80) 0 SampleHandle.hovering
  = None.
Proof.
  apply (moveLineAnchorNext_mirror_needs_prev (H := Sample.helpers)
           (Point.at_ 120 80) 0 SampleHandle.hovering 0 SlotFrom
           SampleHandle.anchor (Point.at_ 110 100)); try reflexivity.
  repeat split; try reflexivity. exists 0. split; [reflexivity|cbn; lia].
Defined.

Lemma dragPrev_mirror `{Helpers} (e : Point.t) (pa na : option Point.t)
    (a nx pv : Point.t) :
  prevNextType_falsy (Point.prevNextType a) = true ->
  Point.next a = Some nx ->
  Point.prev a = Some pv ->
  let a1 := Point.set_prev (Some (Point.move_to e pv)) a in
  dragPrev e pa na a
  = Some (Point.set_next
            (Some (Geometry.rotatePoint (Point.move_to e nx) (Some 180%R) a1)) a1).
Proof.
  intros Hty Hnx Hpv a1. unfold dragPrev. rewrite Hpv. cbn.
  rewrite Hty, Hnx. reflexivity.
Qed.

Lemma dragPrev_mirror_no_next `{Helpers} (e : Point.t) (pa na : option Point.t)
    (a pv : Point.t) :
  prevNextType_falsy (Point.prevNextType a) = true ->
  Point.prev a = Some pv ->
  Point.next a = None ->
  dragPrev e pa na a = None.
Proof.
  intros Hty Hpv Hnx. unfold dragPrev. rewrite Hpv. cbn. by rewrite Hty, Hnx.
Qed.

(** X24: [moveLineAnchorPrev] is the mirror image of [moveLineAnchorNext]:
    with [prevNextType] unset (or Mirror), on an anchor that has a [prev]
    handle: when the anchor has a [next] handle too, dragging [anchor.prev]
    to a point P puts [anchor.next] at P turned by 180 degrees about the
    anchor, that is at [2 * anchor - P]; when it has no [next] handle the
    call raises, the write [anchor.next.x = e.x] finding no object. *)
Theorem moveLineAnchorPrev_mirrors_next `{Helpers} (e : Point.t) (clock : R)
    (c : Canvas.t) (i : nat) (s : Slot) (a pv : Point.t) :
  dragReady c i s a ->
  prevNextType_falsy (Point.prevNextType a) = true ->
  Point.prev a = Some pv ->
  (forall nx, Point.next a = Some nx ->
     exists c' a' nx' pv',
       moveLineAnchorPrev e clock c = Some c'
       /\ anchorOf c' = Some a'
       /\ sameCoords a' a
       /\ Point.prev a' = Some pv' /\ sameCoords pv' e
       /\ Point.next a' = Some nx'
       /\ Point.x nx' = (2 * Point.x a - Point.x e)%R
       /\ Point.y nx' = (2 * Point.y a - Point.y e)%R)
  /\ (Point.next a = None -> moveLineAnchorPrev e clock c = None).
Proof.
  intros Hready Hty Hpv. split.
  - intros nx Hnx.
    pose proof (dragPrev_mirror e (Canvas.prevAnchor c) (Canvas.nextAnchor c)
                  a nx pv Hty Hnx Hpv) as Hdrag. cbn zeta in Hdrag.
    destruct (moveLineAnchorPrev_step e clock c i s a _ Hready Hdrag)
      as (c' & Hmove & (_ & _ & _ & Hanchor & _) & _).
    eexists c', _, _, _. split; [exact Hmove|]. split; [exact Hanchor|].
    split; [by split|].
    split; [reflexivity|]. split; [apply sameCoords_move_to|].
    split; [reflexivity|].
    rewrite rotatePoint_180. cbn. split; reflexivity.
  - intros Hnx. destruct Hready as (Har & Hlock & Hanc & Ha & _).
    unfold moveLineAnchorPrev. rewrite Har, Hlock, Hanc. cbn [JS.is_some negb orb].
    rewrite bind_Some. cbn beta iota. rewrite Ha, bind_Some.
    by rewrite (dragPrev_mirror_no_next e _ _ a pv Hty Hpv Hnx).
Qed.

Lemma moveLineAnchorPrev_mirrors_next_witness :
  (exists c' a' nx',
     moveLineAnchorPrev (H := Sample.helpers) (Point.at_ 80 120) 0
       (SampleCurve.hovering None) = Some c'
     /\ anchorOf c' = Some a'
     /\ Point.next a' = Some nx'
     /\ Point.x nx' = 120%R /\ Point.y nx' = 80%R)
  /\ moveLineAnchorPrev (H := Sample.helpers) (Point.at_ 80 120) 0
       SampleHandle.hoveringPrev = None.
Proof.
  split.
  - destruct (proj1 (moveLineAnchorPrev_mirrors_next (H := Sample.helpers)
                       (Point.at_ 80 120) 0 (SampleCurve.hovering None) 0 SlotFrom
                       (SampleCurve.anchor None) (Point.at_ 90 100)
                       ltac:(repeat split; try reflexivity;
                             exists 0; split; [reflexivity|cbn; lia])
                       eq_refl eq_refl)
                (Point.at_ 110 100) eq_refl)
      as (c' & a' & nx' & pv' & Hmove & Hanchor & _ & _ & _ & Hnext & Hx & Hy).
    exists c', a', nx'. repeat split; try assumption.
    + rewrite Hx. cbn. lra.
    + rewrite Hy. cbn. lra.
  - apply (proj2 (moveLineAnchorPrev_mirrors_next (H := Sample.helpers)
                    (Point.at_ 80 120) 0 SampleHandle.hoveringPrev 0 SlotFrom
                    SampleHandle.prevOnly (Point.at_ 90 100)
                    ltac:(repeat split; try reflexivity;
                          exists 0; split; [reflexivity|cbn; lia])
                    eq_refl eq_refl)).
    reflexivity.
Defined.

(** ** Zoom within bounds *)

Lemma pensOnly_refl (c : Canvas.t) : pensOnly c c.
Proof. exists (pensOf c). split; [|done]. unfold pensOf. by destruct (Canvas.store c). Qed.

Lemma pensOnly_trans (c1 c2 c3 : Canvas.t) :
  pensOnly c1 c2 -> pensOnly c2 c3 -> pensOnly c1 c3.
Proof.
  intros (L1 & H1 & Hl1) (L2 & H2 & Hl2). exists L2. split.
  - rewrite H2, H1. reflexivity.
  - rewrite Hl2. unfold pensOf at 1. rewrite H1. exact Hl1.
Qed.

Lemma pensOnly_alterPen (f : Pen.t -> Pen.t) (j : nat) (c : Canvas.t) :
  pensOnly c (alterPen f j c).
Proof. eexists. split; [reflexivity|]. apply length_alter. Qed.

Lemma pensOnly_store (c c' c'' : Canvas.t) :
  Canvas.store c'' = Canvas.store c' -> pensOnly c c' -> pensOnly c c''.
Proof. intros Hst (L & HL & Hlen). exists L. by rewrite Hst. Qed.

Lemma pensOnly_dirtyPenRect `{Helpers} (j : nat) (c : Canvas.t) :
  pensOnly c (dirtyPenRect j c).
Proof.
  unfold dirtyPenRect. destruct (pensOf c !! j) as [p|]; [|apply pensOnly_refl].
  set (p2 := Pen_ops.alterCalc _ _).
  eapply pensOnly_store with (c' := alterPen (fun _ => p2) j (detachActiveRect j c));
    [reflexivity|].
  eapply pensOnly_trans; [|apply pensOnly_alterPen].
  eapply pensOnly_store; [apply detachActiveRect_store|apply pensOnly_refl].
Qed.

Lemma pensOnly_length (c c' : Canvas.t) :
  pensOnly c c' -> length (pensOf c') = length (pensOf c).
Proof. intros (L & HL & Hlen). unfold pensOf at 1. by rewrite HL. Qed.

(** The loop of [scale] over a document whose pens are nodes after
    scaling: it runs to its end and writes into pens only. *)
Lemma scalePens_nodes `{Helpers} (s : R) (center : Point.t) (idxs : list nat) :
  forall c : Canvas.t,
    NoDup idxs ->
    Forall (fun i => exists pen, pensOf c !! i = Some pen
                       /\ Pen_ops.isLine (scalePen pen s center) = false) idxs ->
    exists c', scalePens s center idxs c = Some c' /\ pensOnly c c'.
Proof.
  induction idxs as [|i rest IH]; intros c Hnodup Hnodes.
  { exists c. split; [done|apply pensOnly_refl]. }
  apply NoDup_cons in Hnodup as [Hi Hnodup].
  apply Forall_cons in Hnodes as [(pen & Hpen & Hnode) Hrest].
  cbn [scalePens]. rewrite Hpen. cbv zeta. rewrite Hnode.
  set (c1 := dirtyPenRect i (alterPen (fun _ => scalePen pen s center) i c)).
  assert (Hkept : pensOnly c c1).
  { eapply pensOnly_trans; [apply pensOnly_alterPen|apply pensOnly_dirtyPenRect]. }
  destruct (IH c1 Hnodup) as (c' & Hrun & Hkept').
  { rewrite Forall_forall in Hrest. apply Forall_forall. intros k Hk.
    destruct (Hrest k Hk) as (pk & Hpk & Hnk). exists pk. split; [|exact Hnk].
    subst c1. rewrite dirtyPenRect_other by (intros ->; contradiction).
    rewrite pensOf_alterPen, list_lookup_alter_ne by (intros ->; contradiction).
    exact Hpk. }
  exists c'. split; [exact Hrun|]. by eapply pensOnly_trans.
Qed.

Lemma calcActiveRect_pensOnly `{Helpers} (c c' : Canvas.t) :
  calcActiveRect c = Some c' -> pensOnly c c'.
Proof.
  unfold calcActiveRect, getSizeCPs.
  destruct (Store.active (Canvas.store c)) as [|i [|i2 rest]].
  - cbn [mapM]. rewrite !bind_Some.
    destruct (getActiveRect _); [|done]. rewrite bind_Some. intros [= <-].
    eapply pensOnly_store; [|apply pensOnly_refl]. reflexivity.
  - destruct (pensOf c !! i) as [p|]; [|done]. rewrite !bind_Some.
    destruct (getActiveRect _); [|done]. rewrite bind_Some. intros [= <-].
    eapply pensOnly_store
      with (c' := alterPen (Pen_ops.alterCalc
                              (fun k => Calc.set_worldRect
                                          (Geometry.calcCenter
                                             (Rect.set_rotate (Pen.rotate p) (Calc.worldRect k))) k))
                    i c); [reflexivity|].
    apply pensOnly_alterPen.
  - destruct (mapM _ _); [|done]. rewrite !bind_Some.
    destruct (getActiveRect _); [|done]. rewrite bind_Some. intros [= <-].
    eapply pensOnly_store; [|apply pensOnly_refl]. reflexivity.
Qed.

(** X25: a zoom within the bounds, on a document whose pens are nodes:
    [scale] returns, [store.data.scale] is the new factor,
    [store.data.center] is the centre with the pan offset taken off, one
    [scale] event carries the factor, and the pan offset, the bounds, the
    selection and the number of pens are as before. *)
Theorem scale_in_bounds_sets_scale `{Helpers} (s : R) (center : option Point.t)
    (clock : R) (c : Canvas.t) :
  let ctr := calibrateMouse (default (Point.at_ 0 0) center) c in
  (Store.minScale (Canvas.store c) <= s <= Store.maxScale (Canvas.store c))%R ->
  Forall (fun pen => Pen_ops.isLine
                       (scalePen pen (s / Store.data_scale (Canvas.store c))%R ctr)
                     = false) (pensOf c) ->
  Forall (fun j => j < length (pensOf c)) (Store.active (Canvas.store c)) ->
  exists c',
    scale s center clock c = Some c'
    /\ Store.data_scale (Canvas.store c') = s
    /\ Store.data_center (Canvas.store c') = Some ctr
    /\ Store.emitted (Canvas.store c')
       = mkEvent "scale" (OfNumber s) :: Store.emitted (Canvas.store c)
    /\ Store.data_x (Canvas.store c') = Store.data_x (Canvas.store c)
    /\ Store.data_y (Canvas.store c') = Store.data_y (Canvas.store c)
    /\ Store.minScale (Canvas.store c') = Store.minScale (Canvas.store c)
    /\ Store.maxScale (Canvas.store c') = Store.maxScale (Canvas.store c)
    /\ Store.active (Canvas.store c') = Store.active (Canvas.store c)
    /\ length (pensOf c') = length (pensOf c).
Proof.
  intros ctr Hbounds Hnodes Hvalid. unfold scale.
  rewrite (bool_decide_eq_false_2 (s < _)%R) by lra.
  rewrite (bool_decide_eq_false_2 (s > _)%R) by lra.
  cbn [orb]. fold ctr.
  set (c1 := Canvas.set_dirty true c).
  destruct (scalePens_nodes (s / Store.data_scale (Canvas.store c)) ctr
              (seq 0 (length (pensOf c1))) c1) as (c2 & Hrun & Hkept2).
  { apply NoDup_seq. }
  { apply Forall_forall. intros i Hi. apply elem_of_seq in Hi.
    destruct (lookup_lt_is_Some_2 (pensOf c1) i) as [pen Hpen]; [lia|].
    exists pen. split; [exact Hpen|].
    rewrite Forall_forall in Hnodes. apply Hnodes.
    by eapply list_elem_of_lookup_2. }
  rewrite Hrun, bind_Some.
  pose proof (pensOnly_length _ _ Hkept2) as Hlen2.
  destruct Hkept2 as (L2 & Hst2 & _).
  destruct (calcActiveRect_ok c2) as (c3 & Hcalc & _).
  { rewrite Hlen2, Hst2. exact Hvalid. }
  rewrite Hcalc, bind_Some.
  pose proof (calcActiveRect_pensOnly c2 c3 Hcalc) as Hkept3.
  pose proof (pensOnly_length _ _ Hkept3) as Hlen3.
  destruct Hkept3 as (L3 & Hst3 & _).
  eexists. split; [reflexivity|].
  set (c4 := alterStore _ c3).
  assert (Hst : Canvas.store (render Forced clock c4) = Canvas.store c4)
    by apply render_store.
  unfold pensOf.
  change (Canvas.store (emit "scale" (OfNumber s) (render Forced clock c4)))
    with (Store.set_emitted
            (mkEvent "scale" (OfNumber s)
             :: Store.emitted (Canvas.store (render Forced clock c4)))
            (Canvas.store (render Forced clock c4))).
  rewrite Hst.
  change (Canvas.store c4)
    with (Store.set_data_center (Some ctr) (Store.set_data_scale s (Canvas.store c3))).
  rewrite Hst3, Hst2. cbn.
  repeat split; try reflexivity.
  change (length L3 = length (pensOf c)).
  unfold pensOf in Hlen3 at 1. rewrite Hst3 in Hlen3. cbn in Hlen3.
  by rewrite Hlen3, Hlen2.
Qed.

Lemma scale_in_bounds_sets_scale_witness :
  exists c',
    scale (H := Sample.helpers) 2 (Some (Point.at_ 5 5)) 0 SampleSelect.two = Some c'
    /\ Store.data_scale (Canvas.store c') = 2%R
    /\ Store.emitted (Canvas.store c') = [mkEvent "scale" (OfNumber 2)].
Proof.
  destruct (scale_in_bounds_sets_scale (H := Sample.helpers) 2 (Some (Point.at_ 5 5)) 0
              SampleSelect.two)
    as (c' & Hrun & Hscale & _ & Hev & _).
  - cbn. lra.
  - repeat constructor.
  - repeat constructor; cbn; lia.
  - exists c'. split; [exact Hrun|]. split; [exact Hscale|exact Hev].
Defined.

(** ** The line that [finishDrawline] stores *)

Lemma alter_keeps {A : Type} (obs : Pen.t -> A) (f : Pen.t -> Pen.t) (i k : nat)
    (l : list Pen.t) :
  (forall p, obs (f p) = obs p) ->
  obs <$> alter f i l !! k = obs <$> l !! k.
Proof.
  intros Hf. destruct (decide (k = i)) as [->|Hne].
  - rewrite list_lookup_alter_eq. destruct (l !! i); [|done]. cbn. by rewrite Hf.
  - by rewrite list_lookup_alter_ne.
Qed.

(** A sweep of writes that leave an observation alone leaves it alone. *)
Lemma sweep_keeps {A : Type} (obs : Pen.t -> A) (f : Pen.t -> Pen.t) (l : list nat) :
  (forall p, obs (f p) = obs p) ->
  forall (c : Canvas.t) (k : nat),
    obs <$> pensOf (foldl (fun c i => alterPen f i c) c l) !! k = obs <$> pensOf c !! k.
Proof.
  intros Hf. induction l as [|i l IH]; intros c k; [done|].
  cbn [foldl]. rewrite IH, pensOf_alterPen. by apply alter_keeps.
Qed.

(** [active] on one pen that exists leaves the end of every line alone. *)
Lemma active_one_lineEnd `{Helpers} (n : nat) (c c' : Canvas.t) :
  n < length (pensOf c) ->
  active [n] c = Some c' ->
  (forall k, lineEnd <$> pensOf c' !! k = lineEnd <$> pensOf c !! k)
  /\ Store.active (Canvas.store c') = [n]
  /\ Canvas.drawingLineName c' = Canvas.drawingLineName c.
Proof.
  intros Hn. unfold active.
  set (c1 := clearActiveFlags c).
  set (c2 := alterStore (Store.set_active []) c1).
  set (c3 := foldl _ c2 [n]).
  set (c4 := alterStore _ c3).
  assert (Hend : forall k, lineEnd <$> pensOf c4 !! k = lineEnd <$> pensOf c !! k).
  { intros k. change (pensOf c4) with (pensOf c3). subst c3.
    rewrite sweep_keeps by done. change (pensOf c2) with (pensOf c1).
    subst c1. unfold clearActiveFlags. by rewrite sweep_keeps. }
  assert (Hlen : length (pensOf c4) = length (pensOf c)).
  { change (pensOf c4) with (pensOf c3).
    destruct (sweep_frame (Pen_ops.alterCalc (Calc.set_active true)) [n] c2)
      as (_ & _ & _ & _ & Hl3).
    subst c3. rewrite Hl3. change (pensOf c2) with (pensOf c1).
    destruct (sweep_frame (Pen_ops.alterCalc (Calc.set_active false))
                (Store.active (Canvas.store c)) c) as (_ & _ & _ & _ & Hl1).
    exact Hl1. }
  assert (Hact4 : Store.active (Canvas.store c4) = [n]).
  { destruct (sweep_frame (Pen_ops.alterCalc (Calc.set_active true)) [n] c2)
      as (Ha3 & _).
    change (Store.active (Canvas.store c4)) with (Store.active (Canvas.store c3) ++ [n]).
    subst c3. by rewrite Ha3. }
  assert (Hname4 : Canvas.drawingLineName c4 = Canvas.drawingLineName c).
  { destruct (foldl_alterPen_shape (Pen_ops.alterCalc (Calc.set_active true)) [n] c2)
      as (L3 & HL3 & _).
    destruct (foldl_alterPen_shape (Pen_ops.alterCalc (Calc.set_active false))
                (Store.active (Canvas.store c)) c) as (L1 & HL1 & _).
    subst c4 c3. rewrite HL3. subst c2 c1. unfold clearActiveFlags. by rewrite HL1. }
  destruct (lookup_lt_is_Some_2 (pensOf c4) n) as [q Hq]; [lia|].
  rewrite (calcActiveRect_single c4 n q Hact4 Hq), bind_Some. cbv zeta.
  intros [= <-].
  split; [|split].
  - intros k. rewrite <- Hend.
    change (pensOf (emit ?a ?b (Canvas.set_dirty true
              (Canvas.set_sizeCPs ?x (Canvas.set_lastRotate ?y ?z))))) with (pensOf z).
    unfold modActiveRect. cbn [Canvas.activeRect Canvas.set_activeRect].
    rewrite pensOf_alterPen.
    change (pensOf (Canvas.set_activeRect (Some (RectOfPen n)) c4)) with (pensOf c4).
    by apply alter_keeps.
  - cbn. exact Hact4.
  - cbn. exact Hname4.
Qed.

(** The head of [finishDrawline] on a line with a committed anchor and a
    loose end: the last anchor is popped and becomes [worldTo]. *)
Lemma closeLine_pops `{Helpers} (dl : Pen.t) (l : list Point.t) (a : Point.t) :
  toConnected dl = false ->
  Calc.worldAnchors (Pen.calculative dl) = Some (l ++ [a]) ->
  exists dl',
    closeLine false dl = Some (Some dl')
    /\ lineEnd dl'
       = (Some (if bool_decide (Point.connectTo a = Pen.id dl)
                then Point.set_connectTo None a else a),
          Some l, Some SlotTo)
    /\ Calc.worldFrom (Pen.calculative dl') = Calc.worldFrom (Pen.calculative dl).
Proof.
  intros Hcon Hanch. unfold closeLine.
  change (toConnected (Pen_ops.alterCalc _ _)) with (toConnected dl).
  rewrite Hcon. cbn [negb andb]. unfold popWorldTo. cbn.
  rewrite Hanch. cbn. rewrite last_snoc, removelast_last. cbn.
  eexists. split; [reflexivity|]. by split.
Qed.

Lemma initLineRect_pen_lineEnd `{Helpers} (p p' : Pen.t) :
  initLineRect_pen p = Some p' -> lineEnd p' = lineEnd p.
Proof.
  unfold initLineRect_pen. cbn.
  destruct (Calc.worldFrom (Pen.calculative p)); [|done]. cbn.
  destruct (Calc.worldTo (Pen.calculative p)) eqn:Hto; [|done]. cbn.
  intros [= <-]. unfold lineEnd.
  destruct (Calc.worldAnchors (Pen.calculative p)) eqn:Hanch; cbn;
    by rewrite ?Hto, ?Hanch.
Qed.

(** X2: a line finished without the forced-end flag, whose loose end is
    not connected and which has a committed anchor, is stored ending on that
    anchor: the pen added at the end of [store.data.pens] has the last
    committed anchor as [worldTo], the anchors before it as [worldAnchors],
    its end marked as the active anchor, and it is the selection.  An end
    that names the line itself as its connection loses that connection. *)
Theorem finishDrawline_ends_on_last_anchor `{Helpers} (clock : R) (c : Canvas.t)
    (dl : Pen.t) (l : list Point.t) (a : Point.t) :
  Canvas.drawingLine c = Some dl ->
  toConnected dl = false ->
  Calc.worldAnchors (Pen.calculative dl) = Some (l ++ [a]) ->
  is_Some (Calc.worldFrom (Pen.calculative dl)) ->
  Canvas.beforeAddPen c = None ->
  Canvas.drawingLineName c ≫= drawLineFn = None ->
  exists c' p,
    finishDrawline false clock c = Some c'
    /\ pensOf c' !! length (pensOf c) = Some p
    /\ lineEnd p
       = (Some (if bool_decide (Point.connectTo a = Pen.id dl)
                then Point.set_connectTo None a else a),
          Some l, Some SlotTo)
    /\ Store.active (Canvas.store c') = [length (pensOf c)]
    /\ Canvas.drawingLine c' = None.
Proof.
  intros Hdl Hcon Hanch Hfrom Hhook Hfn.
  destruct (closeLine_pops dl l a Hcon Hanch) as (dl1 & Hclose & Hend1 & Hfrom1).
  unfold finishDrawline. rewrite Hdl, Hclose, bind_Some.
  unfold accepts. rewrite Hhook. unfold addLine.
  destruct (initLineRect_pen_Some dl1) as [dl2 Hinit].
  { by rewrite Hfrom1. }
  { apply (f_equal (fun t => fst (fst t))) in Hend1. cbn in Hend1.
    rewrite Hend1. by eexists. }
  rewrite Hinit, bind_Some. cbv zeta.
  set (n := length (pensOf c)).
  set (c2 := emit _ _ _).
  assert (Hn2 : pensOf c2 = pensOf c ++ [dl2]) by reflexivity.
  assert (Hlen2 : length (pensOf c2) = S n).
  { rewrite Hn2, length_app. cbn. subst n. lia. }
  destruct (active_one n c2) as (c3 & Hrun & _); [lia|].
  destruct (active_one_lineEnd n c2 c3) as (Hend3 & Hact3 & Hname3); [lia|exact Hrun|].
  rewrite Hrun, !bind_Some.
  set (c4 := alterStore _ c3).
  set (c5 := Canvas.set_dirty true _).
  assert (Hname4 : Canvas.drawingLineName c4 ≫= drawLineFn = None).
  { change (Canvas.drawingLineName c4) with (Canvas.drawingLineName c3).
    by rewrite Hname3. }
  assert (Hpen : lineEnd <$> pensOf c5 !! n = Some (lineEnd dl2)).
  { subst c5.
    change (pensOf (Canvas.set_dirty true
                      (alterPen (drawline_pen (Canvas.drawingLineName c4) None) n c4)))
      with (alter (drawline_pen (Canvas.drawingLineName c4) None) n (pensOf c3)).
    rewrite alter_keeps.
    - rewrite Hend3, Hn2. subst n. by rewrite list_lookup_middle.
    - intros p. unfold drawline_pen. by rewrite Hname4. }
  destruct (pensOf c5 !! n) as [p|] eqn:Hp; [|done].
  assert (Hpen' : lineEnd p = lineEnd dl2).
  { apply (f_equal (default (lineEnd p))) in Hpen. exact Hpen. }
  eexists _, p. split; [reflexivity|].
  split.
  { change (pensOf (Canvas.set_drawingLine None (render NoArg clock c5)))
      with (Store.pens (Canvas.store (render NoArg clock c5))).
    rewrite render_store. exact Hp. }
  split.
  { rewrite Hpen', (initLineRect_pen_lineEnd dl1 dl2 Hinit). exact Hend1. }
  split; [|reflexivity].
  change (Store.active (Canvas.store (Canvas.set_drawingLine None (render NoArg clock c5))))
    with (Store.active (Canvas.store (render NoArg clock c5))).
  rewrite render_store. exact Hact3.
Qed.

Lemma finishDrawline_ends_on_last_anchor_witness :
  exists c' p,
    finishDrawline (H := Sample.helpers) false 0
      (SampleDraw.drawing SampleDraw.anchored None) = Some c'
    /\ pensOf c' !! 0 = Some p
    /\ Calc.worldTo (Pen.calculative p) = Some (Point.at_ 20 30)
    /\ Calc.worldAnchors (Pen.calculative p) = Some [].
Proof.
  destruct (finishDrawline_ends_on_last_anchor (H := Sample.helpers) 0
              (SampleDraw.drawing SampleDraw.anchored None) SampleDraw.anchored
              [] (Point.at_ 20 30))
    as (c' & p & Hrun & Hp & Hend & _); try reflexivity.
  - by eexists.
  - exists c', p. split; [exact Hrun|]. split; [exact Hp|].
    unfold lineEnd in Hend.
    assert (Hto : Calc.worldTo (Pen.calculative p) = Some (Point.at_ 20 30)).
    { apply (f_equal (fun t => fst (fst t))) in Hend. cbn in Hend.
      by rewrite bool_decide_eq_false_2 in Hend. }
    assert (Hanch : Calc.worldAnchors (Pen.calculative p) = Some []).
    { by apply (f_equal (fun t => snd (fst t))) in Hend. }
    by split.
Defined.

(** ** Recorded positions *)

(** X26: the positions recorded at pointer-down on a size handle and the
    placement made by [resizePens] fit together: on a selection of one pen
    without parent, whose active rect has a width and a height that are not
    0 (the code divides by them), after the pointer-down and one move the
    pen keeps its position relative to the active rect: its [x] is the old
    distance from the rect's [x], in units of the old width, laid off along
    the new width from the new [x] (likewise [y]).  When the rect comes out
    with the same box, the pen is where it was and as large as it was. *)
Theorem resize_keeps_relative_position `{Helpers} (down : MouseEvent)
    (e : Point.t) (clock clock' : R) (c : Canvas.t) (md : MouseEvent)
    (r : Rect.t) (j : nat) (pen : Pen.t) :
  Canvas.hoverType c = HoverResize ->
  Canvas.mouseDown c = Some md ->
  getActiveRect c = Some r ->
  Rect.width r <> 0%R ->
  Rect.height r <> 0%R ->
  Store.active (Canvas.store c) = [j] ->
  pensOf c !! j = Some pen ->
  JS.truthy_str (Pen.parentId pen) = false ->
  exists c1 c' r' pen',
    mouseDownSwitch down clock c = Some c1
    /\ resizePens e clock' c1 = Some c'
    /\ getActiveRect c' = Some r'
    /\ pensOf c' !! j = Some pen'
    /\ Pen.x pen'
       = ((Pen.x pen - Rect.x r) / Rect.width r * Rect.width r' + Rect.x r')%R
    /\ Pen.y pen'
       = ((Pen.y pen - Rect.y r) / Rect.height r * Rect.height r' + Rect.y r')%R
    /\ (Rect.x r' = Rect.x r -> Rect.y r' = Rect.y r ->
        Rect.width r' = Rect.width r -> Rect.height r' = Rect.height r ->
        Pen.x pen' = Pen.x pen /\ Pen.y pen' = Pen.y pen
        /\ Pen.width pen' = Pen.width pen /\ Pen.height pen' = Pen.height pen).
Proof.
  intros Hty Hmd Hrect Hw0 Hh0 Hact Hpen Hparent.
  set (ip := Point.at_ ((Pen.x pen - Rect.x r) / Rect.width r)
               ((Pen.y pen - Rect.y r) / Rect.height r)).
  assert (Hpos : initPositions c = Some [ip]).
  { unfold initPositions. rewrite Hact. cbn [mapM].
    by rewrite Hpen, bind_Some, Hrect, !bind_Some. }
  set (c1 := render NoArg clock (Canvas.set_activeInitPos [ip] c)).
  assert (Hdown : mouseDownSwitch down clock c = Some c1).
  { unfold mouseDownSwitch. by rewrite Hty, Hpos, !bind_Some. }
  destruct (render_gestureKept NoArg clock (Canvas.set_activeInitPos [ip] c))
    as ((K1 & K2 & _ & _ & _ & K6 & K7) & Krect).
  fold c1 in K1, K2, K6, K7, Krect.
  assert (Hpens1 : pensOf c1 = pensOf c).
  { unfold pensOf. subst c1. by rewrite render_store. }
  destruct (resizePens_member_spec e clock' c1 md r j pen ip)
    as (c' & r' & pen' & Hrun & Hrect' & Hpen' & Hx & Hy & Hw & Hh).
  - unfold resizeReady. rewrite K1, Krect, K6, K7, K2. cbn.
    rewrite Hact. repeat split; try done; try (cbn; lia).
    repeat constructor. by eapply lookup_lt_Some.
  - by rewrite K6.
  - by rewrite Hpens1.
  - exact Hparent.
  - by rewrite K2.
  - exists c1, c', r', pen'. split; [exact Hdown|]. split; [exact Hrun|].
    split; [exact Hrect'|]. split; [exact Hpen'|].
    split; [exact Hx|]. split; [exact Hy|].
    intros Ex Ey Ew Eh. rewrite Hx, Hy, Hw, Hh, Ex, Ey, Ew, Eh. cbn.
    repeat split; field; assumption.
Qed.

(** The rect after one call from the start of a gesture on the
    bottom-right handle of an unturned rect. *)
Lemma resize_step_rect2 `{Helpers} (e : Point.t) (clock : R) (c : Canvas.t)
    (md : MouseEvent) (r : Rect.t) (c' : Canvas.t) (r' : Rect.t) :
  resizeStart c md r 2 ->
  unrotated r ->
  resizePens e clock c = Some c' ->
  getActiveRect c' = Some r' ->
  Rect.x r' = Rect.x r /\ Rect.y r' = Rect.y r
  /\ Rect.width r' = (Rect.width r + (Point.x e - ev_x md))%R
  /\ Rect.height r' = (Rect.height r + (Point.y e - ev_y md))%R.
Proof.
  intros (Hready & Hidx & HX & HY) Hun Hrun Hrect.
  destruct (resizePens_step e clock c md r Hready) as (c1 & Hstep & (_ & Hrect1 & _) & _).
  rewrite Hrun in Hstep. injection Hstep as <-.
  rewrite Hrect in Hrect1. injection Hrect1 as ->.
  rewrite !(rotatePoint_back_unrotated _ _ r Hun), Hidx, HX, HY.
  cbn. repeat split; lra.
Qed.

Lemma resize_keeps_relative_position_witness :
  exists c1 c' pen',
    mouseDownSwitch (H := Sample.helpers) (mkMouseEvent 100 50 false false false) 0
      SampleGrab.grabbed = Some c1
    /\ resizePens (H := Sample.helpers) (Point.at_ 100 50) 0 c1 = Some c'
    /\ pensOf c' !! 0 = Some pen'
    /\ Pen.x pen' = 0%R /\ Pen.width pen' = 100%R.
Proof.
  destruct (resize_keeps_relative_position (H := Sample.helpers)
              (mkMouseEvent 100 50 false false false) (Point.at_ 100 50) 0 0
              SampleGrab.grabbed (mkMouseEvent 100 50 false false false)
              (Sample.box 0 0 100 50 (Some 0%R)) 0 (Sample.node "a" 0 0 100 50))
    as (c1 & c' & r' & pen' & Hdown & Hrun & Hrect & Hpen & _ & _ & Hsame);
    try reflexivity; try (cbn; lra).
  exists c1, c', pen'. split; [exact Hdown|]. split; [exact Hrun|].
  split; [exact Hpen|].
  destruct (resize_step_rect2 (H := Sample.helpers) (Point.at_ 100 50) 0 c1
              (mkMouseEvent 100 50 false false false)
              (Sample.box 0 0 100 50 (Some 0%R)) c' r') as (Ex & Ey & Ew & Eh).
  - injection Hdown as <-. repeat split; try reflexivity; repeat constructor; cbn; lia.
  - by right.
  - exact Hrun.
  - exact Hrect.
  - destruct Hsame as (Hx & _ & Hw & _).
    + rewrite Ex. cbn. lra.
    + rewrite Ey. cbn. lra.
    + rewrite Ew. cbn. lra.
    + rewrite Eh. cbn. lra.
    + by rewrite Hx, Hw.
Defined.

(** ** Enter and leave *)

Lemma quiet_refl (c : Canvas.t) : quiet c c.
Proof. by split. Qed.

Lemma quiet_trans (c1 c2 c3 : Canvas.t) : quiet c1 c2 -> quiet c2 c3 -> quiet c1 c3.
Proof. intros [? ?] [? ?]. split; congruence. Qed.

Lemma inAnchor_quiet `{Helpers} (pt : Point.t) (i : nat) (s : Slot) (c : Canvas.t) :
  quiet c (snd (inAnchor pt i s c)).
Proof.
  destruct (inAnchor pt i s c) as [h c'] eqn:Hin. cbn [snd].
  destruct (inAnchor_cases pt i s c h c' Hin)
    as [[_ ->]|(pen & cur & c0 & _ & -> & [-> | ->] & _)];
    by split.
Qed.

Lemma inAnchors_quiet `{Helpers} (pt : Point.t) (i : nat) (ss : list Slot) :
  forall c, quiet c (snd (inAnchors pt i ss c)).
Proof.
  induction ss as [|s ss IH]; intros c; [apply quiet_refl|].
  cbn [inAnchors].
  pose proof (inAnchor_quiet pt i s c) as Hq.
  destruct (inAnchor pt i s c) as [h c1]. cbn [snd] in Hq.
  destruct (hover_truthy h); [exact Hq|].
  eapply quiet_trans; [exact Hq|apply IH].
Qed.

Lemma hoverPens_quiet `{Helpers} (pt : Point.t) (idxs : list nat) :
  forall c, quiet c (snd (hoverPens pt idxs c)).
Proof.
  induction idxs as [|i rest IH]; intros c; [apply quiet_refl|].
  cbn [hoverPens].
  destruct (pensOf c !! i) as [pen|]; [|apply IH].
  destruct (bool_decide (Pen.visible pen = Some false) || locked_disable (Pen.locked pen));
    [apply IH|].
  cbv zeta.
  set (open := negb (locked_truthy (Store.data_locked (Canvas.store c)))
               && negb (Store.disableAnchor (Canvas.store c))
               && negb (hotkey_eqb (Canvas.hotkeyType c) HotkeyResize)).
  assert (Hq : quiet c (snd (if open then inAnchors pt i (slotsOf pen) c
                             else (HoverNone, c)))).
  { destruct open; [apply inAnchors_quiet|apply quiet_refl]. }
  destruct (if open then inAnchors pt i (slotsOf pen) c else (HoverNone, c))
    as [h c1]. cbn [snd] in Hq.
  destruct (hover_truthy h); [exact Hq|].
  destruct (Pen_ops.isLine pen).
  - destruct (pointInLine pt pen) as [[k q]|].
    + cbn [snd]. destruct Hq as [He Hl]. by split.
    + eapply quiet_trans; [exact Hq|apply IH].
  - destruct (pointInRect pt (Some (Calc.worldRect (Pen.calculative pen)))).
    + cbn [snd]. destruct Hq as [He Hl]. by split.
    + eapply quiet_trans; [exact Hq|apply IH].
Qed.

Lemma hoverHandles_store `{Helpers} (pt : Point.t) (r : Rect.t) (c : Canvas.t)
    (h : HoverType) (c1 : Canvas.t) :
  hoverHandles pt r c = Some (h, c1) -> Canvas.store c1 = Canvas.store c.
Proof.
  unfold hoverHandles. cbv zeta.
  set (rot := negb (Store.disableRotate (Canvas.store c))
              && hotkey_eqb (Canvas.hotkeyType c) HotkeyNone
              && hitPoint pt (rotateHandle r) (Canvas.pointSize c)).
  assert (H0 : Canvas.store (snd (if rot
                 then (HoverRotate, Canvas.set_cursor (Some rotateCursor) c)
                 else (HoverNone, c))) = Canvas.store c) by (by destruct rot).
  destruct (if rot then (HoverRotate, Canvas.set_cursor (Some rotateCursor) c)
            else (HoverNone, c)) as [h0 c0]. cbn [snd] in H0.
  set (first := if hotkey_eqb (Canvas.hotkeyType c) HotkeyNone
                   || hotkey_eqb (Canvas.hotkeyType c) HotkeyResize
                then _ else _).
  assert (H1 : forall h1 c1', first = Some (h1, c1') -> Canvas.store c1' = Canvas.store c).
  { subst first. intros h1 c1'.
    destruct (hotkey_eqb (Canvas.hotkeyType c) HotkeyNone
              || hotkey_eqb (Canvas.hotkeyType c) HotkeyResize).
    - destruct (firstHit pt c0 (seq 0 4)) as [[i|]|]; [| |done];
        rewrite bind_Some; intros [= _ <-]; exact H0.
    - intros [= _ <-]. exact H0. }
  destruct first as [[h1 c1']|]; [|done]. rewrite bind_Some.
  specialize (H1 h1 c1' eq_refl).
  destruct (hotkey_eqb (Canvas.hotkeyType c) HotkeyResize).
  - destruct (firstHit pt c1' (seq 4 4)) as [[i|]|]; [| |done];
      rewrite bind_Some; intros [= _ <-]; exact H1.
  - intros [= _ <-]. exact H1.
Qed.

(** What the tail of [getHover] emits. *)
Lemma hoverChanged_emits (c : Canvas.t) :
  Store.emitted (Canvas.store (hoverChanged c))
  = hoverEvents (Store.lastHover (Canvas.store c)) (Store.hover (Canvas.store c))
    ++ Store.emitted (Canvas.store c).
Proof.
  unfold hoverChanged, hoverEvents. case_bool_decide as Heq; [done|].
  cbv zeta.
  by destruct (Store.lastHover (Canvas.store c)) as [i|],
              (Store.hover (Canvas.store c)) as [j|].
Qed.

(** X27: [getHover] tells the change of the hovered pen, and nothing
    else: when the pen under the pointer is the one of the last call nothing
    is emitted; otherwise the old pen, if any, gets one [leave] and the new
    one, if any, one [enter], in this order; [store.lastHover] becomes the
    hovered pen either way. *)
Theorem getHover_notifies_change `{Helpers} (pt : Point.t) (c c' : Canvas.t) :
  getHover pt c = Some c' ->
  Store.lastHover (Canvas.store c') = Store.hover (Canvas.store c')
  /\ Store.emitted (Canvas.store c')
     = hoverEvents (Store.lastHover (Canvas.store c)) (Store.hover (Canvas.store c'))
       ++ Store.emitted (Canvas.store c).
Proof.
  unfold getHover. cbv zeta.
  set (c0 := alterStore _ c).
  assert (Hq0 : quiet c c0) by (by split).
  destruct (activeLine c0) as [aline|]; [|done]. rewrite bind_Some.
  set (first := match getActiveRect c0 with Some r => _ | None => _ end).
  assert (H1 : forall h1 c1, first = Some (h1, c1) -> quiet c c1).
  { subst first. intros h1 c1.
    destruct (getActiveRect c0) as [r|]; [|by intros [= _ <-]].
    destruct (negb (JS.truthy_str (Canvas.drawingLineName c0)) && negb aline
              && negb (locked_truthy (Store.data_locked (Canvas.store c0))));
      [|by intros [= _ <-]].
    intros Hh. apply hoverHandles_store in Hh. unfold quiet. by rewrite Hh. }
  destruct first as [[h1 c1]|]; [|done]. rewrite bind_Some.
  specialize (H1 h1 c1 eq_refl).
  assert (H2 : quiet c (snd (if hover_truthy h1 then (h1, c1)
                 else hoverPens pt (reverse (seq 0 (length (pensOf c1)))) c1))).
  { destruct (hover_truthy h1); [exact H1|].
    eapply quiet_trans; [exact H1|apply hoverPens_quiet]. }
  destruct (if hover_truthy h1 then (h1, c1)
            else hoverPens pt (reverse (seq 0 (length (pensOf c1)))) c1) as [h2 c2].
  cbn [snd] in H2.
  assert (H3 : quiet c (snd (if negb (hover_truthy h2) && negb aline
                                  && pointInRect pt (getActiveRect c2)
                             then (HoverNode, Canvas.set_cursor (Some "move") c2)
                             else (h2, c2)))).
  { by destruct (negb (hover_truthy h2) && negb aline
                 && pointInRect pt (getActiveRect c2)). }
  destruct (if negb (hover_truthy h2) && negb aline && pointInRect pt (getActiveRect c2)
            then (HoverNode, Canvas.set_cursor (Some "move") c2) else (h2, c2))
    as [h3 c3]. cbn [snd] in H3.
  set (c5 := if hover_truthy h3 then Canvas.set_hoverType h3 c3 else _).
  assert (H5 : quiet c c5).
  { subst c5. destruct H3 as [He Hl].
    destruct (hover_truthy h3); [by split|].
    destruct (JS.truthy_str (Canvas.drawingLineName (Canvas.set_hoverType h3 c3)));
      [by split|].
    destruct (JS.is_some (Canvas.mouseDown (Canvas.set_hoverType h3 c3))); by split. }
  intros [= <-].
  destruct (hoverChanged_frame c5) as (_ & Hhov & _ & _ & Hlast).
  destruct H5 as [He Hl].
  split; [by rewrite Hlast, Hhov|].
  by rewrite hoverChanged_emits, Hhov, He, Hl.
Qed.

(** The sample of two stacked nodes: the upper one is hovered. *)
Lemma getHover_topmost_pen_seen :
  exists c',
    getHover (H := Sample.helpers) (Point.at_ 75 25) SampleHover.stacked = Some c'
    /\ Store.hover (Canvas.store c') = Some 1.
Proof.
  destruct (getHover_topmost_spec (H := Sample.helpers) (Point.at_ 75 25)
              SampleHover.stacked false 1)
    as (c' & Hget & Hhov & _).
  - reflexivity.
  - by left.
  - unfold penTaken. cbn.
    rewrite (bool_decide_eq_false_2 (None = Some false)) by done.
    by rewrite !bool_decide_eq_true_2 by lra.
  - intros [|[|k]] Hk; [lia|lia|]. reflexivity.
  - by exists c'.
Qed.

Lemma getHover_notifies_change_witness :
  exists c',
    getHover (H := Sample.helpers) (Point.at_ 75 25) SampleHover.stacked = Some c'
    /\ Store.emitted (Canvas.store c') = [mkEvent "enter" (OfPen 1)].
Proof.
  destruct getHover_topmost_pen_seen as (c' & Hrun & Hhov).
  exists c'. split; [exact Hrun|].
  destruct (getHover_notifies_change (H := Sample.helpers) (Point.at_ 75 25)
              SampleHover.stacked c' Hrun) as (_ & Hem).
  rewrite Hem, Hhov. reflexivity.
Defined.

(** ** Adding a pen *)

Lemma pensOnly_initLineRect `{Helpers} (i : nat) (c c' : Canvas.t) :
  initLineRect i c = Some c' -> pensOnly c c'.
Proof.
  unfold initLineRect. destruct (pensOf c !! i) as [p|]; [|done]. rewrite bind_Some.
  destruct (initLineRect_pen p) as [p'|]; [|done]. rewrite bind_Some.
  intros [= <-].
  eapply pensOnly_trans; [|apply pensOnly_alterPen].
  eapply pensOnly_store; [apply detachActiveRect_store|apply pensOnly_refl].
Qed.

(** What a write into pens only leaves of the store. *)
Lemma pensOnly_fields (c c' : Canvas.t) :
  pensOnly c c' ->
  Store.pens_by_id (Canvas.store c') = Store.pens_by_id (Canvas.store c)
  /\ Store.emitted (Canvas.store c') = Store.emitted (Canvas.store c)
  /\ Store.histories (Canvas.store c') = Store.histories (Canvas.store c)
  /\ Store.active (Canvas.store c') = Store.active (Canvas.store c)
  /\ Store.data_locked (Canvas.store c') = Store.data_locked (Canvas.store c).
Proof. intros (L & -> & _). by repeat split. Qed.

Lemma dirtyPenRect_keeps `{Helpers} {A : Type} (obs : Pen.t -> A) (j k : nat)
    (c : Canvas.t) :
  (forall g p, obs (Pen_ops.alterCalc g p) = obs p) ->
  obs <$> pensOf (dirtyPenRect j c) !! k = obs <$> pensOf c !! k.
Proof.
  intros Hobs. unfold dirtyPenRect. destruct (pensOf c !! j) as [p|] eqn:Hp; [|done].
  set (p2 := Pen_ops.alterCalc _ _).
  change (pensOf (Canvas.set_dirty true (alterPen (fun _ => p2) j (detachActiveRect j c))))
    with (alter (fun _ => p2) j (pensOf (detachActiveRect j c))).
  rewrite pensOf_detachActiveRect.
  destruct (decide (k = j)) as [->|Hne].
  - rewrite list_lookup_alter_eq, Hp. cbn. subst p2. by rewrite !Hobs.
  - by rewrite list_lookup_alter_ne.
Qed.

Lemma initLineRect_keeps `{Helpers} (i k : nat) (c c' : Canvas.t) :
  initLineRect i c = Some c' ->
  penHead <$> pensOf c' !! k = penHead <$> pensOf c !! k.
Proof.
  unfold initLineRect. destruct (pensOf c !! i) as [p|] eqn:Hp; [|done].
  rewrite bind_Some.
  destruct (initLineRect_pen p) as [p'|] eqn:Hinit; [|done]. rewrite bind_Some.
  intros [= <-]. rewrite pensOf_alterPen, pensOf_detachActiveRect.
  destruct (decide (k = i)) as [->|Hne]; [|by rewrite list_lookup_alter_ne].
  rewrite list_lookup_alter_eq, Hp. cbn. f_equal.
  revert Hinit. unfold initLineRect_pen. cbn.
  destruct (Calc.worldFrom (Pen.calculative p)); [|done]. cbn.
  destruct (Calc.worldTo (Pen.calculative p)); [|done]. cbn.
  intros [= <-]. by destruct (Calc.worldAnchors (Pen.calculative p)).
Qed.

Lemma initLineRect_is_Some `{Helpers} (i : nat) (c : Canvas.t) (p : Pen.t) :
  pensOf c !! i = Some p ->
  is_Some (Calc.worldFrom (Pen.calculative p)) ->
  is_Some (Calc.worldTo (Pen.calculative p)) ->
  is_Some (initLineRect i c).
Proof.
  intros Hp Hfrom Hto. unfold initLineRect. rewrite Hp, bind_Some.
  destruct (initLineRect_pen_Some p Hfrom Hto) as [p' ->]. rewrite bind_Some.
  by eexists.
Qed.

(** The ends of a pen after [dirtyPenRect]. *)
Lemma dirtyPenRect_ends `{Helpers} (j : nat) (c : Canvas.t) (p : Pen.t) :
  pensOf c !! j = Some p ->
  exists p', pensOf (dirtyPenRect j c) !! j = Some p'
             /\ Calc.worldFrom (Pen.calculative p') = Calc.worldFrom (Pen.calculative p)
             /\ Calc.worldTo (Pen.calculative p') = Calc.worldTo (Pen.calculative p).
Proof.
  intros Hp. unfold dirtyPenRect. rewrite Hp.
  set (p2 := Pen_ops.alterCalc _ _). exists p2.
  change (pensOf (Canvas.set_dirty true (alterPen (fun _ => p2) j (detachActiveRect j c))))
    with (alter (fun _ => p2) j (pensOf (detachActiveRect j c))).
  by rewrite pensOf_detachActiveRect, list_lookup_alter_eq, Hp.
Qed.

Lemma initLineRect_other `{Helpers} (i k : nat) (c c' : Canvas.t) :
  initLineRect i c = Some c' -> k <> i -> pensOf c' !! k = pensOf c !! k.
Proof.
  unfold initLineRect. destruct (pensOf c !! i) as [p|]; [|done]. rewrite bind_Some.
  destruct (initLineRect_pen p) as [p'|]; [|done]. rewrite bind_Some.
  intros [= <-] Hne.
  by rewrite pensOf_alterPen, pensOf_detachActiveRect, list_lookup_alter_ne.
Qed.

(** [makePen] appends the pen under its id. *)
Lemma makePen_spec `{Helpers} (pen : Pen.t) (fresh : string) (c : Canvas.t) :
  (Pen_ops.isLine pen = true ->
   is_Some (Calc.worldFrom (Pen.calculative pen))
   /\ is_Some (Calc.worldTo (Pen.calculative pen))) ->
  exists c' pen',
    makePen pen fresh c = Some c'
    /\ length (pensOf c') = S (length (pensOf c))
    /\ pensOf c' !! length (pensOf c) = Some pen'
    /\ stored fresh pen pen'
    /\ (forall k, k < length (pensOf c) -> pensOf c' !! k = pensOf c !! k)
    /\ Store.pens_by_id (Canvas.store c')
       = <[idOr fresh pen := length (pensOf c)]> (Store.pens_by_id (Canvas.store c))
    /\ Store.emitted (Canvas.store c') = Store.emitted (Canvas.store c)
    /\ Store.histories (Canvas.store c') = Store.histories (Canvas.store c)
    /\ Store.active (Canvas.store c') = Store.active (Canvas.store c)
    /\ Store.data_locked (Canvas.store c') = Store.data_locked (Canvas.store c).
Proof.
  intros Hline. unfold makePen. cbv zeta.
  set (pen1 := setPenId (Some (idOr fresh pen)) pen).
  set (n := length (pensOf c)).
  set (c1 := alterStore _ c).
  assert (Hpens1 : pensOf c1 = pensOf c ++ [pen1]) by reflexivity.
  assert (Hn1 : pensOf c1 !! n = Some pen1).
  { rewrite Hpens1. subst n. by rewrite list_lookup_middle. }
  set (c2 := dirtyPenRect n c1).
  destruct (dirtyPenRect_ends n c1 pen1 Hn1) as (p2 & Hp2 & Hfrom2 & Hto2).
  fold c2 in Hp2.
  assert (Hc3 : exists c3,
             (if Pen_ops.isLine pen1 then initLineRect n c2 else Some c2) = Some c3
             /\ pensOnly c2 c3
             /\ (forall k, penHead <$> pensOf c3 !! k = penHead <$> pensOf c2 !! k)
             /\ (forall k, k <> n -> pensOf c3 !! k = pensOf c2 !! k)).
  { change (Pen_ops.isLine pen1) with (Pen_ops.isLine pen).
    destruct (Pen_ops.isLine pen) eqn:Hisline.
    - destruct (Hline eq_refl) as [Hfrom Hto].
      destruct (initLineRect_is_Some n c2 p2 Hp2) as [c3 Hc3].
      { by rewrite Hfrom2. } { by rewrite Hto2. }
      exists c3. split; [exact Hc3|]. split; [by apply pensOnly_initLineRect with n|].
      split.
      + intros k. by apply initLineRect_keeps with n.
      + intros k Hk. by apply initLineRect_other with n.
    - exists c2. split; [done|]. split; [apply pensOnly_refl|done]. }
  destruct Hc3 as (c3 & -> & Hkept3 & Hhead3 & Hother3). rewrite bind_Some.
  assert (Hkept2 : pensOnly c1 c2) by apply pensOnly_dirtyPenRect.
  pose proof (pensOnly_trans _ _ _ Hkept2 Hkept3) as Hkept13.
  pose proof (pensOnly_length _ _ Hkept13) as Hlen3.
  destruct (pensOnly_fields _ _ Hkept13) as (Hid & Hem & Hhist & Hact & Hlock).
  assert (Hhead : penHead <$> pensOf c3 !! n = Some (penHead pen1)).
  { rewrite Hhead3. subst c2. rewrite dirtyPenRect_keeps by done. by rewrite Hn1. }
  destruct (pensOf c3 !! n) as [p3|] eqn:Hp3; [|done].
  assert (Hhead' : penHead p3 = penHead pen1).
  { apply (f_equal (default (penHead p3))) in Hhead. exact Hhead. }
  set (fixRotate := fun p => if JS.truthy_num (Pen.rotate p) then p
                             else Pen.set_rotate (Some 0%R) p).
  exists (alterPen fixRotate n c3), (fixRotate p3).
  split; [reflexivity|].
  split.
  { rewrite pensOf_alterPen, length_alter, Hlen3, Hpens1, length_app. cbn. lia. }
  split.
  { by rewrite pensOf_alterPen, list_lookup_alter_eq, Hp3. }
  split.
  { unfold penHead in Hhead'. injection Hhead' as Hi Hna Hty Hpa Hro.
    unfold stored, fixRotate.
    destruct (Pen.rotate p3) as [r3|] eqn:Hr3; cbn in *.
    - rewrite <- Hro. cbn. case_bool_decide; cbn; by rewrite ?Hr3.
    - rewrite <- Hro. by cbn. }
  split.
  { intros k Hk. rewrite pensOf_alterPen, list_lookup_alter_ne by lia.
    rewrite Hother3 by lia. subst c2. rewrite dirtyPenRect_other by lia.
    rewrite Hpens1. by rewrite lookup_app_l. }
  change (Canvas.store (alterPen fixRotate n c3))
    with (Store.set_pens (alter fixRotate n (Store.pens (Canvas.store c3))) (Canvas.store c3)).
  cbn. rewrite Hid, Hem, Hhist, Hact, Hlock. by repeat split.
Qed.

(** X28: [addPen]: a pen that [beforeAddPen] turns down leaves the canvas
    as it is.  A pen that is accepted (a line only with both ends) is
    appended to [store.data.pens] under its own id, or under a fresh one
    when it has none, with a rotation that is set (0 when it was unset or
    0); [store.pens] finds it by that id; the pens before it are untouched;
    one [addPen] event is emitted; and a history record is pushed exactly
    when the call is marked edited and the document is not locked. *)
Theorem addPen_stores_pen `{Helpers} (pen : Pen.t) (edited : bool)
    (fresh : string) (clock : R) (c : Canvas.t) :
  (accepts c pen = false -> addPen pen edited fresh clock c = Some c)
  /\ (accepts c pen = true ->
      (Pen_ops.isLine pen = true ->
       is_Some (Calc.worldFrom (Pen.calculative pen))
       /\ is_Some (Calc.worldTo (Pen.calculative pen))) ->
      exists c' pen',
        addPen pen edited fresh clock c = Some c'
        /\ length (pensOf c') = S (length (pensOf c))
        /\ pensOf c' !! length (pensOf c) = Some pen'
        /\ stored fresh pen pen'
        /\ penById c' (idOr fresh pen) = Some pen'
        /\ (forall k, k < length (pensOf c) -> pensOf c' !! k = pensOf c !! k)
        /\ Store.emitted (Canvas.store c')
           = mkEvent "addPen" (OfPen (length (pensOf c))) :: Store.emitted (Canvas.store c)
        /\ Store.histories (Canvas.store c')
           = (if edited && negb (locked_truthy (Store.data_locked (Canvas.store c)))
              then Store.histories (Canvas.store c) ++ [mkHistory Add (length (pensOf c))]
              else Store.histories (Canvas.store c))
        /\ Store.active (Canvas.store c') = Store.active (Canvas.store c)).
Proof.
  split.
  { intros Hno. unfold addPen. by rewrite Hno. }
  intros Hyes Hline. unfold addPen. rewrite Hyes. cbn [negb].
  destruct (makePen_spec pen fresh c Hline)
    as (c1 & pen' & Hmake & Hlen & Hpen & Hstored & Hbefore & Hids & Hem & Hhist
        & Hact & Hlock).
  rewrite Hmake, bind_Some. cbv zeta.
  set (n := length (pensOf c)) in *.
  set (c2 := emit "addPen" (OfPen n) (render NoArg clock c1)).
  assert (Hst2 : Canvas.store c2
                 = Store.set_emitted (mkEvent "addPen" (OfPen n)
                                      :: Store.emitted (Canvas.store c1))
                     (Canvas.store c1)).
  { subst c2. unfold emit, alterStore. cbn. by rewrite render_store. }
  assert (Hlock2 : Store.data_locked (Canvas.store c2) = Store.data_locked (Canvas.store c)).
  { by rewrite Hst2. }
  rewrite Hlock2. clearbody c2.
  set (push := edited && negb (locked_truthy (Store.data_locked (Canvas.store c)))).
  assert (Hpens : forall c3,
             c3 = (if push
                   then alterStore
                          (fun s => Store.set_histories
                                      (Store.histories s ++ [mkHistory Add n]) s) c2
                   else c2) ->
             pensOf c3 = pensOf c1
             /\ Store.pens_by_id (Canvas.store c3) = Store.pens_by_id (Canvas.store c1)
             /\ Store.emitted (Canvas.store c3)
                = mkEvent "addPen" (OfPen n) :: Store.emitted (Canvas.store c1)
             /\ Store.histories (Canvas.store c3)
                = (if push then Store.histories (Canvas.store c1) ++ [mkHistory Add n]
                   else Store.histories (Canvas.store c1))
             /\ Store.active (Canvas.store c3) = Store.active (Canvas.store c1)).
  { intros c3 ->. unfold pensOf. destruct push; cbn; rewrite Hst2; by repeat split. }
  eexists _, pen'. split; [reflexivity|].
  destruct (Hpens _ eq_refl) as (Hp3 & Hid3 & Hem3 & Hhist3 & Hact3).
  rewrite Hp3, Hem3, Hhist3, Hact3, Hem, Hhist, Hact.
  split; [exact Hlen|]. split; [exact Hpen|]. split; [exact Hstored|].
  split.
  { unfold penById. rewrite Hid3, Hids, lookup_insert_eq, bind_Some, Hp3. exact Hpen. }
  split; [exact Hbefore|]. by repeat split.
Qed.

Lemma addPen_stores_pen_witness :
  exists c' pen',
    addPen (H := Sample.helpers) SampleAdd.bare true "n1" 0 SampleSelection.chosen
    = Some c'
    /\ pensOf c' !! 2 = Some pen'
    /\ Pen.id pen' = Some "n1"
    /\ Pen.rotate pen' = Some 0%R
    /\ penById c' "n1" = Some pen'.
Proof.
  destruct (proj2 (addPen_stores_pen (H := Sample.helpers) SampleAdd.bare true "n1" 0
                     SampleSelection.chosen))
    as (c' & pen' & Hrun & _ & Hpen & (Hid & _ & _ & _ & Hrot) & Hby & _).
  - reflexivity.
  - intros [=].
  - exists c', pen'. split; [exact Hrun|]. split; [exact Hpen|].
    split; [exact Hid|]. split; [exact Hrot|exact Hby].
Defined.

(** ** Cursors of the size handles *)

Lemma Int_part_succ (x : R) : Int_part (x + 1) = (Int_part x + 1)%Z.
Proof.
  symmetry. apply Int_part_spec. rewrite plus_IZR.
  destruct (base_Int_part x). lra.
Qed.

Lemma Int_part_nonneg (x : R) : (0 <= x)%R -> (0 <= Int_part x)%Z.
Proof.
  intros Hx. destruct (base_Int_part x) as [_ Hlow].
  assert (Hgt : (-1 < IZR (Int_part x))%R) by lra.
  apply lt_IZR in Hgt. lia.
Qed.

Lemma round_succ (x : R) : JSMath.round (x + 1) = (JSMath.round x + 1)%Z.
Proof.
  unfold JSMath.round. rewrite <- Int_part_succ. f_equal. lra.
Qed.

Lemma round_nonneg (x : R) : (- / 2 <= x)%R -> (0 <= JSMath.round x)%Z.
Proof. intros Hx. apply Int_part_nonneg. lra. Qed.

Lemma rem_quarter_turn (r : R) :
  (0 <= r)%R -> JSMath.rem (r + 90) 90 = JSMath.rem r 90.
Proof.
  intros Hr. unfold JSMath.rem, JSMath.trunc.
  rewrite !bool_decide_eq_true_2 by lra.
  replace ((r + 90) / 90)%R with (r / 90 + 1)%R by lra.
  rewrite Int_part_succ, plus_IZR. lra.
Qed.

Lemma nearDiagonal_quarter_turn (r : R) :
  (0 <= r)%R -> nearDiagonal (r + 90) = nearDiagonal r.
Proof. intros Hr. unfold nearDiagonal. by rewrite rem_quarter_turn. Qed.

Lemma tableAt_is_Some (cursors : list string) (k : Z) :
  length cursors = 4 -> (0 <= k)%Z -> is_Some (tableAt cursors (Z.rem k 4)).
Proof.
  intros Hlen Hk. unfold tableAt.
  pose proof (Z.rem_bound_pos k 4 Hk ltac:(lia)) as [Hlo Hhi].
  rewrite bool_decide_eq_false_2 by lia.
  apply lookup_lt_is_Some_2. lia.
Qed.

(** X29: the cursors of the size handles turn with the active rect: after
    a further quarter turn a handle shows the cursor that the next handle
    showed before; and for a rotation that is not negative and tables of
    four cursors every corner and edge handle has a cursor. *)
Theorem handle_cursor_turns_with_rect `{Helpers} (i : nat) (r : R) :
  (0 <= r)%R ->
  cornerCursor i (Some (r + 90)%R) = cornerCursor (S i) (Some r)
  /\ edgeCursor i (Some (r + 90)%R) = edgeCursor (S i) (Some r)
  /\ (length defaultCursors = 4 -> length rotatedCursors = 4 ->
      is_Some (cornerCursor i (Some r)) /\ is_Some (edgeCursor i (Some r))).
Proof.
  intros Hr.
  assert (Hdiag : ((r + 90 - 45) / 90 = (r - 45) / 90 + 1)%R) by lra.
  assert (Hstr : ((r + 90) / 90 = r / 90 + 1)%R) by lra.
  assert (Hk1 : (0 <= JSMath.round ((r - 45) / 90))%Z) by (apply round_nonneg; lra).
  assert (Hk2 : (0 <= JSMath.round (r / 90))%Z)
    by (apply round_nonneg; lra).
  split; [|split].
  - unfold cornerCursor. cbn [mbind option_bind].
    rewrite nearDiagonal_quarter_turn by exact Hr.
    rewrite Hdiag, Hstr, !round_succ.
    destruct (nearDiagonal r); do 2 f_equal; lia.
  - unfold edgeCursor. cbn [mbind option_bind].
    rewrite nearDiagonal_quarter_turn by exact Hr.
    rewrite Hdiag, Hstr, !round_succ.
    destruct (nearDiagonal r); do 2 f_equal; lia.
  - intros Hd Hro. unfold cornerCursor, edgeCursor. cbn [mbind option_bind].
    destruct (nearDiagonal r); split; apply tableAt_is_Some; try done; lia.
Qed.

Lemma handle_cursor_turns_with_rect_witness :
  cornerCursor (H := Sample.helpers) 0 (Some (0 + 90)%R)
  = cornerCursor (H := Sample.helpers) 1 (Some 0%R)
  /\ is_Some (cornerCursor (H := Sample.helpers) 1 (Some 0%R)).
Proof.
  destruct (handle_cursor_turns_with_rect (H := Sample.helpers) 0 0 ltac:(lra))
    as (Hturn & _ & _).
  destruct (handle_cursor_turns_with_rect (H := Sample.helpers) 1 0 ltac:(lra))
    as (_ & _ & Hdef).
  split; [exact Hturn|]. by apply Hdef.
Defined.
